(** * FinCloud: dual-mode persistence and financial aggregation

    A shallow embedding of the user service (the pool of
    [user-service/src/config/database.js] and the user routes that follow
    the server in [user-service/src/server.js]) and of the transaction
    service ([transaction-service/src/models/Transaction.js],
    [transaction-service/src/routes/transactionRoutes.js]).

    Modelling conventions.
    - A JavaScript number is the exact rational ([Q]) it denotes and sums are
      exact: a statement about a total is a statement about the exact sum of
      the amounts, and nothing is stated that would depend on how doubles are
      rounded.  Counts are [nat].
    - A string is the UTF-8 encoding of the JavaScript string; [js_length]
      counts its UTF-16 code units, as [.length] does.
    - A date is its epoch time in milliseconds ([Z]).
    - [Map] objects and plain objects used as dictionaries are association
      lists in insertion order, which is the order [Map.prototype.values] and
      [Object.values] enumerate (for keys that are not array indices).
    - Values drawn from the environment (the random bytes of fresh ids, the
      clock, the password hash) are arguments of the operations that consume
      them; behaviour of the backing stores that their configuration decides
      (the order in which a [$group] stage emits its groups, the collation of
      the database) is a parameter too.
    - The process runs in one of two modes, fixed at start-up: [Live] (the
      backing store answered) or [Fallback] (the in-memory mock). *)

From Stdlib Require Import ZArith QArith Qabs Qround List String Ascii Bool.
From Stdlib Require Import Lia Lqa.
From Stdlib Require Import Sorted Permutation.
Import ListNotations.

Local Open Scope string_scope.
Local Open Scope list_scope.

(** ** Numbers *)

Definition Qltb (x y : Q) : bool := negb (Qle_bool y x).
Definition Qgtb (x y : Q) : bool := Qltb y x.

(** ** Strings *)

(** UTF-16 code units a byte of a UTF-8 encoding accounts for: one for an
    ASCII byte and for the lead byte of a two- or three-byte sequence, two
    for the lead byte of a four-byte sequence (a surrogate pair), none for a
    continuation byte. *)
Definition utf16_units (c : ascii) : nat :=
  let n := nat_of_ascii c in
  if (n <? 128)%nat then 1%nat
  else if (n <? 192)%nat then 0%nat
  else if (n <? 240)%nat then 1%nat
  else 2%nat.

(** [s.length]. *)
Fixpoint js_length (s : string) : nat :=
  match s with
  | EmptyString => 0%nat
  | String c r => (utf16_units c + js_length r)%nat
  end.

(** ** Store selection *)

Inductive Mode := Live | Fallback.

(** [shouldUseMock] of the routes: the mongoose connection is not ready. *)
Definition shouldUseMock (m : Mode) : bool :=
  match m with Live => false | Fallback => true end.

(** ** Insertion-ordered maps (JavaScript [Map], objects as dictionaries) *)

Section Dict.
Context {V : Type}.

Definition Dict := list (string * V).

Fixpoint dict_get (k : string) (d : Dict) : option V :=
  match d with
  | [] => None
  | (k', v) :: r => if String.eqb k' k then Some v else dict_get k r
  end.

(** [set] keeps the position of a key that is already present and appends
    a new key at the end. *)
Fixpoint dict_set (k : string) (v : V) (d : Dict) : Dict :=
  match d with
  | [] => [(k, v)]
  | (k', v') :: r =>
      if String.eqb k' k then (k', v) :: r else (k', v') :: dict_set k v r
  end.

Fixpoint dict_delete (k : string) (d : Dict) : Dict :=
  match d with
  | [] => []
  | (k', v') :: r =>
      if String.eqb k' k then r else (k', v') :: dict_delete k r
  end.

Definition dict_values (d : Dict) : list V := map snd d.
End Dict.
Arguments Dict V : clear implicits.

(** ** Transaction data model (models/Transaction.js) *)

Inductive TxType := income | expense.

Inductive Category :=
  | food | transport | entertainment | shopping | bills | health
  | education | salary | freelance | investment | gift | other.

Inductive Period := daily | weekly | monthly | yearly.

Definition type_name (t : TxType) : string :=
  match t with income => "income" | expense => "expense" end.

Definition category_name (c : Category) : string :=
  match c with
  | food => "food" | transport => "transport"
  | entertainment => "entertainment" | shopping => "shopping"
  | bills => "bills" | health => "health" | education => "education"
  | salary => "salary" | freelance => "freelance"
  | investment => "investment" | gift => "gift" | other => "other"
  end.

Definition period_name (p : Period) : string :=
  match p with
  | daily => "daily" | weekly => "weekly"
  | monthly => "monthly" | yearly => "yearly"
  end.

Definition all_types : list TxType := [income; expense].
Definition all_categories : list Category :=
  [food; transport; entertainment; shopping; bills; health;
   education; salary; freelance; investment; gift; other].
Definition all_periods : list Period := [daily; weekly; monthly; yearly].

(** [Joi.string().valid(...)]: the string must be one of the listed names. *)
Definition valid_of {A : Type} (name : A -> string) (all : list A)
    (s : string) : option A :=
  find (fun a => String.eqb (name a) s) all.

Definition TxType_eqb (a b : TxType) : bool :=
  match a, b with
  | income, income | expense, expense => true
  | _, _ => false
  end.

Definition Category_eqb (a b : Category) : bool :=
  String.eqb (category_name a) (category_name b).

(** The request body of POST / and PUT /:id, as parsed JSON: every key of the
    schema may be missing, and [body_unknown] lists the other keys the body
    carries, in their order.  A key that is present holds a value of the
    JSON type the schema declares for it. *)
Record Body := mkBody {
  body_userId : option string;
  body_amount : option Q;
  body_description : option string;
  body_category : option string;
  body_type : option string;
  body_date : option Z;
  body_tags : option (list string);
  body_isRecurring : option bool;
  body_recurringPeriod : option string;
  body_unknown : list string
}.

(** The value Joi returns for a body that passed [transactionSchema]. *)
Record Value := mkValue {
  v_userId : string;
  v_amount : Q;
  v_description : string;
  v_category : Category;
  v_type : TxType;
  v_date : option Z;
  v_tags : option (list string);
  v_isRecurring : option bool;
  v_recurringPeriod : option Period
}.

(** A stored transaction document. *)
Record Transaction := mkTransaction {
  _id : string;
  userId : string;
  amount : Q;
  description : string;
  category : Category;
  type : TxType;
  date : Z;
  tags : list string;
  isRecurring : bool;
  recurringPeriod : option Period;
  createdAt : Z;
  updatedAt : Z
}.

(** ** Validation (routes/transactionRoutes.js, [transactionSchema]) *)

(** A Joi validation error carries the offending key. *)
Inductive ValidationError := Invalid (key : string).

Definition required_string (key : string) (o : option string)
    : ValidationError + string :=
  match o with
  | None => inl (Invalid key)
  | Some s => if String.eqb s "" then inl (Invalid key) else inr s
  end.

Definition required_valid {A : Type} (key : string) (name : A -> string)
    (all : list A) (o : option string) : ValidationError + A :=
  match o with
  | None => inl (Invalid key)
  | Some s =>
      match valid_of name all s with
      | Some a => inr a
      | None => inl (Invalid key)
      end
  end.

Definition optional_valid {A : Type} (key : string) (name : A -> string)
    (all : list A) (o : option string) : ValidationError + option A :=
  match o with
  | None => inr None
  | Some s =>
      match valid_of name all s with
      | Some a => inr (Some a)
      | None => inl (Invalid key)
      end
  end.

Definition bind {E A B : Type} (x : E + A) (f : A -> E + B) : E + B :=
  match x with inl e => inl e | inr a => f a end.

Notation "x <- e ;; k" := (bind e (fun x => k))
  (at level 61, e at next level, right associativity).

(** [Joi.number()] refuses a number outside the safe integer range,
    [Number.MIN_SAFE_INTEGER .. Number.MAX_SAFE_INTEGER]. *)
Definition safe_number (a : Q) : bool :=
  Qle_bool (Qabs a) (inject_Z (2 ^ 53 - 1)).

(** [Joi.array().items(Joi.string())]: every item a string that is not
    empty. *)
Definition string_items (key : string) (o : option (list string))
    : ValidationError + option (list string) :=
  match o with
  | None => inr None
  | Some l => if forallb (fun s => negb (String.eqb s "")) l
              then inr (Some l) else inl (Invalid key)
  end.

(** A key the schema does not declare is refused, once the declared keys
    have passed. *)
Definition no_unknown (keys : list string) : ValidationError + unit :=
  match keys with
  | [] => inr tt
  | k :: _ => inl (Invalid k)
  end.

(** [transactionSchema.validate(req.body)].  Keys are checked in the order of
    the schema and the first failure is reported.  [recurringPeriod] is
    [optional()] whatever [isRecurring] holds. *)
Definition transactionSchema_validate (b : Body) : ValidationError + Value :=
  uid <- required_string "userId" (body_userId b) ;;
  amt <- match body_amount b with
         | None => inl (Invalid "amount")
         | Some a => if Qeq_bool a 0 || negb (safe_number a)
                     then inl (Invalid "amount") else inr a
         end ;;
  desc <- bind (required_string "description" (body_description b))
            (fun s => if (js_length s <=? 200)%nat then inr s
                      else inl (Invalid "description")) ;;
  cat <- required_valid "category" category_name all_categories
           (body_category b) ;;
  ty <- required_valid "type" type_name all_types (body_type b) ;;
  tgs <- string_items "tags" (body_tags b) ;;
  per <- optional_valid "recurringPeriod" period_name all_periods
           (body_recurringPeriod b) ;;
  _ <- no_unknown (body_unknown b) ;;
  inr {| v_userId := uid; v_amount := amt; v_description := desc;
         v_category := cat; v_type := ty; v_date := body_date b;
         v_tags := tgs; v_isRecurring := body_isRecurring b;
         v_recurringPeriod := per |}.

(** ** Amount normalisation ("Ajustar valor baseado no tipo") *)

Definition set_amount (v : Value) (a : Q) : Value :=
  {| v_userId := v_userId v; v_amount := a;
     v_description := v_description v; v_category := v_category v;
     v_type := v_type v; v_date := v_date v; v_tags := v_tags v;
     v_isRecurring := v_isRecurring v;
     v_recurringPeriod := v_recurringPeriod v |}.

(** The [if / else if] both POST / and PUT /:id run on the validated value. *)
Definition adjustAmount (v : Value) : Value :=
  if TxType_eqb (v_type v) expense && Qgtb (v_amount v) 0
  then set_amount v (- Qabs (v_amount v))
  else if TxType_eqb (v_type v) income && Qltb (v_amount v) 0
  then set_amount v (Qabs (v_amount v))
  else v.

(** ** Strings as mongoose setters see them ([trim], [lowercase]) *)

(** White space and line terminators of ECMAScript, as UTF-8: the ASCII
    ones; U+00A0; U+1680, U+2000 to U+200A, U+2028, U+2029, U+202F, U+205F,
    U+3000 and U+FEFF. *)
Definition is_space (c : ascii) : bool :=
  let n := nat_of_ascii c in
  (Nat.eqb n 32 || ((9 <=? n) && (n <=? 13)))%nat.

Definition is_space2 (c1 c2 : ascii) : bool :=
  (Nat.eqb (nat_of_ascii c1) 194 && Nat.eqb (nat_of_ascii c2) 160)%nat.

Definition is_space3 (c1 c2 c3 : ascii) : bool :=
  let a := nat_of_ascii c1 in
  let b := nat_of_ascii c2 in
  let c := nat_of_ascii c3 in
  (Nat.eqb a 225 && Nat.eqb b 154 && Nat.eqb c 128
   || Nat.eqb a 226 && Nat.eqb b 128
      && ((128 <=? c) && (c <=? 138) || Nat.eqb c 168 || Nat.eqb c 169
          || Nat.eqb c 175)
   || Nat.eqb a 226 && Nat.eqb b 129 && Nat.eqb c 159
   || Nat.eqb a 227 && Nat.eqb b 128 && Nat.eqb c 128
   || Nat.eqb a 239 && Nat.eqb b 187 && Nat.eqb c 191)%nat.

(** Drops the white space a byte sequence starts with; with [backwards] the
    sequence is read from its end, the bytes of a character last first. *)
Fixpoint strip (backwards : bool) (s : list ascii) : list ascii :=
  match s with
  | c1 :: r1 =>
      if is_space c1 then strip backwards r1
      else
        match r1 with
        | c2 :: r2 =>
            if (if backwards then is_space2 c2 c1 else is_space2 c1 c2)
            then strip backwards r2
            else
              match r2 with
              | c3 :: r3 =>
                  if (if backwards then is_space3 c3 c2 c1
                      else is_space3 c1 c2 c3)
                  then strip backwards r3
                  else s
              | [] => s
              end
        | [] => s
        end
  | [] => []
  end.

Definition trim (s : string) : string :=
  string_of_list_ascii
    (rev (strip true (rev (strip false (list_ascii_of_string s))))).

(** ** Identifiers in hexadecimal *)

Definition lower_ascii (c : ascii) : ascii :=
  let n := nat_of_ascii c in
  if ((65 <=? n) && (n <=? 90))%nat then ascii_of_nat (n + 32) else c.

Definition upper_ascii (c : ascii) : ascii :=
  let n := nat_of_ascii c in
  if ((97 <=? n) && (n <=? 122))%nat then ascii_of_nat (n - 32) else c.

Definition is_digit (c : ascii) : bool :=
  let n := nat_of_ascii c in ((48 <=? n) && (n <=? 57))%nat.

Definition is_hex (c : ascii) : bool :=
  let n := nat_of_ascii c in
  (is_digit c || (97 <=? n) && (n <=? 102) || (65 <=? n) && (n <=? 70))%nat.

Definition hex_char (n : nat) : ascii :=
  nth n (list_ascii_of_string "0123456789abcdef") "0"%char.

(** The two hexadecimal digits of a byte, in lower case. *)
Definition byte_hex (c : ascii) : list ascii :=
  let n := nat_of_ascii c in
  [hex_char (n / 16); hex_char (n mod 16)].

(** The first [n] of the random bytes drawn, zero bytes making up for
    missing ones. *)
Definition random_bytes (n : nat) (drawn : string) : list ascii :=
  firstn n (list_ascii_of_string drawn ++ repeat zero n).

(** The identifiers of the document store: twelve bytes, written as 24
    hexadecimal digits. *)
Module ObjectId.

(** [new ObjectId().toString()] for the bytes drawn. *)
Definition text (drawn : string) : string :=
  string_of_list_ascii (flat_map byte_hex (random_bytes 12 drawn)).

Definition is_text (s : string) : bool :=
  (String.length s =? 24)%nat && forallb is_hex (list_ascii_of_string s).

(** Casting the string of a request to an identifier: a string of 24
    hexadecimal digits names the identifier of those digits, whatever their
    case; any other string is a [CastError] ([None]). *)
Definition cast (s : string) : option string :=
  if is_text s
  then Some (string_of_list_ascii (map lower_ascii (list_ascii_of_string s)))
  else None.

End ObjectId.

(** What the live document store and the runtime decide and the sources do
    not: the case mapping of [String.prototype.toLowerCase]; the order in
    which a [$group] stage emits its groups and a [$sort] stage leaves
    documents of equal sort key, given as a rank of the group key (every
    order of the groups is the order of some rank); and the date the driver
    sends for an [Invalid Date] ([None]: it throws). *)
Record LiveEnv := mkLiveEnv {
  toLowerCase : string -> string;
  groupRank : string -> nat;
  invalidDate : option Z
}.

(** ** Queries on transactions *)

Record DateRange := mkRange { gte : option Z; lte : option Z }.

(** The filter object GET /user/:userId builds. *)
Record Filter := mkFilter {
  f_userId : string;
  f_category : option string;
  f_type : option string;
  f_date : option DateRange
}.

(** Query-string parameters of GET /user/:userId. *)
Record ListQuery := mkListQuery {
  q_page : option Z;
  q_limit : option Z;
  q_category : option string;
  q_type : option string;
  q_startDate : option Z;
  q_endDate : option Z
}.

(** [if (x) ...] on a query-string value: present and not empty. *)
Definition truthy_string (o : option string) : option string :=
  match o with
  | Some s => if String.eqb s "" then None else Some s
  | None => None
  end.

Definition build_filter (uid : string) (q : ListQuery) : Filter :=
  {| f_userId := uid;
     f_category := truthy_string (q_category q);
     f_type := truthy_string (q_type q);
     f_date := match q_startDate q, q_endDate q with
               | None, None => None
               | s, e => Some {| gte := s; lte := e |}
               end |}.

(** Results of the two summary aggregations and of the category ranking. *)
Record TypeGroup := mkTypeGroup {
  tg_id : TxType;
  total : Q;
  count : nat;
  avgAmount : Q
}.

Record CategoryGroup := mkCategoryGroup {
  cg_id : Category * TxType;
  cg_total : Q;
  cg_count : nat
}.

Record TopCategory := mkTopCategory {
  tc_id : Category;
  tc_count : nat;
  total_amount : Q
}.

Definition Qof_nat (n : nat) : Q := inject_Z (Z.of_nat n).

(** The match on user and closed date window shared by all aggregations. *)
Definition in_window (uid : string) (startDate endDate : Z)
    (t : Transaction) : bool :=
  String.eqb (userId t) uid
  && (startDate <=? date t)%Z && (date t <=? endDate)%Z.

(** Stable insertion sort, greatest first: models [Array.prototype.sort] with
    comparator [(a, b) => key b - key a] and a [$sort: { key: -1 }] stage. *)
Section SortDesc.
Context {A : Type} (geb : A -> A -> bool).

Fixpoint insert_desc (x : A) (l : list A) : list A :=
  match l with
  | [] => [x]
  | y :: r => if geb x y then x :: l else y :: insert_desc x r
  end.

Definition sort_desc (l : list A) : list A :=
  fold_right insert_desc [] l.
End SortDesc.

(** *** The in-memory collection ([MockTransaction], fallback mode) *)

Module MockTransaction.

(** The module-level [mockTransactions] map, keyed by [_id]. *)
Definition Store := Dict Transaction.

(** [constructor(data)], with the fresh UUID and the clock passed in. *)
Definition new (id : string) (now : Z) (data : Value) : Transaction :=
  {| _id := id;
     userId := v_userId data;
     amount := v_amount data;
     description := v_description data;
     category := v_category data;
     type := v_type data;
     date := match v_date data with Some d => d | None => now end;
     tags := match v_tags data with Some l => l | None => [] end;
     isRecurring := match v_isRecurring data with
                    | Some b => b
                    | None => false
                    end;
     recurringPeriod := v_recurringPeriod data;
     createdAt := now;
     updatedAt := now |}.

Definition save (t : Transaction) (s : Store) : Store :=
  dict_set (_id t) t s.

(** The object [find] resolves to: every method returns the same array. *)
Record Chain := mkChain { lean : list Transaction }.
Definition sort (c : Chain) : Chain := c.
Definition limit (_ : Z) (c : Chain) : Chain := c.
Definition skip (_ : Z) (c : Chain) : Chain := c.

Definition when {A : Type} (o : option A) (f : A -> list Transaction ->
    list Transaction) (l : list Transaction) : list Transaction :=
  match o with Some a => f a l | None => l end.

(** The body of [static async find(filter)]: successive [filter] calls. *)
Definition find (f : Filter) (s : Store) : Chain :=
  let ts := dict_values s in
  let ts := if String.eqb (f_userId f) "" then ts
            else filter (fun t => String.eqb (userId t) (f_userId f)) ts in
  let ts := when (truthy_string (f_category f)) (fun c =>
              filter (fun t => String.eqb (category_name (category t)) c))
              ts in
  let ts := when (truthy_string (f_type f)) (fun c =>
              filter (fun t => String.eqb (type_name (type t)) c)) ts in
  let ts := when (f_date f) (fun r l =>
              let l := when (gte r) (fun g =>
                         filter (fun t => (g <=? date t)%Z)) l in
              when (lte r) (fun g =>
                filter (fun t => (date t <=? g)%Z)) l) ts in
  {| lean := ts |}.

(** [countDocuments] awaits [find] and measures the array behind the chain. *)
Definition countDocuments (f : Filter) (s : Store) : nat :=
  List.length (lean (skip 0 (limit 0 (sort (find f s))))).

Definition findById (id : string) (s : Store) : option Transaction :=
  dict_get id s.

(** [Object.assign(transaction, update)]: only the keys the validated value
    carries are copied. *)
Definition assign (t : Transaction) (u : Value) : Transaction :=
  {| _id := _id t;
     userId := v_userId u;
     amount := v_amount u;
     description := v_description u;
     category := v_category u;
     type := v_type u;
     date := match v_date u with Some d => d | None => date t end;
     tags := match v_tags u with Some l => l | None => tags t end;
     isRecurring := match v_isRecurring u with
                    | Some b => b
                    | None => isRecurring t
                    end;
     recurringPeriod := match v_recurringPeriod u with
                        | Some p => Some p
                        | None => recurringPeriod t
                        end;
     createdAt := createdAt t;
     updatedAt := updatedAt t |}.

Definition touch (now : Z) (t : Transaction) : Transaction :=
  {| _id := _id t; userId := userId t; amount := amount t;
     description := description t; category := category t;
     type := type t; date := date t; tags := tags t;
     isRecurring := isRecurring t; recurringPeriod := recurringPeriod t;
     createdAt := createdAt t; updatedAt := now |}.

Definition findByIdAndUpdate (now : Z) (id : string) (u : Value)
    (s : Store) : option Transaction * Store :=
  match dict_get id s with
  | None => (None, s)
  | Some t =>
      let t' := touch now (assign t u) in
      (Some t', dict_set id t' s)
  end.

Definition findByIdAndDelete (id : string) (s : Store)
    : option Transaction * Store :=
  match dict_get id s with
  | None => (None, s)
  | Some t => (Some t, dict_delete id s)
  end.

(** [static async aggregate(pipeline)]: "Simplified aggregation for mock". *)
Definition aggregate {P R : Type} (pipeline : P) (s : Store) : list R := [].

(** [acc[key]], created on first use, then [total += a; count += 1]. *)
Definition dict_update {V : Type} (k : string) (f : V -> V) (d : Dict V)
    : Dict V :=
  match dict_get k d with
  | Some v => dict_set k (f v) d
  | None => d
  end.

Definition ensure {V : Type} (k : string) (v0 : V) (d : Dict V) : Dict V :=
  match dict_get k d with
  | Some _ => d
  | None => dict_set k v0 d
  end.

Definition financial_step (acc : Dict TypeGroup) (t : Transaction)
    : Dict TypeGroup :=
  let k := type_name (type t) in
  let acc := ensure k {| tg_id := type t; total := 0; count := 0;
                         avgAmount := 0 |} acc in
  dict_update k (fun g => {| tg_id := tg_id g;
                             total := total g + amount t;
                             count := count g + 1;
                             avgAmount := avgAmount g |}) acc.

Definition getMockFinancialSummary (uid : string) (startDate endDate : Z)
    (s : Store) : list TypeGroup :=
  let transactions := filter (in_window uid startDate endDate)
                        (dict_values s) in
  let summary := fold_left financial_step transactions [] in
  map (fun g => {| tg_id := tg_id g; total := total g; count := count g;
                   avgAmount := total g / Qof_nat (count g) |})
      (dict_values summary).

Definition category_key (t : Transaction) : string :=
  category_name (category t) ++ "-" ++ type_name (type t).

Definition category_step (acc : Dict CategoryGroup) (t : Transaction)
    : Dict CategoryGroup :=
  let k := category_key t in
  let acc := ensure k {| cg_id := (category t, type t); cg_total := 0;
                         cg_count := 0 |} acc in
  dict_update k (fun g => {| cg_id := cg_id g;
                             cg_total := cg_total g + amount t;
                             cg_count := cg_count g + 1 |}) acc.

Definition getMockCategorySummary (uid : string) (startDate endDate : Z)
    (s : Store) : list CategoryGroup :=
  let transactions := filter (in_window uid startDate endDate)
                        (dict_values s) in
  let summary := fold_left category_step transactions [] in
  sort_desc (fun a b => Qle_bool (cg_total b) (cg_total a))
    (dict_values summary).

End MockTransaction.

(** The name of a pair of category and type, as the mock writes its
    keys. *)
Definition pair_name (k : Category * TxType) : string :=
  category_name (fst k) ++ "-" ++ type_name (snd k).

(** *** The mongoose model ([Transaction], live mode)

    The collection is the list of its documents in natural order.  Schema
    setters, defaults and validators are those [transactionSchema] declares.
    A [$group] stage accumulates each group along the pipeline order and
    emits its groups in an order the server chooses. *)

Module LiveTransaction.

Definition Collection := list Transaction.

(** [new Transaction(value)]: a fresh identifier, the defaults and the
    setters of the schema. *)
Definition new (env : LiveEnv) (drawn : string) (now : Z) (data : Value)
    : Transaction :=
  {| _id := ObjectId.text drawn;
     userId := v_userId data;
     amount := v_amount data;
     description := trim (v_description data);
     category := v_category data;
     type := v_type data;
     date := match v_date data with Some d => d | None => now end;
     tags := match v_tags data with
             | Some l => map (fun s => toLowerCase env (trim s)) l
             | None => []
             end;
     isRecurring := match v_isRecurring data with
                    | Some b => b
                    | None => false
                    end;
     recurringPeriod := v_recurringPeriod data;
     createdAt := now;
     updatedAt := now |}.

(** Document validation run by [save]: required paths, the non-zero
    amount, [maxlength], and [recurringPeriod] required when
    [this.isRecurring]. *)
Definition validateSync (t : Transaction) : bool :=
  negb (String.eqb (userId t) "")
  && negb (Qeq_bool (amount t) 0)
  && negb (String.eqb (description t) "")
  && (js_length (description t) <=? 200)%nat
  && (if isRecurring t
      then match recurringPeriod t with Some _ => true | None => false end
      else true).

(** [save]: [None] stands for the rejected promise. *)
Definition save (t : Transaction) (c : Collection) : option Collection :=
  if validateSync t then Some (c ++ [t]) else None.

Definition opt_eqb (o : option string) (s : string) : bool :=
  match o with Some x => String.eqb s x | None => true end.

Definition matches (f : Filter) (t : Transaction) : bool :=
  String.eqb (userId t) (f_userId f)
  && opt_eqb (f_category f) (category_name (category t))
  && opt_eqb (f_type f) (type_name (type t))
  && match f_date f with
     | None => true
     | Some r =>
         match gte r with Some g => (g <=? date t)%Z | None => true end
         && match lte r with Some g => (date t <=? g)%Z | None => true end
     end.

(** A query under construction: the options commute, the server applies
    sort, then skip, then limit. *)
Record Query := mkQuery {
  q_filter : Filter;
  q_sortByDateDesc : bool;
  q_skipN : Z;
  q_limitN : Z
}.

Definition find (f : Filter) : Query :=
  {| q_filter := f; q_sortByDateDesc := false; q_skipN := 0;
     q_limitN := 0 |}.
Definition sort (q : Query) : Query :=
  {| q_filter := q_filter q; q_sortByDateDesc := true;
     q_skipN := q_skipN q; q_limitN := q_limitN q |}.
Definition limit (n : Z) (q : Query) : Query :=
  {| q_filter := q_filter q; q_sortByDateDesc := q_sortByDateDesc q;
     q_skipN := q_skipN q; q_limitN := n |}.
Definition skip (n : Z) (q : Query) : Query :=
  {| q_filter := q_filter q; q_sortByDateDesc := q_sortByDateDesc q;
     q_skipN := n; q_limitN := q_limitN q |}.

Definition by_date_desc : list Transaction -> list Transaction :=
  sort_desc (fun a b => (date b <=? date a)%Z).

(** [lean()] then await: a negative skip is refused by the server; a limit
    of zero means no limit and a negative one counts by magnitude. *)
Definition lean (q : Query) (c : Collection) : option (list Transaction) :=
  let docs := filter (matches (q_filter q)) c in
  let docs := if q_sortByDateDesc q then by_date_desc docs else docs in
  if (q_skipN q <? 0)%Z then None
  else
    let docs := skipn (Z.to_nat (q_skipN q)) docs in
    Some (if (q_limitN q =? 0)%Z then docs
          else firstn (Z.to_nat (Z.abs (q_limitN q))) docs).

Definition countDocuments (f : Filter) (c : Collection) : nat :=
  List.length (filter (matches f) c).

(** The document of an identifier. *)
Definition lookup (oid : string) (c : Collection) : option Transaction :=
  List.find (fun t => String.eqb (_id t) oid) c.

(** [findById(id)]: the string is cast to an identifier first, and a string
    that is none rejects the promise ([None]). *)
Definition findById (id : string) (c : Collection)
    : option (option Transaction) :=
  match ObjectId.cast id with
  | None => None
  | Some oid => Some (lookup oid c)
  end.

(** [$set] of the keys the validated value carries, through the setters;
    [timestamps] refreshes [updatedAt]. *)
Definition assign (env : LiveEnv) (now : Z) (t : Transaction) (u : Value)
    : Transaction :=
  {| _id := _id t;
     userId := v_userId u;
     amount := v_amount u;
     description := trim (v_description u);
     category := v_category u;
     type := v_type u;
     date := match v_date u with Some d => d | None => date t end;
     tags := match v_tags u with
             | Some l => map (fun s => toLowerCase env (trim s)) l
             | None => tags t
             end;
     isRecurring := match v_isRecurring u with
                    | Some b => b
                    | None => isRecurring t
                    end;
     recurringPeriod := match v_recurringPeriod u with
                        | Some p => Some p
                        | None => recurringPeriod t
                        end;
     createdAt := createdAt t;
     updatedAt := now |}.

Fixpoint replace (oid : string) (t' : Transaction) (c : Collection)
    : Collection :=
  match c with
  | [] => []
  | t :: r => if String.eqb (_id t) oid then t' :: r
              else t :: replace oid t' r
  end.

(** The update validators [runValidators: true] turns on: they look at the
    paths being set, after the setters, and run before the update is sent.
    [category], [type] and [recurringPeriod] hold names of their [enum]; the
    conditional [required] of [recurringPeriod] reads [this.isRecurring] off
    the query, which has none. *)
Definition updateValidators (u : Value) : bool :=
  negb (String.eqb (v_userId u) "")
  && negb (Qeq_bool (v_amount u) 0)
  && negb (String.eqb (trim (v_description u)) "")
  && (js_length (trim (v_description u)) <=? 200)%nat.

(** [findByIdAndUpdate(id, value, { new: true, runValidators: true })];
    [None] stands for the rejected promise. *)
Definition findByIdAndUpdate (env : LiveEnv) (now : Z) (id : string)
    (u : Value) (c : Collection)
    : option (option Transaction * Collection) :=
  match ObjectId.cast id with
  | None => None
  | Some oid =>
      if updateValidators u then
        match lookup oid c with
        | None => Some (None, c)
        | Some t =>
            let t' := assign env now t u in
            Some (Some t', replace oid t' c)
        end
      else None
  end.

Fixpoint remove (oid : string) (c : Collection) : Collection :=
  match c with
  | [] => []
  | t :: r => if String.eqb (_id t) oid then r else t :: remove oid r
  end.

Definition findByIdAndDelete (id : string) (c : Collection)
    : option (option Transaction * Collection) :=
  match ObjectId.cast id with
  | None => None
  | Some oid =>
      match lookup oid c with
      | None => Some (None, c)
      | Some t => Some (Some t, remove oid c)
      end
  end.

(** **** Aggregation stages *)

Definition stage_match (uid : string) (startDate endDate : Z)
    (c : Collection) : list Transaction :=
  filter (in_window uid startDate endDate) c.

Section Group.
Context {K : Type} (eqb : K -> K -> bool) (key : Transaction -> K).

Fixpoint distinct (seen : list K) (l : list Transaction) : list K :=
  match l with
  | [] => []
  | t :: r =>
      if existsb (eqb (key t)) seen then distinct seen r
      else key t :: distinct (key t :: seen) r
  end.

(** The groups of [$group: { _id: key, ... }]: each distinct key with its
    documents, in pipeline order. *)
Definition groups (l : list Transaction) : list (K * list Transaction) :=
  map (fun k => (k, filter (fun t => eqb (key t) k) l)) (distinct [] l).

(** The stage emits them in the order of the server's rank. *)
Definition stage_group (env : LiveEnv) (kname : K -> string)
    (l : list Transaction) : list (K * list Transaction) :=
  sort_desc (fun a b => (groupRank env (kname (fst a))
                         <=? groupRank env (kname (fst b)))%nat)
    (groups l).
End Group.

(** [{ $sum: e }] and [{ $avg: e }]. *)
Definition acc_sum (e : Transaction -> Q) (l : list Transaction) : Q :=
  fold_left Qplus (map e l) 0.
Definition acc_avg (e : Transaction -> Q) (l : list Transaction) : Q :=
  acc_sum e l / Qof_nat (List.length l).

(** What the [$group] stage of each pipeline makes of a group. *)
Definition type_group (g : TxType * list Transaction) : TypeGroup :=
  {| tg_id := fst g;
     total := acc_sum amount (snd g);
     count := List.length (snd g);
     avgAmount := acc_avg amount (snd g) |}.

Definition category_group (g : (Category * TxType) * list Transaction)
    : CategoryGroup :=
  {| cg_id := fst g;
     cg_total := acc_sum amount (snd g);
     cg_count := List.length (snd g) |}.

Definition top_category (g : Category * list Transaction) : TopCategory :=
  {| tc_id := fst g;
     tc_count := List.length (snd g);
     total_amount := acc_sum (fun t => Qabs (amount t)) (snd g) |}.

(** The pipeline of [getFinancialSummary]. *)
Definition financialPipeline (env : LiveEnv) (uid : string)
    (startDate endDate : Z) (c : Collection) : list TypeGroup :=
  map type_group
      (stage_group TxType_eqb type env type_name
         (stage_match uid startDate endDate c)).

Definition pair_eqb (a b : Category * TxType) : bool :=
  Category_eqb (fst a) (fst b) && TxType_eqb (snd a) (snd b).

(** The pipeline of [getCategorySummary]. *)
Definition categoryPipeline (env : LiveEnv) (uid : string)
    (startDate endDate : Z) (c : Collection) : list CategoryGroup :=
  sort_desc (fun a b => Qle_bool (cg_total b) (cg_total a))
    (map category_group
         (stage_group pair_eqb (fun t => (category t, type t)) env pair_name
            (stage_match uid startDate endDate c))).

(** The pipeline GET /user/:userId/categories hands to [aggregate]. *)
Definition topCategoriesPipeline (env : LiveEnv) (uid : string)
    (startDate endDate : Z) (c : Collection) : list TopCategory :=
  firstn 10
    (sort_desc (fun a b => (tc_count b <=? tc_count a)%nat)
       (map top_category
            (stage_group Category_eqb category env category_name
               (stage_match uid startDate endDate c)))).

End LiveTransaction.

(** ** The transaction routes (routes/transactionRoutes.js) *)

(** Both stores of the process; a mode touches only its own. *)
Record World := mkWorld {
  collection : LiveTransaction.Collection;
  mockTransactions : MockTransaction.Store
}.

Definition with_collection (c : LiveTransaction.Collection) (w : World) :=
  {| collection := c; mockTransactions := mockTransactions w |}.
Definition with_mock (s : MockTransaction.Store) (w : World) :=
  {| collection := collection w; mockTransactions := s |}.

(** The documents a mode serves, in storage order. *)
Definition documents (m : Mode) (w : World) : list Transaction :=
  match m with
  | Live => collection w
  | Fallback => dict_values (mockTransactions w)
  end.

(** HTTP outcomes: 200, 201, 400, 404, 409 and 500. *)
Inductive Response (A : Type) :=
  | Ok (a : A)
  | Created (a : A)
  | BadRequest (e : ValidationError)
  | NotFound
  | Conflict
  | InternalError.
Arguments Ok {A} a.
Arguments Created {A} a.
Arguments BadRequest {A} e.
Arguments NotFound {A}.
Arguments Conflict {A}.
Arguments InternalError {A}.

Inductive Model := Mongoose | Mock.

(** Modelled from the spec: the end of models/Transaction.js, with its
    [module.exports], is not among the sources, and the routes bind both
    [Transaction] and [MockTransaction] to that one export.  The
    specification has every operation issued against a facade that
    dispatches to the native path of the live store or to the matching
    emulator, the mode being fixed at start-up (sections 2 and 4.1): the
    export is the mongoose model in live mode and the [MockTransaction]
    class in fallback mode. *)
Definition Transaction_export (m : Mode) : Model :=
  match m with Live => Mongoose | Fallback => Mock end.

(** The identifier a new document gets from what was drawn: the mock uses
    the UUID as it is. *)
Definition new_id (m : Mode) (drawn : string) : string :=
  match Transaction_export m with
  | Mongoose => ObjectId.text drawn
  | Mock => drawn
  end.

(** [new Transaction(value)] followed by [save()]; [None] is the rejected
    promise. *)
Definition Transaction_create (m : Mode) (env : LiveEnv) (drawn : string)
    (now : Z) (value : Value) (w : World) : option (Transaction * World) :=
  match Transaction_export m with
  | Mongoose =>
      let transaction := LiveTransaction.new env drawn now value in
      match LiveTransaction.save transaction (collection w) with
      | Some c => Some (transaction, with_collection c w)
      | None => None
      end
  | Mock =>
      let transaction := MockTransaction.new drawn now value in
      Some (transaction,
            with_mock (MockTransaction.save transaction (mockTransactions w))
              w)
  end.

(** POST /.  Both branches of [if (shouldUseMock())] instantiate the export
    and answer alike; a rejected [save] lands in the [catch] block. *)
Definition createTransaction (m : Mode) (env : LiveEnv) (drawn : string)
    (now : Z) (b : Body) (w : World) : Response Transaction * World :=
  match transactionSchema_validate b with
  | inl e => (BadRequest e, w)
  | inr value =>
      let value := adjustAmount value in
      if shouldUseMock m then
        match Transaction_create m env drawn now value w with
        | Some (transaction, w') => (Created transaction, w')
        | None => (InternalError, w)
        end
      else
        match Transaction_create m env drawn now value w with
        | Some (transaction, w') => (Created transaction, w')
        | None => (InternalError, w)
        end
  end.

Definition Transaction_findByIdAndUpdate (m : Mode) (env : LiveEnv)
    (now : Z) (id : string) (value : Value) (w : World)
    : option (option Transaction * World) :=
  match Transaction_export m with
  | Mongoose =>
      match LiveTransaction.findByIdAndUpdate env now id value
              (collection w) with
      | Some (r, c) => Some (r, with_collection c w)
      | None => None
      end
  | Mock =>
      let (r, s) := MockTransaction.findByIdAndUpdate now id value
                      (mockTransactions w) in
      Some (r, with_mock s w)
  end.

(** PUT /:id. *)
Definition updateTransaction (m : Mode) (env : LiveEnv) (now : Z)
    (id : string) (b : Body) (w : World) : Response Transaction * World :=
  match transactionSchema_validate b with
  | inl e => (BadRequest e, w)
  | inr value =>
      let value := adjustAmount value in
      match Transaction_findByIdAndUpdate m env now id value w with
      | None => (InternalError, w)
      | Some (Some t, w') => (Ok t, w')
      | Some (None, _) => (NotFound, w)
      end
  end.

Definition Transaction_findById (m : Mode) (id : string) (w : World)
    : option (option Transaction) :=
  match Transaction_export m with
  | Mongoose => LiveTransaction.findById id (collection w)
  | Mock => Some (MockTransaction.findById id (mockTransactions w))
  end.

(** GET /:id. *)
Definition getTransaction (m : Mode) (id : string) (w : World)
    : Response Transaction :=
  match Transaction_findById m id w with
  | None => InternalError
  | Some (Some t) => Ok t
  | Some None => NotFound
  end.

Definition Transaction_findByIdAndDelete (m : Mode) (id : string)
    (w : World) : option (option Transaction * World) :=
  match Transaction_export m with
  | Mongoose =>
      match LiveTransaction.findByIdAndDelete id (collection w) with
      | Some (r, c) => Some (r, with_collection c w)
      | None => None
      end
  | Mock =>
      let (r, s) := MockTransaction.findByIdAndDelete id
                      (mockTransactions w) in
      Some (r, with_mock s w)
  end.

(** DELETE /:id. *)
Definition deleteTransaction (m : Mode) (id : string) (w : World)
    : Response unit * World :=
  match Transaction_findByIdAndDelete m id w with
  | None => (InternalError, w)
  | Some (Some _, w') => (Ok tt, w')
  | Some (None, _) => (NotFound, w)
  end.

(** What [Transaction.find(filter)] evaluates to, before any [await]: a
    mongoose query, or the promise of the [async] mock method. *)
Inductive FindResult :=
  | MongooseQuery (q : LiveTransaction.Query)
  | PromiseOf (c : MockTransaction.Chain).

Definition Transaction_find (m : Mode) (f : Filter) (w : World) : FindResult :=
  match Transaction_export m with
  | Mongoose => MongooseQuery (LiveTransaction.find f)
  | Mock => PromiseOf (MockTransaction.find f (mockTransactions w))
  end.

(** [.sort({ date: -1 })] is a method of a query; a promise has none, and
    calling it throws a [TypeError]. *)
Definition call_sort (r : FindResult) : option LiveTransaction.Query :=
  match r with
  | MongooseQuery q => Some (LiveTransaction.sort q)
  | PromiseOf _ => None
  end.

Definition Transaction_countDocuments (m : Mode) (f : Filter) (w : World)
    : nat :=
  match Transaction_export m with
  | Mongoose => LiveTransaction.countDocuments f (collection w)
  | Mock => MockTransaction.countDocuments f (mockTransactions w)
  end.

Record Page := mkPage {
  transactions : list Transaction;
  current : Z;
  pages : option Z;
  total_count : nat
}.

(** [Math.ceil(total / limit)]; not a finite number when [limit] is zero. *)
Definition ceil_div (a b : Z) : option Z :=
  if (b =? 0)%Z then None else Some (- ((- a) / b))%Z.

(** GET /user/:userId. *)
Definition listTransactions (m : Mode) (uid : string) (q : ListQuery)
    (w : World) : Response Page :=
  let page := match q_page q with Some p => p | None => 1%Z end in
  let lim := match q_limit q with Some l => l | None => 20%Z end in
  let f := build_filter uid q in
  match call_sort (Transaction_find m f w) with
  | None => InternalError
  | Some sorted =>
      match LiveTransaction.lean
              (LiveTransaction.skip ((page - 1) * lim)
                 (LiveTransaction.limit (lim * 1) sorted))
              (collection w) with
      | None => InternalError
      | Some ts =>
          let total := Transaction_countDocuments m f w in
          Ok {| transactions := ts; current := page;
                pages := ceil_div (Z.of_nat total) lim;
                total_count := total |}
      end
  end.

(** The calendar arithmetic of [Date]: the time value [d.setDate(d.getDate()
    - n)] and [d.setFullYear(d.getFullYear() - n)] compute, on epoch
    milliseconds. *)
Record Calendar := mkCalendar {
  daysBefore : Z -> Z -> Z;
  yearsBefore : Z -> Z -> Z
}.

(** A value of [req.query]: a string, or an array of strings when the key
    is repeated. *)
Inductive QueryParam :=
  | PString (s : string)
  | PArray (l : list string).

Definition periodStart (cal : Calendar) (period : string) (endDate : Z) : Z :=
  if String.eqb period "7d" then daysBefore cal 7 endDate
  else if String.eqb period "30d" then daysBefore cal 30 endDate
  else if String.eqb period "90d" then daysBefore cal 90 endDate
  else if String.eqb period "1y" then yearsBefore cal 1 endDate
  else daysBefore cal 30 endDate.

(** [switch (period)]: an array equals none of the cases. *)
Definition summaryStart (cal : Calendar) (period : QueryParam) (endDate : Z)
    : Z :=
  match period with
  | PString s => periodStart cal s endDate
  | PArray _ => daysBefore cal 30 endDate
  end.

(** The static [getFinancialSummary] / [getCategorySummary], which branch on
    [shouldUseMock()] themselves. *)
Definition getFinancialSummary (m : Mode) (env : LiveEnv) (uid : string)
    (startDate endDate : Z) (w : World) : list TypeGroup :=
  if shouldUseMock m
  then MockTransaction.getMockFinancialSummary uid startDate endDate
         (mockTransactions w)
  else LiveTransaction.financialPipeline env uid startDate endDate
         (collection w).

Definition getCategorySummary (m : Mode) (env : LiveEnv) (uid : string)
    (startDate endDate : Z) (w : World) : list CategoryGroup :=
  if shouldUseMock m
  then MockTransaction.getMockCategorySummary uid startDate endDate
         (mockTransactions w)
  else LiveTransaction.categoryPipeline env uid startDate endDate
         (collection w).

Record Summary := mkSummary {
  s_income : Q;
  s_expenses : Q;
  s_balance : Q;
  total_transactions : nat
}.

Record SummaryResponse := mkSummaryResponse {
  r_period : QueryParam;
  r_summary : Summary;
  r_categories : list CategoryGroup
}.

(** [summary.find(s => s._id === ty)?.total || 0]. *)
Definition total_or_zero (ty : TxType) (summary : list TypeGroup) : Q :=
  match List.find (fun s => TxType_eqb (tg_id s) ty) summary with
  | Some s => if Qeq_bool (total s) 0 then 0 else total s
  | None => 0
  end.

Definition summarise (summary : list TypeGroup) : Summary :=
  let income := total_or_zero income summary in
  let expenses := Qabs (total_or_zero expense summary) in
  let balance := income - expenses in
  {| s_income := income; s_expenses := expenses; s_balance := balance;
     total_transactions :=
       fold_left (fun acc s => (acc + count s)%nat) summary 0%nat |}.

(** GET /user/:userId/summary, at clock reading [now]. *)
Definition getSummary (m : Mode) (env : LiveEnv) (cal : Calendar) (now : Z)
    (uid : string) (period : option QueryParam) (w : World)
    : Response SummaryResponse :=
  let period := match period with Some p => p | None => PString "30d" end in
  let endDate := now in
  let startDate := summaryStart cal period endDate in
  let summary := getFinancialSummary m env uid startDate endDate w in
  let categorySummary := getCategorySummary m env uid startDate endDate w in
  Ok {| r_period := period; r_summary := summarise summary;
        r_categories := categorySummary |}.

(** [period.replace('d', '')]: the first [d] is taken out. *)
Fixpoint replace_d (s : string) : string :=
  match s with
  | EmptyString => EmptyString
  | String c r => if Ascii.eqb c "d" then r else String c (replace_d r)
  end.

Definition digit_value (c : ascii) : option Z :=
  if is_digit c then Some (Z.of_nat (nat_of_ascii c) - 48)%Z else None.

Definition hex_value (c : ascii) : option Z :=
  let n := Z.of_nat (nat_of_ascii c) in
  if is_digit c then Some (n - 48)%Z
  else if is_hex c
       then Some (if (n <? 97)%Z then n - 55 else n - 87)%Z
       else None.

(** The number the longest prefix of digits denotes; [acc] is [None] until
    a digit was read. *)
Fixpoint read_digits (base : Z) (value : ascii -> option Z) (s : list ascii)
    (acc : option Z) : option Z :=
  match s with
  | c :: r =>
      match value c with
      | Some d =>
          read_digits base value r
            (Some (base * match acc with Some a => a | None => 0 end + d)%Z)
      | None => acc
      end
  | [] => acc
  end.

(** [parseInt(s)]: leading white space, a sign, then the digits, read in
    base 16 after a [0x] prefix and in base 10 otherwise; [None] is [NaN].
    The integer is the one the digits denote (a double holds it exactly
    below 2^53). *)
Definition parseInt (s : string) : option Z :=
  let l := strip false (list_ascii_of_string s) in
  let (negative, l) :=
    match l with
    | c :: r => if Ascii.eqb c "-" then (true, r)
                else if Ascii.eqb c "+" then (false, r) else (false, l)
    | [] => (false, l)
    end in
  let n :=
    match l with
    | c0 :: cx :: r =>
        if Ascii.eqb c0 "0" && (Ascii.eqb cx "x" || Ascii.eqb cx "X")
        then read_digits 16 hex_value r None
        else read_digits 10 digit_value l None
    | _ => read_digits 10 digit_value l None
    end in
  option_map (fun z => if negative then (- z)%Z else z) n.

(** A time value outside the range of [Date] makes an [Invalid Date]
    ([None]). *)
Definition timeClip (t : Z) : option Z :=
  if (Z.abs t <=? 8640000000000000)%Z then Some t else None.

(** [startDate.setDate(endDate.getDate() - parseInt(period.replace('d',
    '')))]. *)
Definition categoriesStart (cal : Calendar) (period : string) (endDate : Z)
    : option Z :=
  match parseInt (replace_d period) with
  | Some n => timeClip (daysBefore cal n endDate)
  | None => None
  end.

(** [Transaction.aggregate(pipeline)] for the pipeline of the category
    ranking: the stub of the mock, or the pipeline run by the server, to
    which the driver sends the dates. *)
Definition Transaction_aggregate (m : Mode) (env : LiveEnv) (uid : string)
    (startDate : option Z) (endDate : Z) (w : World)
    : option (list TopCategory) :=
  match Transaction_export m with
  | Mongoose =>
      match (match startDate with
             | Some d => Some d
             | None => invalidDate env
             end) with
      | Some d =>
          Some (LiveTransaction.topCategoriesPipeline env uid d endDate
                  (collection w))
      | None => None
      end
  | Mock =>
      Some (MockTransaction.aggregate (uid, startDate, endDate)
              (mockTransactions w))
  end.

(** GET /user/:userId/categories: [replace] is a method of strings, and
    calling it on an array throws. *)
Definition getTopCategories (m : Mode) (env : LiveEnv) (cal : Calendar)
    (now : Z) (uid : string) (period : option QueryParam) (w : World)
    : Response (list TopCategory) :=
  match (match period with Some p => p | None => PString "30d" end) with
  | PArray _ => InternalError
  | PString period =>
      let endDate := now in
      let startDate := categoriesStart cal period endDate in
      match Transaction_aggregate m env uid startDate endDate w with
      | Some categories => Ok categories
      | None => InternalError
      end
  end.

(** ** The user service *)

(** A property of a JavaScript object holding values of type [A]: missing
    ([undefined]), [null], or a value. *)
Inductive Js (A : Type) :=
  | undefined
  | null
  | val (a : A).
Arguments undefined {A}.
Arguments null {A}.
Arguments val {A} a.

(** [a === b] on such properties. *)
Definition strict_eq {A : Type} (eqb : A -> A -> bool) (a b : Js A) : bool :=
  match a, b with
  | undefined, undefined => true
  | null, null => true
  | val x, val y => eqb x y
  | _, _ => false
  end.

(** [x || 0] on a number, [x || null] on a string or a number. *)
Definition or_zero (x : Js Q) : Q :=
  match x with
  | val q => if Qeq_bool q 0 then 0 else q
  | _ => 0
  end.
Definition or_null_string (x : Js string) : Js string :=
  match x with
  | val s => if String.eqb s "" then null else val s
  | _ => null
  end.
Definition or_null_int (x : Js Z) : Js Z :=
  match x with
  | val z => if (z =? 0)%Z then null else val z
  | _ => null
  end.

(** [String.prototype.includes]. *)
Fixpoint includes (sub s : string) : bool :=
  String.prefix sub s
  || match s with
     | EmptyString => false
     | String _ r => includes sub r
     end.

(** The named parameters a request collects through [input(name, type,
    value)]. *)
Record Inputs := mkInputs {
  in_email : Js string;
  in_password : Js string;
  in_name : Js string;
  in_age : Js Z;
  in_id : Js string;
  in_user_id : Js string;
  in_monthly_income : Js Q;
  in_financial_goals : Js string;
  in_spending_limit : Js Q
}.

(** A row of a recordset: the columns the handlers read, [undefined] where
    the result does not carry one. *)
Record Row := mkRow {
  col_id : Js string;
  col_email : Js string;
  col_password : Js string;
  col_name : Js string;
  col_age : Js Z;
  col_created_at : Js Z;
  col_is_active : Js bool;
  col_user_id : Js string;
  col_monthly_income : Js Q;
  col_financial_goals : Js string;
  col_spending_limit : Js Q;
  col_days_since_registration : Js Z
}.

(** The statements the handlers of the user routes send to the pool,
    with the query text of each. *)
Inductive Statement :=
  | SelectIdByEmail
  | InsertUser
  | InsertProfile
  | SelectLogin
  | SelectProfile
  | UpdateUser
  | UpdateProfile
  | SelectStats.

Definition queryString (s : Statement) : string :=
  match s with
  | SelectIdByEmail => "SELECT id FROM users WHERE email = @email"
  | InsertUser => "
        INSERT INTO users (email, password, name, age) 
        OUTPUT inserted.id, inserted.email, inserted.name, inserted.age, inserted.created_at
        VALUES (@email, @password, @name, @age)
      "
  | InsertProfile => "
        INSERT INTO user_profiles (user_id, monthly_income, spending_limit) 
        VALUES (@user_id, 0, 0)
      "
  | SelectLogin => "
        SELECT id, email, password, name, age, is_active 
        FROM users 
        WHERE email = @email
      "
  | SelectProfile => "
        SELECT 
          u.id, u.email, u.name, u.age, u.created_at,
          p.monthly_income, p.financial_goals, p.spending_limit
        FROM users u
        LEFT JOIN user_profiles p ON u.id = p.user_id
        WHERE u.id = @id AND u.is_active = 1
      "
  | UpdateUser => "
          UPDATE users 
          SET name = COALESCE(@name, name),
              age = COALESCE(@age, age),
              updated_at = GETDATE()
          WHERE id = @id
        "
  | UpdateProfile => "
          UPDATE user_profiles 
          SET monthly_income = COALESCE(@monthly_income, monthly_income),
              financial_goals = COALESCE(@financial_goals, financial_goals),
              spending_limit = COALESCE(@spending_limit, spending_limit),
              updated_at = GETDATE()
          WHERE user_id = @user_id
        "
  | SelectStats => "
        SELECT 
          u.name,
          u.created_at,
          p.monthly_income,
          p.spending_limit,
          DATEDIFF(day, u.created_at, GETDATE()) as days_since_registration
        FROM users u
        LEFT JOIN user_profiles p ON u.id = p.user_id
        WHERE u.id = @id AND u.is_active = 1
      "
  end.

(** *** The mock pool ([createMockPool], config/database.js) *)

Module MockPool.

Record User := mkUser {
  id : string;
  email : Js string;
  password : Js string;
  name : Js string;
  age : Js Z;
  created_at : Z;
  is_active : bool
}.

Record Profile := mkProfile {
  profile_id : string;
  user_id : Js string;
  monthly_income : Q;
  spending_limit : Q
}.

(** [mockDatabase]: two maps keyed by generated id. *)
Record Database := mkDatabase {
  users : Dict User;
  user_profiles : Dict Profile
}.

(** [{ ...user }] as a recordset row. *)
Definition row_of_user (u : User) : Row :=
  {| col_id := val (id u); col_email := email u;
     col_password := password u; col_name := name u; col_age := age u;
     col_created_at := val (created_at u);
     col_is_active := val (is_active u);
     col_user_id := undefined; col_monthly_income := undefined;
     col_financial_goals := undefined; col_spending_limit := undefined;
     col_days_since_registration := undefined |}.

Definition row_of_profile (p : Profile) : Row :=
  {| col_id := val (profile_id p); col_email := undefined;
     col_password := undefined; col_name := undefined;
     col_age := undefined; col_created_at := undefined;
     col_is_active := undefined; col_user_id := user_id p;
     col_monthly_income := val (monthly_income p);
     col_financial_goals := undefined;
     col_spending_limit := val (spending_limit p);
     col_days_since_registration := undefined |}.

(** The row of the join branch: the user spread, then the three profile
    properties; a mock profile has no [financial_goals]. *)
Definition joined_row (u : User) (p : option Profile) : Row :=
  {| col_id := val (id u); col_email := email u;
     col_password := password u; col_name := name u; col_age := age u;
     col_created_at := val (created_at u);
     col_is_active := val (is_active u);
     col_user_id := undefined;
     col_monthly_income :=
       val (or_zero (match p with
                     | Some p => val (monthly_income p)
                     | None => undefined
                     end));
     col_financial_goals := or_null_string undefined;
     col_spending_limit :=
       val (or_zero (match p with
                     | Some p => val (spending_limit p)
                     | None => undefined
                     end));
     col_days_since_registration := undefined |}.

(** [users.get(userId)]: only a string can be a key of the map. *)
Definition users_get (k : Js string) (d : Dict User) : option User :=
  match k with
  | val s => dict_get s d
  | _ => None
  end.

(** [query(queryString)] on a request holding [inputs]; [newId] is the
    UUID and [now] the date an insert branch would draw.  The branches are
    tried in the order of the source. *)
Definition query (newId : string) (now : Z) (q : string) (inputs : Inputs)
    (db : Database) : list Row * Database :=
  if includes "SELECT" q && includes "users" q && includes "email" q then
    let email_in := in_email inputs in
    match List.find (fun u => strict_eq String.eqb (email u) email_in)
            (dict_values (users db)) with
    | Some u => ([row_of_user u], db)
    | None => ([], db)
    end
  else if includes "INSERT INTO users" q then
    let user := {| id := newId; email := in_email inputs;
                   password := in_password inputs;
                   name := in_name inputs; age := in_age inputs;
                   created_at := now; is_active := true |} in
    ([row_of_user user],
     {| users := dict_set newId user (users db);
        user_profiles := user_profiles db |})
  else if includes "INSERT INTO user_profiles" q then
    let profile := {| profile_id := newId;
                      user_id := in_user_id inputs;
                      monthly_income := or_zero (in_monthly_income inputs);
                      spending_limit :=
                        or_zero (in_spending_limit inputs) |} in
    ([row_of_profile profile],
     {| users := users db;
        user_profiles := dict_set newId profile (user_profiles db) |})
  else if includes "SELECT" q && includes "user_profiles" q then
    let userId := in_id inputs in
    let user := users_get userId (users db) in
    let profile :=
      List.find (fun p => strict_eq String.eqb (user_id p) userId)
        (dict_values (user_profiles db)) in
    match user with
    | Some u => ([joined_row u profile], db)
    | None => ([], db)
    end
  else ([], db).

End MockPool.

(** *** The live pool: the tables of [createTables] and the relational
    meaning of each statement.

    A parameter is bound with the type the handler names, and a value the
    type does not hold makes the request throw; a column holds what its
    declared type holds; strings are compared under the collation of the
    database, given by the key it compares them by; a constraint violation
    makes the statement throw ([None]). *)

(** The identifiers of the relational store: sixteen bytes, written as
    8-4-4-4-12 hexadecimal digits, which the driver returns in upper
    case. *)
Module Guid.

Definition hyphen (l : list ascii) : list ascii :=
  firstn 8 l ++ "-"%char :: firstn 4 (skipn 8 l)
  ++ "-"%char :: firstn 4 (skipn 12 l)
  ++ "-"%char :: firstn 4 (skipn 16 l)
  ++ "-"%char :: skipn 20 l.

(** [NEWID()] as the driver hands it back, for the bytes drawn. *)
Definition text (drawn : string) : string :=
  string_of_list_ascii
    (hyphen (map upper_ascii (flat_map byte_hex (random_bytes 16 drawn)))).

Definition is_hyphen (c : ascii) : bool := Ascii.eqb c "-".

Definition is_text (s : string) : bool :=
  let l := list_ascii_of_string s in
  (List.length l =? 36)%nat
  && forallb is_hex (firstn 8 l)
  && forallb is_hyphen (firstn 1 (skipn 8 l))
  && forallb is_hex (firstn 4 (skipn 9 l))
  && forallb is_hyphen (firstn 1 (skipn 13 l))
  && forallb is_hex (firstn 4 (skipn 14 l))
  && forallb is_hyphen (firstn 1 (skipn 18 l))
  && forallb is_hex (firstn 4 (skipn 19 l))
  && forallb is_hyphen (firstn 1 (skipn 23 l))
  && forallb is_hex (skipn 24 l).

(** Binding a string as [sql.UniqueIdentifier]: a string of that shape
    names the identifier of its digits, whatever their case; any other
    string is refused ([None]). *)
Definition cast (s : string) : option string :=
  if is_text s
  then Some (string_of_list_ascii (map upper_ascii (list_ascii_of_string s)))
  else None.

End Guid.

Module Sql.

Record UserRow := mkUserRow {
  id : string;
  email : string;
  password : string;
  name : string;
  age : option Z;
  created_at : Z;
  updated_at : Z;
  is_active : bool
}.

Record ProfileRow := mkProfileRow {
  profile_id : string;
  user_id : string;
  monthly_income : option Q;
  financial_goals : option string;
  spending_limit : option Q;
  profile_created_at : Z;
  profile_updated_at : Z
}.

Record Database := mkDatabase {
  users : list UserRow;
  user_profiles : list ProfileRow
}.

(** A parameter as the server receives it: [undefined] and [null] are
    both [NULL]. *)
Definition param {A : Type} (v : Js A) : option A :=
  match v with val a => Some a | _ => None end.

(** Binding as [sql.UniqueIdentifier], [sql.Int] and [sql.Decimal(10,2)]:
    the outer [None] is a value the type refuses. *)
Definition bind_guid (v : Js string) : option (option string) :=
  match v with
  | val s => option_map Some (Guid.cast s)
  | _ => Some None
  end.

Definition bind_int (v : Js Z) : option (option Z) :=
  match v with
  | val z => if ((- 2147483648 <=? z) && (z <=? 2147483647))%Z
             then Some (Some z) else None
  | _ => Some None
  end.

(** The hundredths of a number, nearest first and a half away from zero. *)
Definition cents (q : Q) : Z :=
  (Z.sgn (Qnum q) * Qfloor (Qabs q * 100 + (1 # 2)))%Z.

Definition bind_decimal (v : Js Q) : option (option Q) :=
  match v with
  | val q => if (Z.abs (cents q) <? 10000000000)%Z
             then Some (Some (cents q # 100)) else None
  | _ => Some None
  end.

(** A value an [NVARCHAR(255)] column cannot take. *)
Definition too_long (o : option string) : bool :=
  match o with Some s => (255 <? js_length s)%nat | None => false end.

(** A nullable column as the driver returns it. *)
Definition column {A : Type} (o : option A) : Js A :=
  match o with Some a => val a | None => null end.

Definition COALESCE {A : Type} (p : option A) (old : A) : A :=
  match p with Some a => a | None => old end.
Definition COALESCE_null {A : Type} (p old : option A) : option A :=
  match p with Some a => Some a | None => old end.

(** [WHERE email = @email], under the collation of key [key]: [NULL] equals
    nothing. *)
Definition by_email (key : string -> string) (p : option string)
    (u : UserRow) : bool :=
  match p with
  | Some e => String.eqb (key (email u)) (key e)
  | None => false
  end.
Definition by_id (p : option string) (u : UserRow) : bool :=
  match p with Some i => String.eqb (id u) i | None => false end.
Definition of_user (p : option string) (r : ProfileRow) : bool :=
  match p with Some i => String.eqb (user_id r) i | None => false end.

Definition id_row (u : UserRow) : Row :=
  {| col_id := val (id u); col_email := undefined;
     col_password := undefined; col_name := undefined;
     col_age := undefined; col_created_at := undefined;
     col_is_active := undefined; col_user_id := undefined;
     col_monthly_income := undefined; col_financial_goals := undefined;
     col_spending_limit := undefined;
     col_days_since_registration := undefined |}.

Definition login_row (u : UserRow) : Row :=
  {| col_id := val (id u); col_email := val (email u);
     col_password := val (password u); col_name := val (name u);
     col_age := column (age u); col_created_at := undefined;
     col_is_active := val (is_active u); col_user_id := undefined;
     col_monthly_income := undefined; col_financial_goals := undefined;
     col_spending_limit := undefined;
     col_days_since_registration := undefined |}.

(** [OUTPUT inserted.id, inserted.email, inserted.name, inserted.age,
    inserted.created_at]. *)
Definition inserted_row (u : UserRow) : Row :=
  {| col_id := val (id u); col_email := val (email u);
     col_password := undefined; col_name := val (name u);
     col_age := column (age u); col_created_at := val (created_at u);
     col_is_active := undefined; col_user_id := undefined;
     col_monthly_income := undefined; col_financial_goals := undefined;
     col_spending_limit := undefined;
     col_days_since_registration := undefined |}.

(** One row of [users u LEFT JOIN user_profiles p]: the profile columns
    are [NULL] when no profile row joins. *)
Definition profile_row (u : UserRow) (p : option ProfileRow) : Row :=
  {| col_id := val (id u); col_email := val (email u);
     col_password := undefined; col_name := val (name u);
     col_age := column (age u); col_created_at := val (created_at u);
     col_is_active := undefined; col_user_id := undefined;
     col_monthly_income :=
       match p with Some p => column (monthly_income p) | None => null end;
     col_financial_goals :=
       match p with Some p => column (financial_goals p) | None => null end;
     col_spending_limit :=
       match p with Some p => column (spending_limit p) | None => null end;
     col_days_since_registration := undefined |}.

Definition stats_row (days : Z) (u : UserRow) (p : option ProfileRow)
    : Row :=
  {| col_id := undefined; col_email := undefined;
     col_password := undefined; col_name := val (name u);
     col_age := undefined; col_created_at := val (created_at u);
     col_is_active := undefined; col_user_id := undefined;
     col_monthly_income :=
       match p with Some p => column (monthly_income p) | None => null end;
     col_financial_goals := undefined;
     col_spending_limit :=
       match p with Some p => column (spending_limit p) | None => null end;
     col_days_since_registration := val days |}.

(** [FROM users u LEFT JOIN user_profiles p ON u.id = p.user_id
    WHERE u.id = @id AND u.is_active = 1]. *)
Definition left_join (mk : UserRow -> option ProfileRow -> Row)
    (pid : option string) (db : Database) : list Row :=
  flat_map
    (fun u =>
       match filter (fun p => String.eqb (id u) (user_id p))
               (user_profiles db) with
       | [] => [mk u None]
       | ps => map (fun p => mk u (Some p)) ps
       end)
    (filter (fun u => by_id pid u && is_active u) (users db)).

(** [UPDATE users SET name = COALESCE(@name, name), age = COALESCE(@age,
    age), updated_at = GETDATE() WHERE id = @id], row by row. *)
Definition update_user (now : Z) (pid pname : option string)
    (page : option Z) (u : UserRow) : UserRow :=
  if by_id pid u then
    {| id := id u; email := email u; password := password u;
       name := COALESCE pname (name u);
       age := COALESCE_null page (age u);
       created_at := created_at u; updated_at := now;
       is_active := is_active u |}
  else u.

Definition update_profile (now : Z) (puser : option string)
    (pincome : option Q) (pgoals : option string) (plimit : option Q)
    (p : ProfileRow) : ProfileRow :=
  if of_user puser p then
    {| profile_id := profile_id p; user_id := user_id p;
       monthly_income := COALESCE_null pincome (monthly_income p);
       financial_goals := COALESCE_null pgoals (financial_goals p);
       spending_limit := COALESCE_null plimit (spending_limit p);
       profile_created_at := profile_created_at p;
       profile_updated_at := now |}
  else p.

(** [query] for each statement.  [key] is the comparison key of the
    collation, [newId] the bytes [NEWID()] draws, [now] the value of
    [GETDATE()], [dateDiff] the [DATEDIFF(day, _, _)] function. *)
Definition query (key : string -> string) (dateDiff : Z -> Z -> Z)
    (newId : string) (now : Z) (s : Statement) (i : Inputs) (db : Database)
    : option (list Row) * Database :=
  match s with
  | SelectIdByEmail =>
      (Some (map id_row (filter (by_email key (param (in_email i)))
                           (users db))), db)
  | SelectLogin =>
      (Some (map login_row (filter (by_email key (param (in_email i)))
                              (users db))), db)
  | InsertUser =>
      match param (in_email i), param (in_password i),
            param (in_name i), bind_int (in_age i) with
      | Some e, Some pw, Some n, Some a =>
          if too_long (Some e) || too_long (Some pw) || too_long (Some n)
             || existsb (by_email key (Some e)) (users db)
             || existsb (by_id (Some (Guid.text newId))) (users db)
          then (None, db)
          else
            let u := {| id := Guid.text newId; email := e; password := pw;
                        name := n; age := a;
                        created_at := now; updated_at := now;
                        is_active := true |} in
            (Some [inserted_row u],
             {| users := users db ++ [u];
                user_profiles := user_profiles db |})
      | _, _, _, _ => (None, db)
      end
  | InsertProfile =>
      match bind_guid (in_user_id i) with
      | Some (Some uid) =>
          if existsb (by_id (Some uid)) (users db)
             && negb (existsb (fun p => String.eqb (profile_id p)
                                          (Guid.text newId))
                        (user_profiles db))
          then
            let p := {| profile_id := Guid.text newId; user_id := uid;
                        monthly_income := Some 0;
                        financial_goals := None;
                        spending_limit := Some 0;
                        profile_created_at := now;
                        profile_updated_at := now |} in
            (Some [],
             {| users := users db;
                user_profiles := user_profiles db ++ [p] |})
          else (None, db)
      | _ => (None, db)
      end
  | SelectProfile =>
      match bind_guid (in_id i) with
      | Some pid => (Some (left_join profile_row pid db), db)
      | None => (None, db)
      end
  | SelectStats =>
      match bind_guid (in_id i) with
      | Some pid =>
          (Some (left_join
                   (fun u => stats_row (dateDiff (created_at u) now) u)
                   pid db), db)
      | None => (None, db)
      end
  | UpdateUser =>
      match bind_guid (in_id i), bind_int (in_age i) with
      | Some pid, Some page =>
          let pname := param (in_name i) in
          if too_long pname && existsb (by_id pid) (users db)
          then (None, db)
          else
            (Some [],
             {| users := map (update_user now pid pname page) (users db);
                user_profiles := user_profiles db |})
      | _, _ => (None, db)
      end
  | UpdateProfile =>
      match bind_guid (in_user_id i), bind_decimal (in_monthly_income i),
            bind_decimal (in_spending_limit i) with
      | Some puser, Some pincome, Some plimit =>
          (Some [],
           {| users := users db;
              user_profiles :=
                map (update_profile now puser pincome
                       (param (in_financial_goals i)) plimit)
                    (user_profiles db) |})
      | _, _, _ => (None, db)
      end
  end.

End Sql.

(** ** The user routes (user-service/src/server.js) *)

(** Library functions the handlers call, and the collation of the
    database. *)
Record UserEnv := mkUserEnv {
  isEmail : string -> bool;              (* Joi's [email()] rule *)
  bcrypt_hash : string -> string -> string;
                                         (* [bcrypt.hash], salt first *)
  jwt_sign : Js string -> Js string -> Z -> string;
                                         (* [jwt.sign], clock last *)
  DATEDIFF_day : Z -> Z -> Z;
  collationKey : string -> string
}.

Record UserWorld := mkUserWorld {
  sqlDatabase : Sql.Database;
  mockDatabase : MockPool.Database
}.

(** [(await getPool()).request().input(...).query(text)]: the mssql pool in
    live mode, [createMockPool()] in fallback mode.  [None] is a thrown
    error. *)
Definition pool_query (m : Mode) (env : UserEnv) (newId : string) (now : Z)
    (s : Statement) (i : Inputs) (w : UserWorld)
    : option (list Row) * UserWorld :=
  match m with
  | Live =>
      let (r, db) := Sql.query (collationKey env) (DATEDIFF_day env) newId
                       now s i (sqlDatabase w) in
      (r, {| sqlDatabase := db; mockDatabase := mockDatabase w |})
  | Fallback =>
      let (r, db) := MockPool.query newId now (queryString s) i
                       (mockDatabase w) in
      (Some r, {| sqlDatabase := sqlDatabase w; mockDatabase := db |})
  end.

Record RegisterBody := mkRegisterBody {
  reg_email : option string;
  reg_password : option string;
  reg_name : option string;
  reg_age : option Z;
  reg_unknown : list string
}.

Record Credentials := mkCredentials {
  c_email : string;
  c_password : string;
  c_name : string;
  c_age : option Z
}.

Definition min_length (key : string) (n : nat) (o : option string)
    : ValidationError + string :=
  bind (required_string key o)
    (fun s => if (n <=? js_length s)%nat then inr s
              else inl (Invalid key)).

(** [registerSchema.validate(req.body)]. *)
Definition registerSchema_validate (env : UserEnv) (b : RegisterBody)
    : ValidationError + Credentials :=
  e <- bind (required_string "email" (reg_email b))
         (fun s => if isEmail env s then inr s
                   else inl (Invalid "email")) ;;
  pw <- min_length "password" 6 (reg_password b) ;;
  n <- min_length "name" 2 (reg_name b) ;;
  a <- match reg_age b with
       | None => inr None
       | Some z => if ((13 <=? z) && (z <=? 120))%Z then inr (Some z)
                   else inl (Invalid "age")
       end ;;
  _ <- no_unknown (reg_unknown b) ;;
  inr {| c_email := e; c_password := pw; c_name := n; c_age := a |}.

Record Registered := mkRegistered {
  user_id : Js string;
  user_email : Js string;
  user_name : Js string;
  user_age : Js Z;
  token : string
}.

(** POST /register.  [userId] and [profileId] are what the two inserts
    draw for their ids, [salt] what [bcrypt.hash] draws, and [iat] the clock
    [jwt.sign] reads.  State changes made before a throw are kept: the
    statements do not run in one transaction. *)
Definition register (m : Mode) (env : UserEnv) (userId profileId : string)
    (salt : string) (now iat : Z) (b : RegisterBody) (w : UserWorld)
    : Response Registered * UserWorld :=
  match registerSchema_validate env b with
  | inl e => (BadRequest e, w)
  | inr value =>
      let sel := {| in_email := val (c_email value);
                    in_password := undefined; in_name := undefined;
                    in_age := undefined; in_id := undefined;
                    in_user_id := undefined; in_monthly_income := undefined;
                    in_financial_goals := undefined;
                    in_spending_limit := undefined |} in
      match pool_query m env userId now SelectIdByEmail sel w with
      | (None, w) => (InternalError, w)
      | (Some existingUser, w) =>
          if (0 <? List.length existingUser)%nat then (Conflict, w)
          else
            let hashedPassword := bcrypt_hash env salt (c_password value) in
            let ins := {| in_email := val (c_email value);
                          in_password := val hashedPassword;
                          in_name := val (c_name value);
                          in_age := or_null_int
                                      (match c_age value with
                                       | Some z => val z
                                       | None => undefined
                                       end);
                          in_id := undefined; in_user_id := undefined;
                          in_monthly_income := undefined;
                          in_financial_goals := undefined;
                          in_spending_limit := undefined |} in
            match pool_query m env userId now InsertUser ins w with
            | (None, w) => (InternalError, w)
            | (Some [], w) => (InternalError, w)
            | (Some (user :: _), w) =>
                let prof := {| in_email := undefined;
                               in_password := undefined;
                               in_name := undefined; in_age := undefined;
                               in_id := undefined;
                               in_user_id := col_id user;
                               in_monthly_income := undefined;
                               in_financial_goals := undefined;
                               in_spending_limit := undefined |} in
                match pool_query m env profileId now InsertProfile prof w with
                | (None, w) => (InternalError, w)
                | (Some _, w) =>
                    (Created {| user_id := col_id user;
                                user_email := col_email user;
                                user_name := col_name user;
                                user_age := col_age user;
                                token := jwt_sign env (col_id user)
                                           (col_email user) iat |}, w)
                end
            end
      end
  end.

Record ProfileFields := mkProfileFields {
  pf_monthly_income : Js Q;
  pf_financial_goals : Js string;
  pf_spending_limit : Js Q
}.

Record ProfileView := mkProfileView {
  pv_id : Js string;
  pv_email : Js string;
  pv_name : Js string;
  pv_age : Js Z;
  pv_created_at : Js Z;
  pv_profile : ProfileFields
}.

Definition with_id (id : string) : Inputs :=
  {| in_email := undefined; in_password := undefined; in_name := undefined;
     in_age := undefined; in_id := val id; in_user_id := undefined;
     in_monthly_income := undefined; in_financial_goals := undefined;
     in_spending_limit := undefined |}.

(** GET /profile/:id. *)
Definition getProfile (m : Mode) (env : UserEnv) (newId : string) (now : Z)
    (id : string) (w : UserWorld) : Response ProfileView :=
  match pool_query m env newId now SelectProfile (with_id id) w with
  | (None, _) => InternalError
  | (Some [], _) => NotFound
  | (Some (user :: _), _) =>
      Ok {| pv_id := col_id user; pv_email := col_email user;
            pv_name := col_name user; pv_age := col_age user;
            pv_created_at := col_created_at user;
            pv_profile :=
              {| pf_monthly_income := col_monthly_income user;
                 pf_financial_goals := col_financial_goals user;
                 pf_spending_limit := col_spending_limit user |} |}
  end.

(** The body of PUT /profile/:id; it is not validated. *)
Record ProfileUpdate := mkProfileUpdate {
  up_name : Js string;
  up_age : Js Z;
  up_monthly_income : Js Q;
  up_financial_goals : Js string;
  up_spending_limit : Js Q
}.

Definition truthy_name (n : Js string) : bool :=
  match n with val s => negb (String.eqb s "") | _ => false end.

Definition defined {A : Type} (x : Js A) : bool :=
  match x with undefined => false | _ => true end.

Definition touches_user (b : ProfileUpdate) : bool :=
  truthy_name (up_name b) || defined (up_age b).

Definition touches_profile (b : ProfileUpdate) : bool :=
  defined (up_monthly_income b) || defined (up_financial_goals b)
  || defined (up_spending_limit b).

(** PUT /profile/:id. *)
Definition updateProfile (m : Mode) (env : UserEnv) (newId : string)
    (now : Z) (id : string) (b : ProfileUpdate) (w : UserWorld)
    : Response unit * UserWorld :=
  let step1 :=
    if touches_user b then
      pool_query m env newId now UpdateUser
        {| in_email := undefined; in_password := undefined;
           in_name := up_name b; in_age := up_age b; in_id := val id;
           in_user_id := undefined; in_monthly_income := undefined;
           in_financial_goals := undefined;
           in_spending_limit := undefined |} w
    else (Some [], w) in
  match step1 with
  | (None, w) => (InternalError, w)
  | (Some _, w) =>
      let step2 :=
        if touches_profile b then
          pool_query m env newId now UpdateProfile
            {| in_email := undefined; in_password := undefined;
               in_name := undefined; in_age := undefined;
               in_id := undefined; in_user_id := val id;
               in_monthly_income := up_monthly_income b;
               in_financial_goals := up_financial_goals b;
               in_spending_limit := up_spending_limit b |} w
        else (Some [], w) in
      match step2 with
      | (None, w) => (InternalError, w)
      | (Some _, w) => (Ok tt, w)
      end
  end.

(** [x > 0] on a numeric column: [null] and [undefined] compare false. *)
Definition gt0 (x : Js Q) : bool :=
  match x with val q => Qgtb q 0 | _ => false end.

Definition calculateProfileCompletion (stats : Row) : Z :=
  let completion := 30%Z in
  let completion := if gt0 (col_monthly_income stats)
                    then (completion + 35)%Z else completion in
  let completion := if gt0 (col_spending_limit stats)
                    then (completion + 35)%Z else completion in
  Z.min completion 100.

Record Stats := mkStats {
  st_name : Js string;
  member_since : Js Z;
  days_active : Js Z;
  st_monthly_income : Js Q;
  st_spending_limit : Js Q;
  profile_completion : Z
}.

(** GET /stats/:id. *)
Definition getStats (m : Mode) (env : UserEnv) (newId : string) (now : Z)
    (id : string) (w : UserWorld) : Response Stats :=
  match pool_query m env newId now SelectStats (with_id id) w with
  | (None, _) => InternalError
  | (Some [], _) => NotFound
  | (Some (stats :: _), _) =>
      Ok {| st_name := col_name stats;
            member_since := col_created_at stats;
            days_active := col_days_since_registration stats;
            st_monthly_income := col_monthly_income stats;
            st_spending_limit := col_spending_limit stats;
            profile_completion := calculateProfileCompletion stats |}
  end.

(** A profile snapshot as the specification writes it. *)
Definition snapshot (monthlyIncome spendingLimit : Q) : Row :=
  {| col_id := undefined; col_email := undefined; col_password := undefined;
     col_name := undefined; col_age := undefined;
     col_created_at := undefined; col_is_active := undefined;
     col_user_id := undefined; col_monthly_income := val monthlyIncome;
     col_financial_goals := undefined;
     col_spending_limit := val spendingLimit;
     col_days_since_registration := undefined |}.

(** ** Login (POST /login, user-service/src/server.js) *)

Record LoginBody := mkLoginBody {
  login_email : option string;
  login_password : option string;
  login_unknown : list string
}.

(** [loginSchema.validate(req.body)]. *)
Definition loginSchema_validate (env : UserEnv) (b : LoginBody)
    : ValidationError + (string * string) :=
  e <- bind (required_string "email" (login_email b))
         (fun s => if isEmail env s then inr s
                   else inl (Invalid "email")) ;;
  pw <- required_string "password" (login_password b) ;;
  _ <- no_unknown (login_unknown b) ;;
  inr (e, pw).

(** The answers of the login handler: 200, 400, 401, 403 and 500. *)
Inductive LoginResponse :=
  | LoggedIn (r : Registered)
  | LoginRejected (e : ValidationError)
  | InvalidCredentials
  | AccountInactive
  | LoginFailed.

(** [!user.is_active]. *)
Definition inactive (x : Js bool) : bool :=
  match x with val true => false | _ => true end.

(** POST /login.  [compare] is [bcrypt.compare]; it throws when the stored
    hash is not a string.  [iat] is the clock [jwt.sign] reads. *)
Definition login (m : Mode) (env : UserEnv)
    (compare : string -> string -> bool) (newId : string) (now iat : Z)
    (b : LoginBody) (w : UserWorld) : LoginResponse :=
  match loginSchema_validate env b with
  | inl e => LoginRejected e
  | inr (email, password) =>
      let sel := {| in_email := val email; in_password := undefined;
                    in_name := undefined; in_age := undefined;
                    in_id := undefined; in_user_id := undefined;
                    in_monthly_income := undefined;
                    in_financial_goals := undefined;
                    in_spending_limit := undefined |} in
      match pool_query m env newId now SelectLogin sel w with
      | (None, _) => LoginFailed
      | (Some [], _) => InvalidCredentials
      | (Some (user :: _), _) =>
          if inactive (col_is_active user) then AccountInactive
          else
            match col_password user with
            | val hash =>
                if compare password hash then
                  LoggedIn {| user_id := col_id user;
                              user_email := col_email user;
                              user_name := col_name user;
                              user_age := col_age user;
                              token := jwt_sign env (col_id user)
                                         (col_email user) iat |}
                else InvalidCredentials
            | _ => LoginFailed
            end
      end
  end.

(** ** Notions used to state the properties *)

(** The sign invariant of a stored transaction. *)
Definition sign_ok (t : Transaction) : Prop :=
  (type t = income -> 0 < amount t) /\ (type t = expense -> amount t < 0).

Definition value_sign_ok (v : Value) : Prop :=
  (v_type v = income -> 0 < v_amount v)
  /\ (v_type v = expense -> v_amount v < 0).

(** The sum of a list of amounts. *)
Fixpoint Qsum (l : list Q) : Q :=
  match l with
  | [] => 0
  | x :: r => x + Qsum r
  end.

Definition amounts_of (ty : TxType) (l : list Transaction) : list Q :=
  map amount (filter (fun t => TxType_eqb (type t) ty) l).

(** The fields the aggregations read; ids and the other fields may differ
    between two stores holding the same dataset. *)
Definition facts (t : Transaction) : string * Q * Category * TxType * Z :=
  (userId t, amount t, category t, type t, date t).

(** Two stores hold the same dataset: the same facts, each as often, in
    whatever order. *)
Definition same_dataset (l1 l2 : list Transaction) : Prop :=
  Permutation (map facts l1) (map facts l2).

(** The start of the period window, in the words of the specification: the
    period is one of 7d, 30d, 90d and 1y, and any other value stands for
    30d; the window ends now. *)
Definition window_start (cal : Calendar) (period : option QueryParam)
    (now : Z) : Z :=
  match period with
  | Some (PString p) =>
      if String.eqb p "7d" then daysBefore cal 7 now
      else if String.eqb p "90d" then daysBefore cal 90 now
      else if String.eqb p "1y" then yearsBefore cal 1 now
      else daysBefore cal 30 now
  | _ => daysBefore cal 30 now
  end.

(** The transactions of a user dated within a closed window. *)
Definition of_user_within (uid : string) (from to : Z)
    (l : list Transaction) : list Transaction :=
  filter (fun t => String.eqb (userId t) uid
                   && (from <=? date t)%Z && (date t <=? to)%Z) l.

(** Two groups of the summary by type, and of the summary by category and
    type, that agree: the same key, the same count, equal numbers. *)
Definition same_type_group (a b : TypeGroup) : Prop :=
  tg_id a = tg_id b /\ count a = count b /\ total a == total b
  /\ avgAmount a == avgAmount b.

Definition same_category_group (a b : CategoryGroup) : Prop :=
  cg_id a = cg_id b /\ cg_count a = cg_count b /\ cg_total a == cg_total b.

(** Two lists hold agreeing items, up to their order. *)
Definition same_up_to_order {A : Type} (R : A -> A -> Prop)
    (l1 l2 : list A) : Prop :=
  exists l, Permutation l1 l /\ Forall2 R l l2.

(** Page [p] (from 1) of a list cut into pages of [n] items. *)
Definition page_of {A : Type} (n p : nat) (l : list A) : list A :=
  firstn n (skipn ((p - 1) * n) l).

(** Keyed accumulation, as both summaries of the mock perform it, and its
    group-wise reading: the accumulator of a key folded over the documents
    of that key. *)
Definition keyed_step {K V : Type} (kname : K -> string)
    (key : Transaction -> K) (init : K -> V) (upd : Transaction -> V -> V)
    (acc : Dict V) (t : Transaction) : Dict V :=
  MockTransaction.dict_update (kname (key t)) (upd t)
    (MockTransaction.ensure (kname (key t)) (init (key t)) acc).

Definition group_value {K V : Type} (eqb : K -> K -> bool)
    (key : Transaction -> K) (init : K -> V) (upd : Transaction -> V -> V)
    (l : list Transaction) (k : K) : V :=
  fold_left (fun g t => upd t g) (filter (fun t => eqb (key t) k) l) (init k).

(** The same request for another page. *)
Definition with_page (p : Z) (q : ListQuery) : ListQuery :=
  {| q_page := Some p; q_limit := q_limit q; q_category := q_category q;
     q_type := q_type q; q_startDate := q_startDate q;
     q_endDate := q_endDate q |}.

(** What a page request hands back. *)
Definition page_items (m : Mode) (uid : string) (q : ListQuery) (w : World)
    (p : nat) : list Transaction :=
  match listTransactions m uid (with_page (Z.of_nat p) q) w with
  | Ok pg => transactions pg
  | _ => []
  end.

(** Most recent first. *)
Definition newer_first (a b : Transaction) : Prop := (date b <= date a)%Z.

(** The predicates of a filter, one by one. *)
Definition satisfies (f : Filter) (t : Transaction) : Prop :=
  userId t = f_userId f
  /\ (forall c, f_category f = Some c -> category_name (category t) = c)
  /\ (forall c, f_type f = Some c -> type_name (type t) = c)
  /\ (forall r g, f_date f = Some r -> gte r = Some g -> (g <= date t)%Z)
  /\ (forall r g, f_date f = Some r -> lte r = Some g -> (date t <= g)%Z).

(** The stored transaction ids of a mode. *)
Definition stored_ids (m : Mode) (w : World) : list string :=
  match m with
  | Live => map _id (collection w)
  | Fallback => map fst (mockTransactions w)
  end.

(** The id a request names, as its store reads it: the document store
    reads hexadecimal digits whatever their case. *)
Definition names_id (m : Mode) (id stored : string) : Prop :=
  match m with
  | Live => ObjectId.cast id = Some stored
  | Fallback => id = stored
  end.

(** The id a new user gets from what was drawn: the mock uses the UUID as
    it is. *)
Definition new_user_id (m : Mode) (drawn : string) : string :=
  match m with
  | Live => Guid.text drawn
  | Fallback => drawn
  end.

(** Two emails the store of a mode takes for one: the mock compares
    strings, the database compares under its collation. *)
Definition same_email (m : Mode) (env : UserEnv) (a b : string) : bool :=
  match m with
  | Live => String.eqb (collationKey env a) (collationKey env b)
  | Fallback => String.eqb a b
  end.

(** Some stored user has this email. *)
Definition email_taken (m : Mode) (env : UserEnv) (e : string)
    (w : UserWorld) : bool :=
  match m with
  | Live => existsb (fun u => same_email Live env (Sql.email u) e)
              (Sql.users (sqlDatabase w))
  | Fallback =>
      existsb (fun u => match MockPool.email u with
                        | val s => same_email Fallback env s e
                        | _ => false
                        end)
        (dict_values (MockPool.users (mockDatabase w)))
  end.

(** The ids drawn for the two inserts are new to the live tables (the
    server's [NEWID()] guarantees it; the mock's maps take any key). *)
Definition ids_fresh (m : Mode) (userId profileId : string) (w : UserWorld)
    : Prop :=
  match m with
  | Live =>
      ~ In (Guid.text userId) (map Sql.id (Sql.users (sqlDatabase w)))
      /\ ~ In (Guid.text profileId)
             (map Sql.profile_id (Sql.user_profiles (sqlDatabase w)))
  | Fallback => True
  end.

(** The columns of the live [users] table hold the email, the hash and the
    name: each has at most 255 characters.  The mock stores any string. *)
Definition columns_hold (m : Mode) (env : UserEnv) (salt : string)
    (cred : Credentials) : Prop :=
  match m with
  | Live =>
      (js_length (c_email cred) <= 255)%nat
      /\ (js_length (bcrypt_hash env salt (c_password cred)) <= 255)%nat
      /\ (js_length (c_name cred) <= 255)%nat
  | Fallback => True
  end.

(** Merge on present: a field given a value takes it, a field left out or
    sent as [null] keeps what it had. *)
Definition given {A : Type} (x : Js A) (old : A) : A :=
  match x with val a => a | _ => old end.
Definition given_null {A : Type} (x : Js A) (old : option A) : option A :=
  match x with val a => Some a | _ => old end.

(** A number of hundredths nearest to [x]. *)
Definition nearest_hundredth (x v : Q) : Prop :=
  exists n : Z, v = n # 100 /\ Qabs (v - x) <= 1 # 200.

(** A decimal field given a value takes the nearest number of hundredths,
    and keeps what it had when left out or sent as [null]. *)
Definition given_decimal (x : Js Q) (old new : option Q) : Prop :=
  match x with
  | val q => exists v, new = Some v /\ nearest_hundredth q v
  | _ => new = old
  end.

(** What the typed parameters of an update hold: an [INT], a
    [DECIMAL(10,2)] (which holds what rounds to less than ten digits of
    hundredths), a string an [NVARCHAR(255)] column takes. *)
Definition is_int32 (x : Js Z) : Prop :=
  match x with
  | val z => (- 2147483648 <= z <= 2147483647)%Z
  | _ => True
  end.

Definition is_decimal_10_2 (x : Js Q) : Prop :=
  match x with
  | val q => Qabs q < 99999999995 # 1000
  | _ => True
  end.

Definition is_short (x : Js string) : Prop :=
  match x with
  | val s => (js_length s <= 255)%nat
  | _ => True
  end.

(** A row of [users] before and after PUT /profile/:id in live mode, for
    the row id the request names. *)
Definition user_updated (id : string) (now : Z) (b : ProfileUpdate)
    (u u' : Sql.UserRow) : Prop :=
  if String.eqb (Sql.id u) id && touches_user b then
    Sql.id u' = Sql.id u /\ Sql.email u' = Sql.email u
    /\ Sql.password u' = Sql.password u
    /\ Sql.created_at u' = Sql.created_at u
    /\ Sql.is_active u' = Sql.is_active u
    /\ Sql.name u' = given (up_name b) (Sql.name u)
    /\ Sql.age u' = given_null (up_age b) (Sql.age u)
    /\ Sql.updated_at u' = now
  else u' = u.

(** A row of [user_profiles] before and after. *)
Definition profile_updated (id : string) (now : Z) (b : ProfileUpdate)
    (p p' : Sql.ProfileRow) : Prop :=
  if String.eqb (Sql.user_id p) id && touches_profile b then
    Sql.profile_id p' = Sql.profile_id p /\ Sql.user_id p' = Sql.user_id p
    /\ Sql.profile_created_at p' = Sql.profile_created_at p
    /\ given_decimal (up_monthly_income b) (Sql.monthly_income p)
         (Sql.monthly_income p')
    /\ Sql.financial_goals p'
       = given_null (up_financial_goals b) (Sql.financial_goals p)
    /\ given_decimal (up_spending_limit b) (Sql.spending_limit p)
         (Sql.spending_limit p')
    /\ Sql.profile_updated_at p' = now
  else p' = p.

(** The emails of the stored users of a mode. *)
Definition stored_emails (m : Mode) (w : UserWorld) : list (Js string) :=
  match m with
  | Live => map (fun u => val (Sql.email u)) (Sql.users (sqlDatabase w))
  | Fallback => map MockPool.email
                  (dict_values (MockPool.users (mockDatabase w)))
  end.

(** Email and password hash of each stored user of a mode. *)
Definition stored_credentials (m : Mode) (w : UserWorld)
    : list (Js string * Js string) :=
  match m with
  | Live => map (fun u => (val (Sql.email u), val (Sql.password u)))
              (Sql.users (sqlDatabase w))
  | Fallback => map (fun u => (MockPool.email u, MockPool.password u))
                  (dict_values (MockPool.users (mockDatabase w)))
  end.

(** No stored profile row refers to the id a new user gets. *)
Definition no_profile_of (m : Mode) (userId : string) (w : UserWorld)
    : Prop :=
  match m with
  | Live => Forall (fun p => Sql.user_id p <> new_user_id Live userId)
              (Sql.user_profiles (sqlDatabase w))
  | Fallback => Forall (fun p => MockPool.user_id p
                                 <> val (new_user_id Fallback userId))
                  (dict_values (MockPool.user_profiles (mockDatabase w)))
  end.

(** The body a user logs in with after registering with [b]. *)
Definition login_of (b : RegisterBody) : LoginBody :=
  {| login_email := reg_email b; login_password := reg_password b;
     login_unknown := [] |}.

(** The store right after a registration answered 201. *)
Definition after_register (m : Mode) (env : UserEnv)
    (userId profileId : string) (salt : string) (now : Z)
    (cred : Credentials) (w : UserWorld) : UserWorld :=
  let age := or_null_int (match c_age cred with
                          | Some z => val z
                          | None => undefined
                          end) in
  match m with
  | Live =>
      {| sqlDatabase :=
           {| Sql.users :=
                Sql.users (sqlDatabase w)
                ++ [ {| Sql.id := Guid.text userId;
                        Sql.email := c_email cred;
                        Sql.password :=
                          bcrypt_hash env salt (c_password cred);
                        Sql.name := c_name cred; Sql.age := Sql.param age;
                        Sql.created_at := now; Sql.updated_at := now;
                        Sql.is_active := true |} ];
              Sql.user_profiles :=
                Sql.user_profiles (sqlDatabase w)
                ++ [ {| Sql.profile_id := Guid.text profileId;
                        Sql.user_id := Guid.text userId;
                        Sql.monthly_income := Some 0;
                        Sql.financial_goals := None;
                        Sql.spending_limit := Some 0;
                        Sql.profile_created_at := now;
                        Sql.profile_updated_at := now |} ] |};
         mockDatabase := mockDatabase w |}
  | Fallback =>
      {| sqlDatabase := sqlDatabase w;
         mockDatabase :=
           {| MockPool.users :=
                dict_set userId
                  {| MockPool.id := userId;
                     MockPool.email := val (c_email cred);
                     MockPool.password :=
                       val (bcrypt_hash env salt (c_password cred));
                     MockPool.name := val (c_name cred);
                     MockPool.age := age;
                     MockPool.created_at := now;
                     MockPool.is_active := true |}
                  (MockPool.users (mockDatabase w));
              MockPool.user_profiles :=
                dict_set profileId
                  {| MockPool.profile_id := profileId;
                     MockPool.user_id := val userId;
                     MockPool.monthly_income := 0;
                     MockPool.spending_limit := 0 |}
                  (MockPool.user_profiles (mockDatabase w)) |} |}
  end.

(** ** Sample data *)

Definition ascii_lowercase (s : string) : string :=
  string_of_list_ascii (map lower_ascii (list_ascii_of_string s)).

Definition sample_live : LiveEnv :=
  {| toLowerCase := ascii_lowercase;
     groupRank := String.length;
     invalidDate := Some 0%Z |}.

Definition lunch : Body :=
  {| body_userId := Some "u1"; body_amount := Some 50;
     body_description := Some "lunch"; body_category := Some "food";
     body_type := Some "expense"; body_date := None; body_tags := None;
     body_isRecurring := None; body_recurringPeriod := None;
     body_unknown := [] |}.

Definition empty_world : World :=
  {| collection := []; mockTransactions := [] |}.

Definition sample_calendar : Calendar :=
  {| daysBefore := fun n d => (d - n * 86400000)%Z;
     yearsBefore := fun n d => (d - n * 31536000000)%Z |}.

Definition lunch_doc (id : string) (day : Z) : Transaction :=
  {| _id := id; userId := "u1"; amount := - (50); description := "lunch";
     category := food; type := expense; date := day; tags := [];
     isRecurring := false; recurringPeriod := None;
     createdAt := day; updatedAt := day |}.

Definition salary_doc (id : string) (day : Z) : Transaction :=
  {| _id := id; userId := "u1"; amount := 100; description := "pay";
     category := salary; type := income; date := day; tags := [];
     isRecurring := false; recurringPeriod := None;
     createdAt := day; updatedAt := day |}.

Definition seeded : World :=
  {| collection := [lunch_doc (ObjectId.text "a") 1000];
     mockTransactions := [("uuid-1", lunch_doc "uuid-1" 1000)] |}.

(** One dataset, stored in two orders. *)
Definition reordered : World :=
  {| collection := [salary_doc (ObjectId.text "a") 1000;
                    lunch_doc (ObjectId.text "b") 1500];
     mockTransactions := [("uuid-1", lunch_doc "uuid-1" 1500);
                          ("uuid-2", salary_doc "uuid-2" 1000)] |}.

Definition first_of_one : ListQuery :=
  {| q_page := Some 1%Z; q_limit := Some 1%Z; q_category := None;
     q_type := None; q_startDate := None; q_endDate := None |}.

Definition two_days (m : Mode) : World :=
  match m with
  | Live =>
      {| collection := [lunch_doc (ObjectId.text "a") 1;
                        lunch_doc (ObjectId.text "b") 2];
         mockTransactions := [] |}
  | Fallback =>
      {| collection := [];
         mockTransactions := [("a", lunch_doc "a" 1);
                              ("b", lunch_doc "b" 2)] |}
  end.

Definition gym : Body :=
  {| body_userId := Some "u1"; body_amount := Some 30;
     body_description := Some "gym"; body_category := Some "health";
     body_type := Some "expense"; body_date := None; body_tags := None;
     body_isRecurring := Some true; body_recurringPeriod := None;
     body_unknown := [] |}.

Definition sample_env : UserEnv :=
  {| isEmail := includes "@";
     bcrypt_hash := fun salt pw => String.append salt pw;
     jwt_sign := fun _ _ _ => "token";
     DATEDIFF_day := fun a b => ((b - a) / 86400000)%Z;
     collationKey := ascii_lowercase |}.

Definition ann : RegisterBody :=
  {| reg_email := Some "ann@example.org"; reg_password := Some "secret";
     reg_name := Some "Ann"; reg_age := None; reg_unknown := [] |}.

(** Ann's email in capitals. *)
Definition ANN : RegisterBody :=
  {| reg_email := Some "ANN@example.org"; reg_password := Some "secret";
     reg_name := Some "Ann"; reg_age := None; reg_unknown := [] |}.

Definition no_users : UserWorld :=
  {| sqlDatabase := {| Sql.users := []; Sql.user_profiles := [] |};
     mockDatabase := {| MockPool.users := [];
                        MockPool.user_profiles := [] |} |}.

Definition ann_registered (m : Mode) : UserWorld :=
  snd (register m sample_env "u1" "p1" "$2a$10$" 5 5 ann no_users).

Definition rename : ProfileUpdate :=
  {| up_name := val "Bob"; up_age := undefined;
     up_monthly_income := val 2500; up_financial_goals := undefined;
     up_spending_limit := undefined |}.

Definition ann_without_profile : UserWorld :=
  {| sqlDatabase :=
       {| Sql.users := [ {| Sql.id := Guid.text "u1";
                            Sql.email := "ann@example.org";
                            Sql.password := "$2a$10$secret";
                            Sql.name := "Ann"; Sql.age := None;
                            Sql.created_at := 5; Sql.updated_at := 5;
                            Sql.is_active := true |} ];
          Sql.user_profiles := [] |};
     mockDatabase := {| MockPool.users := [];
                        MockPool.user_profiles := [] |} |}.

(** A [bcrypt.compare] for the sample hash: the hash ends with the
    password. *)
Definition sample_compare (pw h : string) : bool :=
  String.eqb pw
    (substring (String.length h - String.length pw) (String.length pw) h).

(** * Properties *)

(** ** Numbers *)

Lemma Qltb_lt (x y : Q) : Qltb x y = true <-> (x < y)%Q.
Proof.
  unfold Qltb. rewrite negb_true_iff. split; intro H.
  - apply Qnot_le_lt. intro Hle. apply Qle_bool_iff in Hle. congruence.
  - destruct (Qle_bool y x) eqn:E; trivial.
    apply Qle_bool_iff in E. exfalso. apply (Qlt_not_le _ _ H E).
Qed.

Lemma Qltb_ge (x y : Q) : Qltb x y = false <-> (y <= x)%Q.
Proof.
  unfold Qltb. rewrite negb_false_iff. apply Qle_bool_iff.
Qed.

Lemma TxType_eqb_eq (a b : TxType) : TxType_eqb a b = true <-> a = b.
Proof. destruct a, b; simpl; split; congruence. Qed.

(** ** Amount normalisation *)

Lemma adjustAmount_type (v : Value) : v_type (adjustAmount v) = v_type v.
Proof.
  unfold adjustAmount.
  destruct (TxType_eqb (v_type v) expense && Qgtb (v_amount v) 0); trivial.
  destruct (TxType_eqb (v_type v) income && Qltb (v_amount v) 0); trivial.
Qed.

Lemma adjustAmount_sign (v : Value) :
  ~ v_amount v == 0 -> value_sign_ok (adjustAmount v).
Proof.
  intros Hnz. unfold adjustAmount, value_sign_ok, Qgtb.
  destruct (v_type v) eqn:Ety; simpl.
  - destruct (Qltb (v_amount v) 0) eqn:E; simpl; rewrite Ety.
    + apply Qltb_lt in E. split; [intros _ | discriminate].
      apply Qlt_le_trans with (- v_amount v); [lra|].
      rewrite <- Qabs_opp. apply Qle_Qabs.
    + apply Qltb_ge in E. split; [intros _ | discriminate]. lra.
  - destruct (Qltb 0 (v_amount v)) eqn:E; simpl; rewrite Ety.
    + apply Qltb_lt in E. split; [discriminate | intros _].
      assert (0 < Qabs (v_amount v)).
      { apply Qlt_le_trans with (v_amount v); trivial. apply Qle_Qabs. }
      lra.
    + apply Qltb_ge in E. split; [discriminate | intros _]. lra.
Qed.

Lemma adjustAmount_fixed (v : Value) :
  value_sign_ok v -> adjustAmount v = v.
Proof.
  intros [Hi He]. unfold adjustAmount, Qgtb.
  destruct (v_type v) eqn:Ety; simpl.
  - specialize (Hi eq_refl).
    destruct (Qltb (v_amount v) 0) eqn:E; trivial.
    apply Qltb_lt in E. lra.
  - specialize (He eq_refl).
    destruct (Qltb 0 (v_amount v)) eqn:E; trivial.
    apply Qltb_lt in E. lra.
Qed.

(** ** What an accepted body holds *)

Lemma valid_of_name {A : Type} (name : A -> string) (all : list A) s a :
  valid_of name all s = Some a -> name a = s.
Proof.
  unfold valid_of. intros H. apply find_some in H.
  now apply String.eqb_eq.
Qed.

Lemma required_string_inr key o s :
  required_string key o = inr s <-> o = Some s /\ s <> "".
Proof.
  unfold required_string. destruct o as [x|].
  - destruct (String.eqb x "") eqn:E.
    + apply String.eqb_eq in E. split; [discriminate|].
      intros [H Hn]. injection H as ->. contradiction.
    + apply String.eqb_neq in E. split.
      * intros H. injection H as <-. now split.
      * intros [H _]. now injection H as ->.
  - split; [discriminate | intros [H _]; discriminate].
Qed.

Lemma string_items_inr key o tgs :
  string_items key o = inr tgs -> tgs = o.
Proof.
  unfold string_items. destruct o as [l|]; [|congruence].
  destruct (forallb _ l); [congruence | discriminate].
Qed.

Lemma transactionSchema_fields (b : Body) (v : Value) :
  transactionSchema_validate b = inr v ->
  body_userId b = Some (v_userId v) /\ v_userId v <> ""
  /\ body_amount b = Some (v_amount v) /\ ~ v_amount v == 0
  /\ body_description b = Some (v_description v)
  /\ v_description v <> ""
  /\ (js_length (v_description v) <= 200)%nat
  /\ body_category b = Some (category_name (v_category v))
  /\ body_type b = Some (type_name (v_type v))
  /\ body_recurringPeriod b = option_map period_name (v_recurringPeriod v)
  /\ v_date v = body_date b /\ v_tags v = body_tags b
  /\ v_isRecurring v = body_isRecurring b
  /\ safe_number (v_amount v) = true
  /\ body_unknown b = [].
Proof.
  unfold transactionSchema_validate, bind.
  destruct (required_string "userId" (body_userId b)) as [|uid] eqn:Eu;
    [discriminate|].
  apply required_string_inr in Eu. destruct Eu as [Eu Hu].
  destruct (body_amount b) as [a|]; [|discriminate].
  destruct (Qeq_bool a 0) eqn:Ea; [discriminate|].
  destruct (safe_number a) eqn:Esafe; [|discriminate]. cbn [negb orb].
  destruct (required_string "description" (body_description b))
    as [|d] eqn:Ed; [discriminate|].
  apply required_string_inr in Ed. destruct Ed as [Ed Hd].
  destruct (js_length d <=? 200)%nat eqn:El; [|discriminate].
  apply Nat.leb_le in El. apply Qeq_bool_neq in Ea.
  unfold required_valid, optional_valid, no_unknown.
  destruct (body_category b) as [c|]; [|discriminate].
  destruct (valid_of category_name all_categories c) as [cat|] eqn:Ec;
    [|discriminate].
  destruct (body_type b) as [t|]; [|discriminate].
  destruct (valid_of type_name all_types t) as [ty|] eqn:Et;
    [|discriminate].
  apply valid_of_name in Ec, Et.
  destruct (string_items "tags" (body_tags b)) as [|tgs] eqn:Etg;
    [discriminate|].
  apply string_items_inr in Etg.
  destruct (body_recurringPeriod b) as [p|].
  - destruct (valid_of period_name all_periods p) as [per|] eqn:Ep;
      [|discriminate].
    apply valid_of_name in Ep.
    destruct (body_unknown b); [|discriminate].
    intros H. injection H as <-. simpl. subst.
    repeat match goal with |- _ /\ _ => split end; trivial.
  - destruct (body_unknown b); [|discriminate].
    intros H. injection H as <-. simpl. subst.
    repeat match goal with |- _ /\ _ => split end; trivial.
Qed.

Lemma validate_amount_nonzero (b : Body) (v : Value) :
  transactionSchema_validate b = inr v -> ~ v_amount v == 0.
Proof.
  intros H. now apply transactionSchema_fields in H.
Qed.

(** ** Dictionaries *)

Lemma dict_set_In {V : Type} (k : string) (v : V) (d : Dict V) :
  In v (dict_values (dict_set k v d)).
Proof.
  induction d as [|[k' v'] r IH]; simpl.
  - now left.
  - destruct (String.eqb k' k); simpl; [now left | now right].
Qed.

Lemma replace_In (id : string) (t' : Transaction) c :
  LiveTransaction.lookup id c <> None ->
  In t' (LiveTransaction.replace id t' c).
Proof.
  unfold LiveTransaction.lookup.
  induction c as [|t r IH]; simpl; intros H.
  - congruence.
  - destruct (String.eqb (_id t) id); simpl; [now left | right; now apply IH].
Qed.

(** ** Stored transactions keep the sign of their type *)

Lemma create_stores (m : Mode) env id now b w t w' :
  createTransaction m env id now b w = (Created t, w') ->
  exists v, transactionSchema_validate b = inr v
            /\ amount t = v_amount (adjustAmount v)
            /\ type t = v_type v
            /\ In t (documents m w').
Proof.
  unfold createTransaction.
  destruct (transactionSchema_validate b) as [e|v]; [discriminate|].
  unfold Transaction_create.
  destruct m; cbn [shouldUseMock Transaction_export].
  - unfold LiveTransaction.save.
    destruct (LiveTransaction.validateSync _); [|discriminate].
    intros H. injection H as <- <-. exists v. simpl.
    rewrite adjustAmount_type. repeat split; trivial.
    apply in_or_app. right. now left.
  - intros H. injection H as <- <-. exists v. simpl.
    rewrite adjustAmount_type. repeat split; trivial.
    apply dict_set_In.
Qed.

Lemma update_stores (m : Mode) env now id b w t w' :
  updateTransaction m env now id b w = (Ok t, w') ->
  exists v, transactionSchema_validate b = inr v
            /\ amount t = v_amount (adjustAmount v)
            /\ type t = v_type v
            /\ In t (documents m w').
Proof.
  unfold updateTransaction.
  destruct (transactionSchema_validate b) as [e|v]; [discriminate|].
  unfold Transaction_findByIdAndUpdate.
  destruct m; cbn [Transaction_export].
  - unfold LiveTransaction.findByIdAndUpdate.
    destruct (ObjectId.cast id) as [oid|]; [|discriminate].
    destruct (LiveTransaction.updateValidators _); [|discriminate].
    destruct (LiveTransaction.lookup oid (collection w)) eqn:E;
      [|discriminate].
    intros H. injection H as <- <-. exists v. simpl.
    rewrite adjustAmount_type. repeat split; trivial.
    apply replace_In. congruence.
  - unfold MockTransaction.findByIdAndUpdate.
    destruct (dict_get id (mockTransactions w)) eqn:E; [|discriminate].
    intros H. injection H as <- <-. exists v. simpl.
    rewrite adjustAmount_type. repeat split; trivial.
    apply dict_set_In.
Qed.

Lemma sign_ok_of_value (t : Transaction) (v : Value) :
  amount t = v_amount (adjustAmount v) -> type t = v_type v ->
  ~ v_amount v == 0 ->
  sign_ok t
  /\ (v_type v = expense -> 0 < v_amount v -> amount t == - v_amount v)
  /\ (v_type v = income -> v_amount v < 0 -> amount t == Qabs (v_amount v)).
Proof.
  intros Ha Ht Hnz.
  destruct (adjustAmount_sign v Hnz) as [Hi He].
  rewrite adjustAmount_type in Hi, He.
  split; [|split].
  - unfold sign_ok. rewrite Ha, Ht. now split.
  - intros Hty Hpos. rewrite Ha. unfold adjustAmount, Qgtb.
    rewrite Hty. simpl.
    apply Qltb_lt in Hpos. rewrite Hpos. simpl.
    rewrite Qabs_pos; [reflexivity | apply Qltb_lt in Hpos; lra].
  - intros Hty Hneg. rewrite Ha. unfold adjustAmount, Qgtb.
    rewrite Hty. simpl.
    apply Qltb_lt in Hneg. rewrite Hneg. simpl. reflexivity.
Qed.

(** C2.  Whatever the mode, the record that a successful create (201) or
    update (200) stores and returns has a positive amount when its type is
    income and a negative amount when its type is expense; an expense sent
    with a positive amount is stored negated, an income sent with a negative
    amount is stored as its absolute value. *)
Theorem normalized_record_sign (m : Mode) (env : LiveEnv) (id : string)
    (now : Z) (b : Body) (w w' : World) (t : Transaction) :
  createTransaction m env id now b w = (Created t, w')
  \/ updateTransaction m env now id b w = (Ok t, w') ->
  In t (documents m w')
  /\ sign_ok t
  /\ exists v, transactionSchema_validate b = inr v
       /\ type t = v_type v
       /\ (v_type v = expense -> 0 < v_amount v -> amount t == - v_amount v)
       /\ (v_type v = income -> v_amount v < 0 ->
           amount t == Qabs (v_amount v)).
Proof.
  intros H.
  assert (exists v, transactionSchema_validate b = inr v
            /\ amount t = v_amount (adjustAmount v)
            /\ type t = v_type v
            /\ In t (documents m w')) as (v & Hv & Ha & Ht & Hin).
  { destruct H as [H|H]; [eapply create_stores | eapply update_stores];
      eassumption. }
  destruct (sign_ok_of_value t v Ha Ht (validate_amount_nonzero b v Hv))
    as (Hs & He & Hi).
  split; [trivial|]. split; [trivial|].
  exists v. repeat split; trivial.
Qed.

Lemma normalized_record_sign_witness :
  sign_ok (MockTransaction.new "t1" 0
             (adjustAmount
                {| v_userId := "u1"; v_amount := 50;
                   v_description := "lunch"; v_category := food;
                   v_type := expense; v_date := None; v_tags := None;
                   v_isRecurring := None; v_recurringPeriod := None |})).
Proof.
  apply (normalized_record_sign Fallback sample_live "t1" 0 lunch empty_world
           (snd (createTransaction Fallback sample_live "t1" 0 lunch
                   empty_world))).
  left. reflexivity.
Defined.

(** C10.  Normalising twice is the same as normalising once, on every
    validated payload; a value whose amount already has the sign of its type
    is left as it is, so the amount of a normalised transaction survives the
    re-normalisation of an update. *)
Theorem adjustAmount_idempotent (b : Body) (v : Value) :
  transactionSchema_validate b = inr v ->
  adjustAmount (adjustAmount v) = adjustAmount v
  /\ v_type (adjustAmount v) = v_type v
  /\ (value_sign_ok v -> v_amount (adjustAmount v) = v_amount v).
Proof.
  intros Hv. split; [|split].
  - apply adjustAmount_fixed, adjustAmount_sign.
    now apply (validate_amount_nonzero b).
  - apply adjustAmount_type.
  - intros Hs. now rewrite adjustAmount_fixed.
Qed.

Lemma adjustAmount_idempotent_witness :
  adjustAmount (adjustAmount
    {| v_userId := "u1"; v_amount := 50; v_description := "lunch";
       v_category := food; v_type := expense; v_date := None;
       v_tags := None; v_isRecurring := None; v_recurringPeriod := None |})
  = adjustAmount
    {| v_userId := "u1"; v_amount := 50; v_description := "lunch";
       v_category := food; v_type := expense; v_date := None;
       v_tags := None; v_isRecurring := None; v_recurringPeriod := None |}.
Proof.
  apply (adjustAmount_idempotent lunch). reflexivity.
Defined.

(** ** Profile completion *)

(** C9.  [calculateProfileCompletion] is a function of the snapshot alone;
    its value is 30, plus 35 when the monthly income is positive, plus 35
    when the spending limit is positive, capped at 100, hence an integer
    between 0 and 100; on monthly income 0 and spending limit 500 it is
    65. *)
Theorem profileCompletion_score (stats : Row) :
  (0 <= calculateProfileCompletion stats <= 100)%Z
  /\ calculateProfileCompletion stats
     = Z.min 100 (30 + (if gt0 (col_monthly_income stats) then 35 else 0)
                     + (if gt0 (col_spending_limit stats) then 35 else 0))%Z
  /\ (forall q, col_monthly_income stats = val q ->
        (gt0 (col_monthly_income stats) = true <-> 0 < q))
  /\ (forall q, col_spending_limit stats = val q ->
        (gt0 (col_spending_limit stats) = true <-> 0 < q))
  /\ calculateProfileCompletion (snapshot 0 500) = 65%Z.
Proof.
  unfold calculateProfileCompletion.
  split; [|split; [|split; [|split]]].
  - destruct (gt0 (col_monthly_income stats)),
             (gt0 (col_spending_limit stats)); lia.
  - destruct (gt0 (col_monthly_income stats)),
             (gt0 (col_spending_limit stats)); reflexivity.
  - intros q ->. simpl. unfold Qgtb. apply Qltb_lt.
  - intros q ->. simpl. unfold Qgtb. apply Qltb_lt.
  - reflexivity.
Qed.

(** ** Grouping: one pass with a keyed accumulator against group-then-fold *)

Lemma dict_set_fresh {V : Type} (k : string) (v : V) (d : Dict V) :
  dict_get k d = None -> dict_set k v d = d ++ [(k, v)].
Proof.
  induction d as [|[k' v'] r IH]; simpl; trivial.
  destruct (String.eqb k' k); [discriminate|].
  intros H. now rewrite IH.
Qed.

Lemma dict_get_last {V : Type} (k : string) (v : V) (d : Dict V) :
  dict_get k d = None -> dict_get k (d ++ [(k, v)]) = Some v.
Proof.
  induction d as [|[k' v'] r IH]; simpl.
  - now rewrite String.eqb_refl.
  - destruct (String.eqb k' k); [discriminate | exact IH].
Qed.

Lemma dict_set_last {V : Type} (k : string) (v v' : V) (d : Dict V) :
  dict_get k d = None -> dict_set k v' (d ++ [(k, v)]) = d ++ [(k, v')].
Proof.
  induction d as [|[k1 v1] r IH]; simpl.
  - now rewrite String.eqb_refl.
  - destruct (String.eqb k1 k); [discriminate|].
    intros H. now rewrite IH.
Qed.

Section GroupBy.
Context {K V : Type} (eqb : K -> K -> bool) (kname : K -> string).
Context (key : Transaction -> K) (init : K -> V).
Context (upd : Transaction -> V -> V).
Hypothesis eqb_eq : forall a b, eqb a b = true <-> a = b.
Hypothesis kname_eqb : forall a b, String.eqb (kname a) (kname b) = eqb a b.

Local Abbreviation distinct := (LiveTransaction.distinct eqb key).
Local Abbreviation value := (group_value eqb key init upd).

Lemma eqb_refl' (a : K) : eqb a a = true.
Proof using eqb_eq. now apply eqb_eq. Qed.

Lemma eqb_sym' (a b : K) : eqb a b = eqb b a.
Proof using eqb_eq.
  destruct (eqb a b) eqn:E1, (eqb b a) eqn:E2; trivial.
  - apply eqb_eq in E1. subst. rewrite eqb_refl' in E2. discriminate.
  - apply eqb_eq in E2. subst. rewrite eqb_refl' in E1. discriminate.
Qed.

Lemma existsb_eqb_In (k : K) (ks : list K) :
  existsb (eqb k) ks = true <-> In k ks.
Proof using eqb_eq.
  rewrite existsb_exists. split.
  - intros (x & Hx & E). apply eqb_eq in E. now subst.
  - intros H. exists k. split; trivial. apply eqb_refl'.
Qed.

Lemma distinct_snoc (seen : list K) (l : list Transaction) t :
  distinct seen (l ++ [t])
  = distinct seen l
    ++ (if existsb (eqb (key t)) seen
           || existsb (fun u => eqb (key t) (key u)) l
        then [] else [key t]).
Proof using eqb_eq.
  revert seen. induction l as [|u r IH]; intros seen; simpl.
  - rewrite orb_false_r. now destruct (existsb (eqb (key t)) seen).
  - destruct (existsb (eqb (key u)) seen) eqn:Eu.
    + rewrite IH. f_equal.
      destruct (eqb (key t) (key u)) eqn:Etu; simpl; trivial.
      apply eqb_eq in Etu. rewrite Etu, Eu. reflexivity.
    + simpl. rewrite IH. simpl. f_equal. f_equal.
      destruct (eqb (key t) (key u)), (existsb (eqb (key t)) seen); trivial.
Qed.

Lemma distinct_unseen (seen : list K) (l : list Transaction) k :
  In k (distinct seen l) ->
  ~ In k seen /\ exists u, In u l /\ key u = k.
Proof using eqb_eq.
  revert seen. induction l as [|u r IH]; intros seen; simpl; [intros []|].
  destruct (existsb (eqb (key u)) seen) eqn:Eu.
  - intros H. destruct (IH _ H) as (Hn & x & Hx & Ek).
    split; trivial. exists x. split; [now right | trivial].
  - intros [<-|H].
    + split; [|exists u; split; [now left | trivial]].
      intros Hin. apply existsb_eqb_In in Hin. congruence.
    + destruct (IH _ H) as (Hn & x & Hx & Ek).
      split; [|exists x; split; [now right | trivial]].
      intros Hin. apply Hn. now right.
Qed.

Lemma distinct_NoDup (seen : list K) (l : list Transaction) :
  NoDup (distinct seen l).
Proof using eqb_eq.
  revert seen. induction l as [|u r IH]; intros seen; simpl.
  - constructor.
  - destruct (existsb (eqb (key u)) seen); [apply IH|].
    constructor; [|apply IH].
    intros H. apply distinct_unseen in H. apply (proj1 H). now left.
Qed.

Lemma distinct_complete (seen : list K) (l : list Transaction) u :
  In u l -> ~ In (key u) seen -> In (key u) (distinct seen l).
Proof using eqb_eq.
  revert seen. induction l as [|x r IH]; intros seen; simpl; [intros []|].
  intros [->|Hin] Hn.
  - destruct (existsb (eqb (key u)) seen) eqn:E.
    + apply existsb_eqb_In in E. contradiction.
    + now left.
  - destruct (existsb (eqb (key x)) seen) eqn:E.
    + now apply IH.
    + destruct (eqb (key x) (key u)) eqn:Exu.
      * apply eqb_eq in Exu. rewrite Exu. now left.
      * right. apply IH; trivial.
        intros [Heq|Hs]; [|contradiction].
        rewrite Heq, eqb_refl' in Exu. discriminate.
Qed.

Lemma value_snoc (l : list Transaction) t k :
  value (l ++ [t]) k
  = if eqb (key t) k then upd t (value l k) else value l k.
Proof using eqb_eq.
  unfold group_value. rewrite filter_app. simpl.
  destruct (eqb (key t) k); simpl.
  - now rewrite fold_left_app.
  - now rewrite app_nil_r.
Qed.

Lemma value_unseen (l : list Transaction) k :
  existsb (fun u => eqb k (key u)) l = false -> value l k = init k.
Proof using eqb_eq.
  unfold group_value. intros H.
  replace (filter (fun t => eqb (key t) k) l) with (@nil Transaction);
    trivial.
  symmetry. induction l as [|u r IH]; simpl in *; trivial.
  apply orb_false_iff in H. destruct H as [H1 H2].
  rewrite eqb_sym', H1. now apply IH.
Qed.

Lemma dict_get_groups (F : K -> V) (ks : list K) k :
  dict_get (kname k) (map (fun k' => (kname k', F k')) ks)
  = if existsb (eqb k) ks then Some (F k) else None.
Proof using eqb_eq kname_eqb.
  induction ks as [|k' r IH]; simpl; trivial.
  rewrite kname_eqb, (eqb_sym' k k').
  destruct (eqb k' k) eqn:E; simpl; trivial.
  apply eqb_eq in E. now subst.
Qed.

Lemma dict_set_groups (F : K -> V) (ks : list K) k v :
  NoDup ks -> In k ks ->
  dict_set (kname k) v (map (fun k' => (kname k', F k')) ks)
  = map (fun k' => (kname k', if eqb k' k then v else F k')) ks.
Proof using eqb_eq kname_eqb.
  induction ks as [|k' r IH]; simpl; [intros _ []|].
  intros Hnd Hin. inversion Hnd as [|? ? Hnotin Hnd']; subst.
  rewrite kname_eqb. destruct (eqb k' k) eqn:E.
  - apply eqb_eq in E. subst k'. f_equal.
    apply map_ext_in. intros a Ha.
    destruct (eqb a k) eqn:Ea; trivial.
    apply eqb_eq in Ea. now subst.
  - f_equal. apply IH; trivial.
    destruct Hin as [->|Hin]; trivial.
    rewrite eqb_refl' in E. discriminate.
Qed.

(** The accumulator after one pass holds, for each distinct key in order of
    first appearance, the fold of the update over the documents of that
    key. *)
Lemma keyed_fold_groups (l : list Transaction) :
  fold_left (keyed_step kname key init upd) l []
  = map (fun k => (kname k, value l k)) (distinct [] l).
Proof using eqb_eq kname_eqb.
  induction l as [|t l IH] using rev_ind; trivial.
  rewrite fold_left_app. simpl. rewrite IH, distinct_snoc. simpl.
  unfold keyed_step, MockTransaction.ensure, MockTransaction.dict_update.
  rewrite dict_get_groups.
  destruct (existsb (fun u => eqb (key t) (key u)) l) eqn:Eold.
  - assert (In (key t) (distinct [] l)) as Hin.
    { apply existsb_exists in Eold. destruct Eold as (u & Hu & E).
      apply eqb_eq in E. rewrite E.
      apply distinct_complete; trivial. intros []. }
    pose proof Hin as Hex. apply existsb_eqb_In in Hex. rewrite Hex.
    rewrite dict_get_groups, Hex, app_nil_r.
    rewrite dict_set_groups; trivial; [|apply distinct_NoDup].
    apply map_ext. intros k. rewrite value_snoc, (eqb_sym' k).
    destruct (eqb (key t) k) eqn:E; trivial.
    apply eqb_eq in E. now subst.
  - assert (existsb (eqb (key t)) (distinct [] l) = false) as Hex.
    { destruct (existsb (eqb (key t)) (distinct [] l)) eqn:E; trivial.
      apply existsb_eqb_In, distinct_unseen in E.
      destruct E as (_ & u & Hu & Ek).
      assert (existsb (fun u => eqb (key t) (key u)) l = true); [|congruence].
      apply existsb_exists. exists u. split; trivial.
      rewrite Ek. apply eqb_refl'. }
    rewrite Hex.
    assert (dict_get (kname (key t))
              (map (fun k => (kname k, value l k)) (distinct [] l)) = None)
      as Hnone by now rewrite dict_get_groups, Hex.
    rewrite dict_set_fresh; trivial.
    rewrite dict_get_last; trivial.
    rewrite dict_set_last; trivial.
    rewrite map_app. simpl. f_equal.
    + apply map_ext_in. intros k Hk. rewrite value_snoc.
      destruct (eqb (key t) k) eqn:E; trivial.
      apply eqb_eq in E. subst k.
      apply existsb_eqb_In in Hk. congruence.
    + rewrite value_snoc, eqb_refl'. now rewrite value_unseen.
Qed.

Lemma filter_unseen (l : list Transaction) k :
  existsb (fun u => eqb k (key u)) l = false ->
  filter (fun t => eqb (key t) k) l = [].
Proof using eqb_eq.
  induction l as [|u r IH]; simpl; trivial.
  intros H. apply orb_false_iff in H. destruct H as [H1 H2].
  rewrite eqb_sym', H1. now apply IH.
Qed.

Lemma distinct_present (l : list Transaction) k :
  existsb (eqb k) (distinct [] l) = existsb (fun u => eqb k (key u)) l.
Proof using eqb_eq.
  destruct (existsb (fun u => eqb k (key u)) l) eqn:E.
  - apply existsb_exists in E. destruct E as (u & Hu & E).
    apply eqb_eq in E. subst k. apply existsb_eqb_In.
    apply distinct_complete; trivial. intros [].
  - destruct (existsb (eqb k) (distinct [] l)) eqn:E'; trivial.
    apply existsb_eqb_In, distinct_unseen in E'.
    destruct E' as (_ & u & Hu & Ek).
    assert (existsb (fun u => eqb k (key u)) l = true); [|congruence].
    apply existsb_exists. exists u. split; trivial.
    rewrite Ek. apply eqb_refl'.
Qed.

Lemma count_once (x : K) (ks : list K) :
  NoDup ks ->
  list_sum (map (fun k => if eqb x k then 1 else 0)%nat ks)
  = if existsb (eqb x) ks then 1%nat else 0%nat.
Proof using eqb_eq.
  induction ks as [|k r IH]; simpl; trivial.
  intros Hnd. inversion Hnd as [|? ? Hnotin Hnd']; subst.
  rewrite (IH Hnd'). destruct (eqb x k) eqn:E; simpl; trivial.
  apply eqb_eq in E. subst k.
  destruct (existsb (eqb x) r) eqn:Er; trivial.
  apply existsb_eqb_In in Er. contradiction.
Qed.

(** The groups partition the documents. *)
Lemma distinct_partition (l : list Transaction) :
  list_sum (map (fun k => List.length (filter (fun t => eqb (key t) k) l))
              (distinct [] l))
  = List.length l.
Proof using eqb_eq.
  induction l as [|t l IH] using rev_ind; trivial.
  rewrite distinct_snoc, length_app, map_app, list_sum_app. simpl.
  rewrite <- IH.
  assert (forall ks,
    list_sum (map (fun k => List.length
                    (filter (fun u => eqb (key u) k) (l ++ [t]))) ks)
    = (list_sum (map (fun k => List.length
                    (filter (fun u => eqb (key u) k) l)) ks)
       + list_sum (map (fun k => if eqb (key t) k then 1 else 0) ks))%nat)
    as Hsplit.
  { induction ks as [|k r IHr]; simpl; trivial.
    rewrite IHr, filter_app, length_app. simpl.
    destruct (eqb (key t) k); simpl; lia. }
  rewrite !Hsplit, count_once by apply distinct_NoDup.
  rewrite distinct_present.
  destruct (existsb (fun u => eqb (key t) (key u)) l) eqn:E; simpl.
  - lia.
  - rewrite (filter_unseen _ _ E), eqb_refl'. simpl. lia.
Qed.

Lemma find_group {G : Type} (gid : G -> K) (F : K -> G) (ks : list K) k :
  (forall k', gid (F k') = k') ->
  List.find (fun g => eqb (gid g) k) (map F ks)
  = if existsb (eqb k) ks then Some (F k) else None.
Proof using eqb_eq.
  intros Hid. induction ks as [|k' r IH]; simpl; trivial.
  rewrite Hid, (eqb_sym' k k').
  destruct (eqb k' k) eqn:E; simpl; trivial.
  apply eqb_eq in E. now subst.
Qed.

End GroupBy.

(** ** Sorting keeps the items *)

Lemma insert_desc_perm {A : Type} (geb : A -> A -> bool) x l :
  Permutation (x :: l) (insert_desc geb x l).
Proof.
  induction l as [|y r IH]; simpl; trivial.
  destruct (geb x y); trivial.
  apply perm_trans with (y :: x :: r); [apply perm_swap|].
  now apply perm_skip.
Qed.

Lemma sort_desc_perm {A : Type} (geb : A -> A -> bool) l :
  Permutation l (sort_desc geb l).
Proof.
  induction l as [|x r IH]; simpl; trivial.
  apply perm_trans with (x :: sort_desc geb r).
  - now apply perm_skip.
  - apply insert_desc_perm.
Qed.

Lemma stage_group_perm {K : Type} (eqb : K -> K -> bool)
    (key : Transaction -> K) env kname l :
  Permutation (LiveTransaction.stage_group eqb key env kname l)
    (LiveTransaction.groups eqb key l).
Proof. apply Permutation_sym, sort_desc_perm. Qed.

(** ** The summaries, group by group *)

Lemma Category_eqb_eq (a b : Category) : Category_eqb a b = true <-> a = b.
Proof.
  destruct a, b; unfold Category_eqb; simpl; split; congruence.
Qed.

Lemma pair_eqb_eq (a b : Category * TxType) :
  LiveTransaction.pair_eqb a b = true <-> a = b.
Proof.
  destruct a as [c1 t1], b as [c2 t2]. unfold LiveTransaction.pair_eqb.
  simpl. rewrite andb_true_iff, Category_eqb_eq, TxType_eqb_eq.
  split; [intros [-> ->]; trivial | intros H; injection H; auto].
Qed.

Lemma type_name_eqb (a b : TxType) :
  String.eqb (type_name a) (type_name b) = TxType_eqb a b.
Proof. now destruct a, b. Qed.

Lemma pair_name_eqb (a b : Category * TxType) :
  String.eqb (pair_name a) (pair_name b) = LiveTransaction.pair_eqb a b.
Proof.
  destruct a as [c1 t1], b as [c2 t2].
  destruct c1, c2, t1, t2; reflexivity.
Qed.

Lemma fold_type_group (ms : list Transaction) (g : TypeGroup) :
  fold_left (fun g t => {| tg_id := tg_id g; total := total g + amount t;
                           count := count g + 1;
                           avgAmount := avgAmount g |}) ms g
  = {| tg_id := tg_id g;
       total := fold_left Qplus (map amount ms) (total g);
       count := count g + List.length ms;
       avgAmount := avgAmount g |}.
Proof.
  revert g. induction ms as [|t r IH]; intros g; simpl.
  - rewrite Nat.add_0_r. now destruct g.
  - rewrite IH. simpl. f_equal. lia.
Qed.

Lemma fold_category_group (ms : list Transaction) (g : CategoryGroup) :
  fold_left (fun g t => {| cg_id := cg_id g;
                           cg_total := cg_total g + amount t;
                           cg_count := cg_count g + 1 |}) ms g
  = {| cg_id := cg_id g;
       cg_total := fold_left Qplus (map amount ms) (cg_total g);
       cg_count := cg_count g + List.length ms |}.
Proof.
  revert g. induction ms as [|t r IH]; intros g; simpl.
  - rewrite Nat.add_0_r. now destruct g.
  - rewrite IH. simpl. f_equal. lia.
Qed.

(** The one pass of [getMockFinancialSummary] yields, for each type in
    order of first appearance, the group of the documents of that type. *)
Lemma mock_financial_groups uid startDate endDate
    (s : MockTransaction.Store) :
  MockTransaction.getMockFinancialSummary uid startDate endDate s
  = map LiveTransaction.type_group
      (LiveTransaction.groups TxType_eqb type
         (filter (in_window uid startDate endDate) (dict_values s))).
Proof.
  unfold MockTransaction.getMockFinancialSummary, LiveTransaction.groups.
  set (l := filter (in_window uid startDate endDate) (dict_values s)).
  change (fold_left MockTransaction.financial_step l [])
    with (fold_left
            (keyed_step type_name type
               (fun k => {| tg_id := k; total := 0; count := 0;
                            avgAmount := 0 |})
               (fun t g => {| tg_id := tg_id g; total := total g + amount t;
                              count := count g + 1;
                              avgAmount := avgAmount g |})) l []).
  rewrite (keyed_fold_groups TxType_eqb type_name type _ _
             TxType_eqb_eq type_name_eqb).
  unfold dict_values. rewrite !map_map. apply map_ext. intros k.
  unfold group_value. rewrite fold_type_group. simpl.
  unfold LiveTransaction.type_group, LiveTransaction.acc_avg,
    LiveTransaction.acc_sum. reflexivity.
Qed.

Lemma mock_category_groups uid startDate endDate
    (s : MockTransaction.Store) :
  MockTransaction.getMockCategorySummary uid startDate endDate s
  = sort_desc (fun a b => Qle_bool (cg_total b) (cg_total a))
      (map LiveTransaction.category_group
         (LiveTransaction.groups LiveTransaction.pair_eqb
            (fun t => (category t, type t))
            (filter (in_window uid startDate endDate) (dict_values s)))).
Proof.
  unfold MockTransaction.getMockCategorySummary, LiveTransaction.groups.
  set (l := filter (in_window uid startDate endDate) (dict_values s)).
  change (fold_left MockTransaction.category_step l [])
    with (fold_left
            (keyed_step pair_name (fun t => (category t, type t))
               (fun k => {| cg_id := k; cg_total := 0; cg_count := 0 |})
               (fun t g => {| cg_id := cg_id g;
                              cg_total := cg_total g + amount t;
                              cg_count := cg_count g + 1 |})) l []).
  rewrite (keyed_fold_groups LiveTransaction.pair_eqb pair_name _ _ _
             pair_eqb_eq pair_name_eqb).
  f_equal. unfold dict_values. rewrite !map_map. apply map_ext. intros k.
  unfold group_value. rewrite fold_category_group. reflexivity.
Qed.

(** In either mode the summaries hold the groups of the documents the mode
    serves, in some order. *)
Lemma financial_summary_groups m env uid startDate endDate w :
  Permutation (getFinancialSummary m env uid startDate endDate w)
    (map LiveTransaction.type_group
       (LiveTransaction.groups TxType_eqb type
          (filter (in_window uid startDate endDate) (documents m w)))).
Proof.
  unfold getFinancialSummary. destruct m; cbn [shouldUseMock documents].
  - unfold LiveTransaction.financialPipeline, LiveTransaction.stage_match.
    apply Permutation_map, stage_group_perm.
  - rewrite mock_financial_groups. reflexivity.
Qed.

Lemma category_summary_groups m env uid startDate endDate w :
  Permutation (getCategorySummary m env uid startDate endDate w)
    (map LiveTransaction.category_group
       (LiveTransaction.groups LiveTransaction.pair_eqb
          (fun t => (category t, type t))
          (filter (in_window uid startDate endDate) (documents m w)))).
Proof.
  unfold getCategorySummary. destruct m; cbn [shouldUseMock documents].
  - unfold LiveTransaction.categoryPipeline, LiveTransaction.stage_match.
    eapply perm_trans; [apply Permutation_sym, sort_desc_perm|].
    apply Permutation_map, stage_group_perm.
  - rewrite mock_category_groups. apply Permutation_sym, sort_desc_perm.
Qed.

Lemma groups_keys {K : Type} (eqb : K -> K -> bool)
    (key : Transaction -> K) l :
  map fst (LiveTransaction.groups eqb key l)
  = LiveTransaction.distinct eqb key [] l.
Proof.
  unfold LiveTransaction.groups. rewrite map_map. simpl. apply map_id.
Qed.

(** ** Looking a group up by its key *)

Lemma find_none_iff {A : Type} (p : A -> bool) l :
  List.find p l = None <-> forall x, In x l -> p x = false.
Proof.
  split; [apply find_none|].
  induction l as [|y r IH]; simpl; trivial.
  intros H. rewrite (H y) by now left. apply IH. intros x Hx.
  apply H. now right.
Qed.

Lemma find_unique {A K : Type} (gid : A -> K) (p : A -> bool) l g :
  (forall x y, p x = true -> p y = true -> gid x = gid y) ->
  NoDup (map gid l) -> In g l -> p g = true -> List.find p l = Some g.
Proof.
  intros Hp. induction l as [|y r IH]; simpl; [intros _ []|].
  intros Hnd Hin Hg. inversion Hnd as [|? ? Hy Hr]; subst.
  destruct (p y) eqn:Ey.
  - destruct Hin as [->|Hin]; trivial.
    exfalso. apply Hy. rewrite (Hp y g Ey Hg). now apply in_map.
  - destruct Hin as [->|Hin]; [congruence|]. now apply IH.
Qed.

Lemma find_perm {A K : Type} (gid : A -> K) (p : A -> bool) l l' :
  (forall x y, p x = true -> p y = true -> gid x = gid y) ->
  NoDup (map gid l) -> Permutation l l' ->
  List.find p l' = List.find p l.
Proof.
  intros Hp Hnd Hperm.
  destruct (List.find p l) as [g|] eqn:E.
  - apply find_some in E. destruct E as [Hin Hg].
    apply (find_unique gid); trivial.
    + apply (Permutation_NoDup (Permutation_map gid Hperm) Hnd).
    + now apply (Permutation_in _ Hperm).
  - apply find_none_iff. intros x Hx.
    apply (find_none _ _ E).
    now apply (Permutation_in _ (Permutation_sym Hperm)).
Qed.

(** ** The figures of the summary *)

Lemma fold_left_Qplus (l : list Q) (a : Q) :
  fold_left Qplus l a == a + Qsum l.
Proof.
  revert a. induction l as [|x r IH]; intros a; simpl.
  - lra.
  - rewrite IH. lra.
Qed.

Lemma fold_left_count (l : list TypeGroup) (a : nat) :
  fold_left (fun acc s => (acc + count s)%nat) l a
  = (a + list_sum (map count l))%nat.
Proof.
  revert a. induction l as [|x r IH]; intros a; simpl.
  - lia.
  - rewrite IH. lia.
Qed.

Lemma type_groups_NoDup l :
  NoDup (map tg_id (map LiveTransaction.type_group
                      (LiveTransaction.groups TxType_eqb type l))).
Proof.
  rewrite map_map. simpl.
  change (fun x : TxType * list Transaction => fst x)
    with (@fst TxType (list Transaction)).
  rewrite groups_keys. now apply distinct_NoDup, TxType_eqb_eq.
Qed.

Lemma groups_total ty (l : list Transaction) :
  total_or_zero ty
    (map LiveTransaction.type_group (LiveTransaction.groups TxType_eqb type l))
  == Qsum (amounts_of ty l).
Proof.
  unfold total_or_zero, LiveTransaction.groups, amounts_of.
  rewrite map_map.
  rewrite (find_group TxType_eqb TxType_eqb_eq tg_id) by reflexivity.
  rewrite (distinct_present TxType_eqb type TxType_eqb_eq).
  destruct (existsb (fun u => TxType_eqb ty (type u)) l) eqn:E; simpl.
  - unfold LiveTransaction.acc_sum.
    destruct (Qeq_bool (fold_left Qplus _ 0) 0) eqn:Ez.
    + apply Qeq_bool_eq in Ez. rewrite fold_left_Qplus in Ez. lra.
    + rewrite fold_left_Qplus. lra.
  - rewrite (filter_unseen TxType_eqb type TxType_eqb_eq _ _ E).
    reflexivity.
Qed.

Lemma summary_total ty m env uid startDate endDate w :
  total_or_zero ty (getFinancialSummary m env uid startDate endDate w)
  == Qsum (amounts_of ty
             (filter (in_window uid startDate endDate) (documents m w))).
Proof.
  rewrite <- groups_total. unfold total_or_zero.
  rewrite (find_perm tg_id _ _ _
             (fun x y Hx Hy =>
                eq_trans (proj1 (TxType_eqb_eq _ _) Hx)
                  (eq_sym (proj1 (TxType_eqb_eq _ _) Hy)))
             (type_groups_NoDup _)
             (Permutation_sym (financial_summary_groups m env uid startDate
                                 endDate w))).
  reflexivity.
Qed.

Lemma summary_count m env uid startDate endDate w :
  total_transactions
    (summarise (getFinancialSummary m env uid startDate endDate w))
  = List.length (filter (in_window uid startDate endDate) (documents m w)).
Proof.
  unfold summarise. simpl. rewrite fold_left_count. simpl.
  rewrite (Permutation_list_sum
             (Permutation_map count
                (financial_summary_groups m env uid startDate endDate w))).
  unfold LiveTransaction.groups. rewrite !map_map. simpl.
  apply (distinct_partition TxType_eqb type TxType_eqb_eq).
Qed.

Lemma length_by_type (l : list Transaction) :
  List.length l
  = (List.length (amounts_of income l)
     + List.length (amounts_of expense l))%nat.
Proof.
  unfold amounts_of. rewrite !length_map.
  induction l as [|t r IH]; simpl; trivial.
  destruct (type t); simpl; lia.
Qed.

(** The window the handler computes is the window of the
    specification. *)
Lemma summaryStart_window cal period now :
  summaryStart cal (match period with Some p => p | None => PString "30d" end)
    now
  = window_start cal period now.
Proof.
  destruct period as [[p|l]|]; simpl; trivial.
  unfold periodStart.
  destruct (String.eqb p "7d"); trivial.
  destruct (String.eqb p "30d") eqn:E30.
  - apply String.eqb_eq in E30. now subst.
  - reflexivity.
Qed.

Lemma in_window_within uid startDate endDate l :
  filter (in_window uid startDate endDate) l
  = of_user_within uid startDate endDate l.
Proof. reflexivity. Qed.

(** C3.  In either mode the summary request answers 200 with: income, the
    sum of the income amounts of the user's transactions dated within the
    period window, which ends now and starts 7, 30 or 90 days or one year
    earlier as the period says (30 days when it says nothing else);
    expenses, the absolute value of the sum of the expense amounts;
    balance, income minus expenses; and the number of those transactions,
    income and expense together.  A type with no transaction in the window
    contributes 0. *)
Theorem getSummary_figures (m : Mode) (env : LiveEnv) (cal : Calendar)
    (now : Z) (uid : string) (period : option QueryParam) (w : World) :
  let docs := of_user_within uid (window_start cal period now) now
                (documents m w) in
  exists r,
    getSummary m env cal now uid period w = Ok r
    /\ s_income (r_summary r) == Qsum (amounts_of income docs)
    /\ s_expenses (r_summary r) == Qabs (Qsum (amounts_of expense docs))
    /\ s_balance (r_summary r)
       = s_income (r_summary r) - s_expenses (r_summary r)
    /\ total_transactions (r_summary r) = List.length docs
    /\ List.length docs
       = (List.length (amounts_of income docs)
          + List.length (amounts_of expense docs))%nat
    /\ (amounts_of income docs = [] -> s_income (r_summary r) == 0)
    /\ (amounts_of expense docs = [] -> s_expenses (r_summary r) == 0).
Proof.
  intros docs. eexists. split; [reflexivity|]. cbn [r_summary].
  rewrite summaryStart_window.
  pose proof (summary_total income m env uid (window_start cal period now)
                now w) as Hi.
  pose proof (summary_total expense m env uid (window_start cal period now)
                now w) as He.
  pose proof (summary_count m env uid (window_start cal period now) now w)
    as Hc.
  rewrite in_window_within in Hi, He, Hc. fold docs in Hi, He, Hc.
  unfold summarise in Hc |- *.
  cbn [s_income s_expenses s_balance total_transactions] in Hc |- *.
  split; [exact Hi|]. split; [rewrite He; reflexivity|].
  split; [reflexivity|]. split; [exact Hc|].
  split; [apply length_by_type|].
  split.
  - intros H. rewrite Hi, H. reflexivity.
  - intros H. rewrite He, H. reflexivity.
Qed.

(** ** The aggregations read the dataset, not the storage *)

Lemma Permutation_filter_keep {A : Type} (p : A -> bool) l l' :
  Permutation l l' -> Permutation (filter p l) (filter p l').
Proof.
  intros H. induction H as [|x l l' H IH|x y l|l l' l'' H1 IH1 H2 IH2];
    simpl.
  - constructor.
  - destruct (p x); [now constructor | trivial].
  - destruct (p x), (p y); try reflexivity. apply perm_swap.
  - now apply perm_trans with (filter p l').
Qed.

Lemma map_filter_through {A B : Type} (f : A -> B) (p : A -> bool)
    (q : B -> bool) l :
  (forall a, p a = q (f a)) -> map f (filter p l) = filter q (map f l).
Proof.
  intros Hp. induction l as [|x r IH]; simpl; trivial.
  rewrite <- Hp. destruct (p x); simpl; now rewrite IH.
Qed.

Lemma same_dataset_filter (p : Transaction -> bool)
    (q : string * Q * Category * TxType * Z -> bool) l1 l2 :
  (forall t, p t = q (facts t)) ->
  same_dataset l1 l2 -> same_dataset (filter p l1) (filter p l2).
Proof.
  unfold same_dataset. intros Hp H.
  rewrite !(map_filter_through facts p q) by trivial.
  now apply Permutation_filter_keep.
Qed.

Lemma same_dataset_window uid startDate endDate l1 l2 :
  same_dataset l1 l2 ->
  same_dataset (filter (in_window uid startDate endDate) l1)
    (filter (in_window uid startDate endDate) l2).
Proof.
  apply (same_dataset_filter _
           (fun f => match f with
                     | (u, _, _, _, d) =>
                         String.eqb u uid && (startDate <=? d)%Z
                         && (d <=? endDate)%Z
                     end)).
  reflexivity.
Qed.

Lemma Qsum_perm (l l' : list Q) : Permutation l l' -> Qsum l == Qsum l'.
Proof.
  intros H. induction H as [|x l l' H IH|x y l|l l' l'' H1 IH1 H2 IH2];
    simpl.
  - reflexivity.
  - now rewrite IH.
  - lra.
  - now rewrite IH1.
Qed.

Lemma same_dataset_amounts l1 l2 :
  same_dataset l1 l2 -> Permutation (map amount l1) (map amount l2).
Proof.
  unfold same_dataset. intros H.
  apply (Permutation_map
           (fun f : string * Q * Category * TxType * Z =>
              match f with (_, a, _, _, _) => a end)) in H.
  rewrite !map_map in H. exact H.
Qed.

Lemma same_dataset_length l1 l2 :
  same_dataset l1 l2 -> List.length l1 = List.length l2.
Proof.
  intros H. apply Permutation_length in H. now rewrite !length_map in H.
Qed.

Lemma same_dataset_sum l1 l2 :
  same_dataset l1 l2 ->
  LiveTransaction.acc_sum amount l1 == LiveTransaction.acc_sum amount l2.
Proof.
  intros H. unfold LiveTransaction.acc_sum. rewrite !fold_left_Qplus.
  rewrite (Qsum_perm _ _ (same_dataset_amounts _ _ H)). reflexivity.
Qed.

Lemma same_up_to_order_perm {A : Type} (R : A -> A -> Prop) l1 l1' l2 l2' :
  Permutation l1 l1' -> Permutation l2 l2' ->
  same_up_to_order R l1' l2' -> same_up_to_order R l1 l2.
Proof.
  intros H1 H2 (l & Hl & HR).
  apply Forall2_flip in HR.
  destruct (Permutation_Forall2 (Permutation_sym H2) HR) as (l' & Hl' & HR').
  apply Forall2_flip in HR'.
  exists l'. split; trivial.
  apply perm_trans with l1'; trivial. now apply perm_trans with l.
Qed.

Lemma Forall2_map_same {A B : Type} (R : B -> B -> Prop) (f g : A -> B) l :
  (forall a, In a l -> R (f a) (g a)) -> Forall2 R (map f l) (map g l).
Proof.
  induction l as [|x r IH]; simpl; intros H; constructor.
  - apply H. now left.
  - apply IH. intros a Ha. apply H. now right.
Qed.

Section SameGroups.
Context {K G : Type} (eqb : K -> K -> bool) (key : Transaction -> K).
Context (kf : string * Q * Category * TxType * Z -> K).
Context (mk : K * list Transaction -> G) (R : G -> G -> Prop).
Hypothesis eqb_eq : forall a b, eqb a b = true <-> a = b.
Hypothesis key_facts : forall t, key t = kf (facts t).
Hypothesis mk_same :
  forall k g1 g2, same_dataset g1 g2 -> R (mk (k, g1)) (mk (k, g2)).

Lemma same_dataset_keys l1 l2 :
  same_dataset l1 l2 ->
  Permutation (LiveTransaction.distinct eqb key [] l1)
    (LiveTransaction.distinct eqb key [] l2).
Proof using eqb_eq key_facts.
  intros H. apply NoDup_Permutation; try now apply distinct_NoDup.
  assert (forall la lb, same_dataset la lb -> forall k,
            In k (LiveTransaction.distinct eqb key [] la) ->
            In k (LiveTransaction.distinct eqb key [] lb)) as Hsub.
  { intros la lb Hab k Hk.
    apply (distinct_unseen eqb key eqb_eq) in Hk.
    destruct Hk as (_ & u & Hu & <-).
    assert (In (facts u) (map facts lb)) as Hin.
    { apply (Permutation_in _ Hab). now apply in_map. }
    apply in_map_iff in Hin. destruct Hin as (u' & Ef & Hu').
    rewrite key_facts, <- Ef, <- key_facts.
    apply (distinct_complete eqb key eqb_eq); trivial. intros []. }
  intros k. split; apply Hsub; trivial. now apply Permutation_sym.
Qed.

(** The groups of two stores holding one dataset agree, up to their
    order. *)
Lemma same_dataset_groups l1 l2 :
  same_dataset l1 l2 ->
  same_up_to_order R (map mk (LiveTransaction.groups eqb key l1))
    (map mk (LiveTransaction.groups eqb key l2)).
Proof using eqb_eq key_facts mk_same.
  intros H. unfold LiveTransaction.groups. rewrite !map_map.
  exists (map (fun k => mk (k, filter (fun t => eqb (key t) k) l1))
            (LiveTransaction.distinct eqb key [] l2)).
  split.
  - apply Permutation_map. now apply same_dataset_keys.
  - apply Forall2_map_same. intros k _. apply mk_same.
    apply (same_dataset_filter _ (fun f => eqb (kf f) k)); trivial.
    intros t. now rewrite key_facts.
Qed.

End SameGroups.

Lemma same_facts_type_group k g1 g2 :
  same_dataset g1 g2 ->
  same_type_group (LiveTransaction.type_group (k, g1))
    (LiveTransaction.type_group (k, g2)).
Proof.
  intros H. unfold same_type_group, LiveTransaction.type_group,
    LiveTransaction.acc_avg. simpl.
  rewrite (same_dataset_length _ _ H), (same_dataset_sum _ _ H).
  repeat split; reflexivity.
Qed.

Lemma same_facts_category_group k g1 g2 :
  same_dataset g1 g2 ->
  same_category_group (LiveTransaction.category_group (k, g1))
    (LiveTransaction.category_group (k, g2)).
Proof.
  intros H. unfold same_category_group, LiveTransaction.category_group.
  simpl. rewrite (same_dataset_length _ _ H), (same_dataset_sum _ _ H).
  repeat split; reflexivity.
Qed.

Lemma financial_summaries_agree env uid startDate endDate w :
  same_dataset (documents Live w) (documents Fallback w) ->
  same_up_to_order same_type_group
    (getFinancialSummary Live env uid startDate endDate w)
    (getFinancialSummary Fallback env uid startDate endDate w).
Proof.
  intros H.
  eapply same_up_to_order_perm;
    [apply financial_summary_groups | apply financial_summary_groups |].
  apply (same_dataset_groups TxType_eqb type
           (fun f => match f with (_, _, _, ty, _) => ty end)
           _ _ TxType_eqb_eq (fun t => eq_refl) same_facts_type_group).
  now apply same_dataset_window.
Qed.

Lemma category_summaries_agree env uid startDate endDate w :
  same_dataset (documents Live w) (documents Fallback w) ->
  same_up_to_order same_category_group
    (getCategorySummary Live env uid startDate endDate w)
    (getCategorySummary Fallback env uid startDate endDate w).
Proof.
  intros H.
  eapply same_up_to_order_perm;
    [apply category_summary_groups | apply category_summary_groups |].
  apply (same_dataset_groups LiveTransaction.pair_eqb
           (fun t => (category t, type t))
           (fun f => match f with (_, _, c, ty, _) => (c, ty) end)
           _ _ pair_eqb_eq (fun t => eq_refl) same_facts_category_group).
  now apply same_dataset_window.
Qed.

Lemma same_dataset_amounts_of ty l1 l2 :
  same_dataset l1 l2 ->
  Qsum (amounts_of ty l1) == Qsum (amounts_of ty l2).
Proof.
  intros H. unfold amounts_of. apply Qsum_perm, same_dataset_amounts.
  apply (same_dataset_filter _
           (fun f => match f with (_, _, _, t, _) => TxType_eqb t ty end));
    trivial.
Qed.

(** ** Sorted output *)

Lemma insert_desc_sorted {A : Type} (geb : A -> A -> bool) x l :
  (forall a b, geb a b = false -> geb b a = true) ->
  Sorted (fun a b => geb a b = true) l ->
  Sorted (fun a b => geb a b = true) (insert_desc geb x l).
Proof.
  intros Htot. induction l as [|y r IH]; simpl; intros Hs.
  - repeat constructor.
  - destruct (geb x y) eqn:E.
    + constructor; trivial. now constructor.
    + inversion Hs as [|? ? Hr Hhd]; subst.
      constructor; [now apply IH|].
      destruct r as [|z r']; simpl.
      * constructor. now apply Htot.
      * destruct (geb x z).
        -- constructor. now apply Htot.
        -- constructor. now inversion Hhd.
Qed.

Lemma sort_desc_sorted {A : Type} (geb : A -> A -> bool) l :
  (forall a b, geb a b = false -> geb b a = true) ->
  Sorted (fun a b => geb a b = true) (sort_desc geb l).
Proof.
  intros Htot. induction l as [|x r IH]; simpl; [constructor|].
  now apply insert_desc_sorted.
Qed.

Lemma Sorted_weaken {A : Type} (R R' : A -> A -> Prop) l :
  (forall a b, R a b -> R' a b) -> Sorted R l -> Sorted R' l.
Proof.
  intros Himp H. induction H as [|x r Hs IH Hhd]; constructor; trivial.
  destruct Hhd; constructor; auto.
Qed.

Lemma Qle_bool_total (a b : Q) : Qle_bool a b = false -> Qle_bool b a = true.
Proof.
  intros H. apply Qle_bool_iff.
  destruct (Qlt_le_dec b a) as [Hlt|Hle]; [now apply Qlt_le_weak|].
  exfalso. apply Qle_bool_iff in Hle. congruence.
Qed.

Lemma category_summary_sorted m env uid startDate endDate w :
  Sorted (fun a b => cg_total b <= cg_total a)
    (getCategorySummary m env uid startDate endDate w).
Proof.
  apply Sorted_weaken
    with (R := fun a b => Qle_bool (cg_total b) (cg_total a) = true).
  - intros a b H. now apply Qle_bool_iff.
  - unfold getCategorySummary.
    destruct m; cbn [shouldUseMock];
      [unfold LiveTransaction.categoryPipeline
      | unfold MockTransaction.getMockCategorySummary];
      apply (sort_desc_sorted
               (fun a b => Qle_bool (cg_total b) (cg_total a)));
      intros a b; apply Qle_bool_total.
Qed.

(** ** The category ranking *)

Lemma insert_desc_not_nil {A : Type} (geb : A -> A -> bool) x l :
  insert_desc geb x l <> [].
Proof. destruct l; simpl; [|destruct (geb x a)]; discriminate. Qed.

Lemma sort_desc_nil {A : Type} (geb : A -> A -> bool) (l : list A) :
  sort_desc geb l = [] -> l = [].
Proof.
  destruct l as [|x r]; trivial. simpl. intros H.
  now apply insert_desc_not_nil in H.
Qed.

Lemma topCategoriesPipeline_nil env uid startDate endDate c :
  LiveTransaction.topCategoriesPipeline env uid startDate endDate c = []
  <-> of_user_within uid startDate endDate c = [].
Proof.
  rewrite <- in_window_within.
  unfold LiveTransaction.topCategoriesPipeline, LiveTransaction.stage_match,
    LiveTransaction.stage_group, LiveTransaction.groups.
  destruct (filter (in_window uid startDate endDate) c) as [|t r] eqn:E.
  - simpl. tauto.
  - split; [|discriminate]. intros H. exfalso.
    match type of H with
    | firstn 10 ?s = [] =>
        destruct s as [|g gs] eqn:Es; [|discriminate]
    end.
    apply sort_desc_nil, map_eq_nil, sort_desc_nil in Es.
    simpl in Es. discriminate.
Qed.




(** ** Listing: filter, order, pages *)

Lemma matches_satisfies (f : Filter) (t : Transaction) :
  LiveTransaction.matches f t = true <-> satisfies f t.
Proof.
  unfold LiveTransaction.matches, satisfies, LiveTransaction.opt_eqb.
  rewrite !andb_true_iff, String.eqb_eq.
  destruct (f_category f) as [c|], (f_type f) as [ty|];
    rewrite ?String.eqb_eq.
  all: destruct (f_date f) as [[[g|] [h|]]|]; simpl;
    rewrite ?andb_true_iff, ?Z.leb_le.
  all: split;
    [ intros H; decompose [and] H; clear H; repeat split; trivial; intros;
      repeat match goal with
             | E : Some _ = Some _ |- _ => injection E as E; subst; simpl in *
             | E : None = Some _ |- _ => discriminate E
             end; trivial
    | intros (Hu & Hc & Ht & Hg & Hl); repeat split; eauto ].
Qed.

Lemma filter_filter {A : Type} (p q : A -> bool) (l : list A) :
  filter p (filter q l) = filter (fun x => q x && p x) l.
Proof.
  induction l as [|x r IH]; simpl; trivial.
  destruct (q x); simpl; [destruct (p x)|]; now rewrite IH.
Qed.

Lemma truthy_string_idem (o : option string) :
  truthy_string (truthy_string o) = truthy_string o.
Proof.
  destruct o as [x|]; simpl; trivial.
  destruct (String.eqb x "") eqn:E; simpl; trivial. now rewrite E.
Qed.

(** The successive [filter] calls of the mock select what the live filter
    selects, for the filter the handler builds and a user id that is not
    empty. *)
Lemma mock_find_matches (uid : string) (q : ListQuery)
    (s : MockTransaction.Store) :
  uid <> "" ->
  MockTransaction.lean (MockTransaction.find (build_filter uid q) s)
  = filter (LiveTransaction.matches (build_filter uid q)) (dict_values s).
Proof.
  intros Hu. apply String.eqb_neq in Hu.
  unfold MockTransaction.find, MockTransaction.when, LiveTransaction.matches,
    LiveTransaction.opt_eqb, build_filter.
  cbn [f_userId f_category f_type f_date MockTransaction.lean].
  rewrite Hu, !truthy_string_idem.
  destruct (truthy_string (q_category q)) as [c|],
           (truthy_string (q_type q)) as [ty|];
    destruct (q_startDate q) as [g|], (q_endDate q) as [h|]; simpl;
    rewrite ?filter_filter; apply filter_ext; intros t;
    rewrite ?andb_true_r, ?andb_assoc; reflexivity.
Qed.

Lemma insert_date_sorted x l :
  Sorted newer_first l ->
  Sorted newer_first (insert_desc (fun a b => (date b <=? date a)%Z) x l).
Proof.
  induction l as [|y r IH]; simpl; intros Hs.
  - repeat constructor.
  - destruct (date y <=? date x)%Z eqn:E.
    + constructor; trivial. constructor. unfold newer_first.
      now apply Z.leb_le.
    + apply Z.leb_gt in E. inversion Hs as [|? ? Hr Hhd]; subst.
      constructor; [now apply IH|].
      destruct r as [|z r']; simpl.
      * constructor. unfold newer_first. lia.
      * destruct (date z <=? date x)%Z.
        -- constructor. unfold newer_first. lia.
        -- constructor. now inversion Hhd.
Qed.

Lemma by_date_desc_sorted l :
  Sorted newer_first (LiveTransaction.by_date_desc l).
Proof.
  unfold LiveTransaction.by_date_desc.
  induction l as [|x r IH]; simpl; [constructor|].
  now apply insert_date_sorted.
Qed.

Lemma firstn_plus {A : Type} (a b : nat) (l : list A) :
  firstn (a + b) l = firstn a l ++ firstn b (skipn a l).
Proof.
  revert l. induction a as [|a IH]; intros l; simpl; trivial.
  destruct l as [|x r]; simpl.
  - now rewrite firstn_nil.
  - now rewrite IH.
Qed.

Lemma concat_pages {A : Type} (n k : nat) (l : list A) :
  List.concat (map (fun p => page_of n p l) (seq 1 k)) = firstn (k * n) l.
Proof.
  induction k as [|k IH]; [reflexivity|].
  rewrite seq_S, map_app, concat_app, IH.
  cbn [map List.concat]. rewrite app_nil_r. unfold page_of.
  replace (1 + k - 1)%nat with k by lia.
  replace (S k * n)%nat with (k * n + n)%nat by lia.
  now rewrite firstn_plus.
Qed.

Lemma ceil_pages (total lim : Z) :
  (0 <= total)%Z -> (1 <= lim)%Z ->
  exists k, ceil_div total lim = Some (Z.of_nat k)
            /\ (total <= Z.of_nat k * lim)%Z.
Proof.
  intros Ht Hl. unfold ceil_div.
  replace (lim =? 0)%Z with false by (symmetry; apply Z.eqb_neq; lia).
  pose proof (Z.div_mod (- total) lim ltac:(lia)) as Hd.
  pose proof (Z.mod_pos_bound (- total) lim ltac:(lia)) as Hm.
  assert (0 <= - (- total / lim))%Z as Hk by nia.
  exists (Z.to_nat (- (- total / lim))).
  rewrite Z2Nat.id by trivial. split; trivial. nia.
Qed.

Lemma live_page (uid : string) (q : ListQuery) (w : World) :
  let page := match q_page q with Some p => p | None => 1%Z end in
  let lim := match q_limit q with Some l => l | None => 20%Z end in
  let matching := filter (LiveTransaction.matches (build_filter uid q))
                    (collection w) in
  (1 <= page)%Z -> (1 <= lim)%Z ->
  listTransactions Live uid q w
  = Ok {| transactions :=
            page_of (Z.to_nat lim) (Z.to_nat page)
              (LiveTransaction.by_date_desc matching);
          current := page;
          pages := ceil_div (Z.of_nat (List.length matching)) lim;
          total_count := List.length matching |}.
Proof.
  intros page lim matching Hp1 Hl1. unfold listTransactions.
  fold page lim. simpl.
  unfold LiveTransaction.lean. simpl.
  replace ((page - 1) * lim <? 0)%Z with false
    by (symmetry; apply Z.ltb_ge; nia).
  replace (lim * 1 =? 0)%Z with false by (symmetry; apply Z.eqb_neq; lia).
  unfold page_of, LiveTransaction.countDocuments.
  replace (Z.to_nat (Z.abs (lim * 1))) with (Z.to_nat lim)
    by (f_equal; lia).
  replace (Z.to_nat ((page - 1) * lim))
    with ((Z.to_nat page - 1) * Z.to_nat lim)%nat by nia.
  reflexivity.
Qed.

(** C4, amended.  In live mode, for a page number and a page size of at
    least 1: the filter keeps the documents that satisfy all of its
    predicates; the answer is the slice of the filtered set, ordered most
    recent first, that starts at offset (page - 1) * pageSize and has at most
    pageSize items; the total counts the whole filtered set; and the pages
    1 .. pages, concatenated, are the ordered filtered set.  In fallback
    mode the mock's [find] selects the same documents and [countDocuments]
    counts them, but [sort], [limit] and [skip] do nothing: the chain hands
    back the whole filtered set in insertion order, whatever the page. *)
Theorem paged_listing (uid : string) (q : ListQuery) (w : World) :
  let page := match q_page q with Some p => p | None => 1%Z end in
  let lim := match q_limit q with Some l => l | None => 20%Z end in
  let f := build_filter uid q in
  let matching := filter (LiveTransaction.matches f) (collection w) in
  let ordered := LiveTransaction.by_date_desc matching in
  (1 <= page)%Z -> (1 <= lim)%Z ->
  (forall t, In t matching <-> In t (collection w) /\ satisfies f t)
  /\ Permutation matching ordered
  /\ Sorted newer_first ordered
  /\ (exists pg k,
        listTransactions Live uid q w = Ok pg
        /\ transactions pg
           = firstn (Z.to_nat lim)
               (skipn (Z.to_nat ((page - 1) * lim)) ordered)
        /\ total_count pg = List.length matching
        /\ pages pg = Some (Z.of_nat k)
        /\ List.concat (map (page_items Live uid q w) (seq 1 k)) = ordered)
  /\ (uid <> "" ->
      forall a b,
        MockTransaction.lean
          (MockTransaction.skip a
             (MockTransaction.limit b
                (MockTransaction.sort
                   (MockTransaction.find f (mockTransactions w)))))
        = filter (LiveTransaction.matches f)
            (dict_values (mockTransactions w))
        /\ Transaction_countDocuments Fallback f w
           = List.length (filter (LiveTransaction.matches f)
                            (dict_values (mockTransactions w)))).
Proof.
  intros page lim f matching ordered Hp Hl.
  split; [|split; [|split; [|split]]].
  - intros t. unfold matching. rewrite filter_In, matches_satisfies.
    reflexivity.
  - apply sort_desc_perm.
  - apply by_date_desc_sorted.
  - destruct (ceil_pages (Z.of_nat (List.length matching)) lim)
      as (k & Hk & Hle); [lia | trivial |].
    eexists. exists k. split; [apply live_page; trivial|]. simpl.
    fold f matching ordered page lim.
    split.
    { unfold page_of. f_equal. f_equal. nia. }
    split; [reflexivity|]. split; [exact Hk|].
    rewrite (map_ext_in _ (fun p => page_of (Z.to_nat lim) p ordered)).
    + rewrite concat_pages. apply firstn_all2.
      assert (List.length ordered = List.length matching) as ->
        by (symmetry; apply Permutation_length, sort_desc_perm).
      nia.
    + intros p Hin. apply in_seq in Hin. unfold page_items.
      rewrite live_page; simpl; [|lia|exact Hl].
      now rewrite Nat2Z.id.
  - intros Hu a b. unfold Transaction_countDocuments,
      MockTransaction.countDocuments, MockTransaction.skip,
      MockTransaction.limit, MockTransaction.sort, f.
    now rewrite mock_find_matches.
Qed.

Lemma paged_listing_witness :
  Sorted newer_first
    (LiveTransaction.by_date_desc
       (filter (LiveTransaction.matches (build_filter "u1" first_of_one))
          (collection (two_days Live)))).
Proof.
  apply (paged_listing "u1" first_of_one (two_days Live)); simpl; lia.
Defined.

(** C4, as stated, fails in fallback mode: with two transactions stored
    oldest first and page 1 of size 1 requested, the handler calls [sort] on
    the promise of the [async] mock [find] and answers 500; the chain behind
    the promise holds both transactions, oldest first, where the first page
    of the ordered set is the newer one alone. *)
Lemma fallback_listing_not_paged :
  listTransactions Fallback "u1" first_of_one (two_days Fallback)
  = InternalError
  /\ MockTransaction.lean
       (MockTransaction.skip 0
          (MockTransaction.limit 1
             (MockTransaction.sort
                (MockTransaction.find (build_filter "u1" first_of_one)
                   (mockTransactions (two_days Fallback))))))
     = [lunch_doc "a" 1; lunch_doc "b" 2]
  /\ listTransactions Live "u1" first_of_one (two_days Live)
     = Ok {| transactions := [lunch_doc (ObjectId.text "b") 2]; current := 1;
             pages := Some 2%Z; total_count := 2 |}.
Proof. repeat split; reflexivity. Qed.

(** ** Recurrence *)

(** C8 at a request that sets [isRecurring] and sends no period: the Joi
    schema accepts it; in fallback mode create answers 201 and update 200,
    and the stored record is recurring with no period; in live mode create
    is stopped by the model's conditional [required] and answers 500.  A
    period outside the four names is refused by the schema. *)
Lemma recurring_without_period :
  (exists v, transactionSchema_validate gym = inr v
             /\ v_isRecurring v = Some true /\ v_recurringPeriod v = None)
  /\ (exists t w',
        createTransaction Fallback sample_live "t1" 0 gym empty_world
        = (Created t, w')
        /\ MockTransaction.findById "t1" (mockTransactions w') = Some t
        /\ isRecurring t = true /\ recurringPeriod t = None)
  /\ (exists t w',
        updateTransaction Fallback sample_live 5 "uuid-1" gym seeded
        = (Ok t, w')
        /\ MockTransaction.findById "uuid-1" (mockTransactions w') = Some t
        /\ isRecurring t = true /\ recurringPeriod t = None)
  /\ createTransaction Live sample_live "t1" 0 gym empty_world
     = (InternalError, empty_world)
  /\ (forall b s, body_recurringPeriod b = Some s ->
        valid_of period_name all_periods s = None ->
        exists e, transactionSchema_validate b = inl e).
Proof.
  split; [eexists; repeat split; reflexivity|].
  split; [do 2 eexists; repeat split; reflexivity|].
  split; [do 2 eexists; repeat split; reflexivity|].
  split; [reflexivity|].
  intros b s Hs Hbad. unfold transactionSchema_validate, bind.
  destruct (required_string "userId" _); [eauto|].
  destruct (body_amount b) as [a|]; [|eauto].
  destruct (Qeq_bool a 0 || negb (safe_number a)); [eauto|].
  destruct (required_string "description" _); [eauto|].
  destruct (_ <=? 200)%nat; [|eauto].
  destruct (required_valid "category" _ _ _); [eauto|].
  destruct (required_valid "type" _ _ _); [eauto|].
  destruct (string_items "tags" _); [eauto|].
  unfold optional_valid. rewrite Hs, Hbad. eauto.
Qed.

(** ** Identifiers *)

Lemma length_string_of_list (l : list ascii) :
  String.length (string_of_list_ascii l) = List.length l.
Proof. induction l; simpl; congruence. Qed.

Lemma length_list_of_string (s : string) :
  List.length (list_ascii_of_string s) = String.length s.
Proof. induction s; simpl; congruence. Qed.

Lemma length_random_bytes n drawn : List.length (random_bytes n drawn) = n.
Proof.
  unfold random_bytes. rewrite length_firstn, length_app, repeat_length.
  lia.
Qed.

Lemma hex_char_digit k :
  (k < 16)%nat ->
  is_hex (hex_char k) = true /\ lower_ascii (hex_char k) = hex_char k
  /\ is_hex (upper_ascii (hex_char k)) = true
  /\ upper_ascii (upper_ascii (hex_char k)) = upper_ascii (hex_char k).
Proof.
  intros H. do 16 (destruct k as [|k]; [repeat split; reflexivity|]). lia.
Qed.

Lemma byte_hex_digits c :
  Forall (fun h => exists k, (k < 16)%nat /\ h = hex_char k) (byte_hex c).
Proof.
  unfold byte_hex. pose proof (nat_ascii_bounded c) as Hb.
  repeat constructor.
  - exists (nat_of_ascii c / 16)%nat. split; trivial.
    apply Nat.Div0.div_lt_upper_bound. lia.
  - exists (nat_of_ascii c mod 16)%nat. split; trivial.
    apply Nat.mod_upper_bound. lia.
Qed.

Lemma hex_digits l :
  Forall (fun h => exists k, (k < 16)%nat /\ h = hex_char k)
    (flat_map byte_hex l)
  /\ List.length (flat_map byte_hex l) = (2 * List.length l)%nat.
Proof.
  induction l as [|c r [IH1 IH2]]; simpl; [split; trivial; constructor|].
  pose proof (byte_hex_digits c) as Hc. unfold byte_hex in Hc.
  inversion Hc as [|? ? H1 Hc']; subst. inversion Hc' as [|? ? H2 _]; subst.
  split; [repeat constructor; trivial | lia].
Qed.

(** The text of a fresh identifier of the document store names that very
    identifier. *)
Lemma ObjectId_cast_text drawn :
  ObjectId.cast (ObjectId.text drawn) = Some (ObjectId.text drawn).
Proof.
  unfold ObjectId.cast, ObjectId.is_text, ObjectId.text.
  destruct (hex_digits (random_bytes 12 drawn)) as [Hd Hl].
  rewrite length_random_bytes in Hl.
  set (l := flat_map byte_hex (random_bytes 12 drawn)) in *.
  rewrite length_string_of_list, list_ascii_of_string_of_list_ascii, Hl.
  cbn [Nat.mul Nat.add Nat.eqb andb].
  assert (forallb is_hex l = true /\ map lower_ascii l = l) as [-> ->];
    trivial.
  clear Hl. induction Hd as [|h r (k & Hk & ->) Hd [IH1 IH2]]; simpl;
    [split; trivial|].
  destruct (hex_char_digit k Hk) as (-> & -> & _).
  now rewrite IH1, IH2.
Qed.

Lemma Guid_shape (l : list ascii) :
  List.length l = 32%nat ->
  Forall (fun c => is_hex c = true /\ upper_ascii c = c) l ->
  Guid.is_text (string_of_list_ascii (Guid.hyphen l)) = true
  /\ map upper_ascii (Guid.hyphen l) = Guid.hyphen l.
Proof.
  intros Hl Hall.
  do 32 (destruct l as [|? l]; [discriminate Hl|]).
  destruct l; [|discriminate Hl]. clear Hl.
  repeat match goal with
         | H : Forall _ (_ :: _) |- _ =>
             let H1 := fresh in let H2 := fresh in
             inversion H as [|? ? [H1 H2] ?]; clear H; subst
         end.
  unfold Guid.is_text, Guid.hyphen.
  cbn [firstn skipn app List.length Nat.eqb forallb andb map
       list_ascii_of_string string_of_list_ascii].
  repeat match goal with
         | H : is_hex ?c = true |- _ => rewrite H; clear H
         | H : upper_ascii ?c = ?c |- _ => rewrite H; clear H
         end.
  split; reflexivity.
Qed.

(** The text of a fresh identifier of the relational store names that very
    identifier. *)
Lemma Guid_cast_text drawn :
  Guid.cast (Guid.text drawn) = Some (Guid.text drawn).
Proof.
  unfold Guid.cast, Guid.text.
  destruct (hex_digits (random_bytes 16 drawn)) as [Hd Hl].
  rewrite length_random_bytes in Hl.
  set (l := flat_map byte_hex (random_bytes 16 drawn)) in *.
  destruct (Guid_shape (map upper_ascii l)) as [Ht Hu].
  - now rewrite length_map.
  - apply Forall_map. eapply Forall_impl; [|exact Hd].
    intros h (k & Hk & ->). now destruct (hex_char_digit k Hk) as (_ & _ & ?).
  - rewrite Ht, list_ascii_of_string_of_list_ascii, Hu. reflexivity.
Qed.

(** ** Which branch of the mock pool answers which statement *)

Lemma mock_select_by_email newId now i db :
  MockPool.query newId now (queryString SelectIdByEmail) i db
  = (match List.find (fun u => strict_eq String.eqb (MockPool.email u)
                                 (in_email i))
             (dict_values (MockPool.users db)) with
     | Some u => [MockPool.row_of_user u]
     | None => []
     end, db).
Proof.
  unfold MockPool.query.
  now destruct (List.find _ (dict_values (MockPool.users db))).
Qed.

Lemma mock_insert_user newId now i db :
  MockPool.query newId now (queryString InsertUser) i db
  = (let user := {| MockPool.id := newId; MockPool.email := in_email i;
                    MockPool.password := in_password i;
                    MockPool.name := in_name i; MockPool.age := in_age i;
                    MockPool.created_at := now;
                    MockPool.is_active := true |} in
     ([MockPool.row_of_user user],
      {| MockPool.users := dict_set newId user (MockPool.users db);
         MockPool.user_profiles := MockPool.user_profiles db |})).
Proof. reflexivity. Qed.

Lemma mock_insert_profile newId now i db :
  MockPool.query newId now (queryString InsertProfile) i db
  = (let profile :=
       {| MockPool.profile_id := newId; MockPool.user_id := in_user_id i;
          MockPool.monthly_income := or_zero (in_monthly_income i);
          MockPool.spending_limit := or_zero (in_spending_limit i) |} in
     ([MockPool.row_of_profile profile],
      {| MockPool.users := MockPool.users db;
         MockPool.user_profiles :=
           dict_set newId profile (MockPool.user_profiles db) |})).
Proof. reflexivity. Qed.

(** The text of the profile lookup contains SELECT, users and email: the
    lookup by email answers it, with no email among the inputs. *)
Lemma mock_select_profile newId now i db :
  MockPool.query newId now (queryString SelectProfile) i db
  = MockPool.query newId now (queryString SelectIdByEmail) i db.
Proof. reflexivity. Qed.

Lemma mock_select_stats newId now i db :
  MockPool.query newId now (queryString SelectStats) i db
  = (match MockPool.users_get (in_id i) (MockPool.users db) with
     | Some u =>
         [MockPool.joined_row u
            (List.find (fun p => strict_eq String.eqb (MockPool.user_id p)
                                   (in_id i))
               (dict_values (MockPool.user_profiles db)))]
     | None => []
     end, db).
Proof.
  unfold MockPool.query.
  now destruct (MockPool.users_get (in_id i) (MockPool.users db)).
Qed.

Lemma mock_update newId now s i db :
  s = UpdateUser \/ s = UpdateProfile ->
  MockPool.query newId now (queryString s) i db = ([], db).
Proof. intros [-> | ->]; reflexivity. Qed.

(** ** Registration and the uniqueness of emails *)

Lemma nonempty_filter {A B : Type} (f : A -> B) (p : A -> bool) l :
  (0 <? List.length (map f (filter p l)))%nat = existsb p l.
Proof.
  induction l as [|x r IH]; simpl; trivial.
  destruct (p x); simpl; trivial.
Qed.

Lemma find_existsb {A : Type} (p : A -> bool) l :
  existsb p l = match List.find p l with Some _ => true | None => false end.
Proof.
  induction l as [|x r IH]; simpl; trivial.
  destruct (p x); simpl; trivial.
Qed.

Lemma existsb_dict_set {V : Type} (p : V -> bool) k v (d : Dict V) :
  p v = true -> existsb p (dict_values (dict_set k v d)) = true.
Proof.
  intros Hp. apply existsb_exists. exists v. split; trivial.
  apply dict_set_In.
Qed.

Lemma existsb_same {A : Type} (p q : A -> bool) l :
  (forall x, p x = q x) -> existsb p l = existsb q l.
Proof.
  intros H. induction l as [|x r IH]; simpl; trivial. now rewrite H, IH.
Qed.

Lemma existsb_false_notin {A : Type} (f : A -> string) (s : string) l :
  ~ In s (map f l) -> existsb (fun x => String.eqb (f x) s) l = false.
Proof.
  induction l as [|x r IH]; simpl; trivial. intros H.
  destruct (String.eqb (f x) s) eqn:E.
  - apply String.eqb_eq in E. tauto.
  - apply IH. tauto.
Qed.

Lemma email_taken_mock env e w :
  email_taken Fallback env e w
  = existsb (fun u => strict_eq String.eqb (MockPool.email u) (val e))
      (dict_values (MockPool.users (mockDatabase w))).
Proof.
  apply existsb_same. intros u. now destruct (MockPool.email u).
Qed.

Lemma min_length_inr key n o s :
  min_length key n o = inr s
  <-> o = Some s /\ s <> "" /\ (n <= js_length s)%nat.
Proof.
  unfold min_length, bind.
  destruct (required_string key o) as [e|x] eqn:E.
  - split; [discriminate|]. intros (Ho & Hn & _).
    assert (required_string key o = inr s) as E'
      by (apply required_string_inr; now split).
    congruence.
  - apply required_string_inr in E. destruct E as [-> Hx].
    destruct (n <=? js_length x)%nat eqn:El.
    + apply Nat.leb_le in El. split.
      * intros H. injection H as <-. now repeat split.
      * intros (H & _). now injection H as ->.
    + apply Nat.leb_gt in El. split; [discriminate|].
      intros (H & _ & Hl). injection H as ->. lia.
Qed.

Lemma registerSchema_fields (env : UserEnv) (b : RegisterBody)
    (cred : Credentials) :
  registerSchema_validate env b = inr cred ->
  reg_email b = Some (c_email cred) /\ c_email cred <> ""
  /\ isEmail env (c_email cred) = true
  /\ reg_password b = Some (c_password cred)
  /\ (6 <= js_length (c_password cred))%nat
  /\ reg_name b = Some (c_name cred)
  /\ (2 <= js_length (c_name cred))%nat
  /\ reg_age b = c_age cred
  /\ (forall z, c_age cred = Some z -> (13 <= z <= 120)%Z)
  /\ c_password cred <> ""
  /\ reg_unknown b = [].
Proof.
  unfold registerSchema_validate. unfold bind at 1 2.
  destruct (required_string "email" (reg_email b)) as [|e] eqn:Ee;
    [discriminate|].
  apply required_string_inr in Ee. destruct Ee as [Ee Hen].
  destruct (isEmail env e) eqn:Em; [|discriminate].
  unfold bind at 1.
  destruct (min_length "password" 6 (reg_password b)) as [|pw] eqn:Ep;
    [discriminate|].
  apply min_length_inr in Ep. destruct Ep as (Ep & Hpn & Hpl).
  unfold bind at 1.
  destruct (min_length "name" 2 (reg_name b)) as [|n] eqn:En;
    [discriminate|].
  apply min_length_inr in En. destruct En as (En & _ & Hnl).
  unfold bind, no_unknown.
  destruct (reg_age b) as [z|] eqn:Ea.
  + destruct ((13 <=? z)%Z && (z <=? 120)%Z) eqn:Er; [|discriminate].
    destruct (reg_unknown b); [|discriminate].
    intros H. injection H as <-. simpl.
    repeat match goal with |- _ /\ _ => split end; trivial.
    intros z' Hz. injection Hz as <-.
    apply andb_true_iff in Er. lia.
  + destruct (reg_unknown b); [|discriminate].
    intros H. injection H as <-. simpl.
    repeat match goal with |- _ /\ _ => split end; trivial.
    discriminate.
Qed.

(** The age a registration binds is an [INT]. *)
Lemma bind_registered_age cred :
  (forall z, c_age cred = Some z -> (13 <= z <= 120)%Z) ->
  Sql.bind_int (or_null_int (match c_age cred with
                             | Some z => val z
                             | None => undefined
                             end))
  = Some (Sql.param (or_null_int (match c_age cred with
                                  | Some z => val z
                                  | None => undefined
                                  end))).
Proof.
  intros H. destruct (c_age cred) as [z|]; simpl; trivial.
  specialize (H z eq_refl).
  destruct (z =? 0)%Z; simpl; trivial.
  replace ((-2147483648 <=? z)%Z && (z <=? 2147483647)%Z) with true;
    trivial.
  symmetry. apply andb_true_iff. lia.
Qed.

Lemma too_long_false s :
  (js_length s <= 255)%nat -> Sql.too_long (Some s) = false.
Proof. intros H. simpl. apply Nat.ltb_ge. exact H. Qed.

Lemma bind_guid_text drawn :
  Sql.bind_guid (val (Guid.text drawn)) = Some (Some (Guid.text drawn)).
Proof. simpl. now rewrite Guid_cast_text. Qed.

(** ** Registration, step by step *)

Lemma column_param_or_null (x : Js Z) :
  Sql.column (Sql.param (or_null_int x)) = or_null_int x.
Proof.
  destruct x as [| |z]; simpl; trivial. now destruct (z =? 0)%Z.
Qed.

(** What a registration answers in fallback mode. *)
Lemma register_mock env userId profileId salt now iat b w cred :
  registerSchema_validate env b = inr cred ->
  register Fallback env userId profileId salt now iat b w
  = if email_taken Fallback env (c_email cred) w then (Conflict, w)
    else
      (Created {| user_id := val userId; user_email := val (c_email cred);
                  user_name := val (c_name cred);
                  user_age := or_null_int (match c_age cred with
                                           | Some z => val z
                                           | None => undefined
                                           end);
                  token := jwt_sign env (val userId) (val (c_email cred))
                             iat |},
       after_register Fallback env userId profileId salt now cred w).
Proof.
  intros Hv. unfold register. rewrite Hv, email_taken_mock.
  destruct w as [sqldb mockdb].
  unfold pool_query. cbn [mockDatabase sqlDatabase].
  rewrite mock_select_by_email. cbn [in_email].
  rewrite find_existsb.
  destruct (List.find _ (dict_values (MockPool.users mockdb)));
    [reflexivity|].
  cbn [List.length Nat.ltb Nat.leb]. rewrite mock_insert_user.
  cbv zeta. cbn [mockDatabase sqlDatabase]. rewrite mock_insert_profile.
  reflexivity.
Qed.

(** What a registration answers in live mode. *)
Lemma register_live env userId profileId salt now iat b w cred :
  registerSchema_validate env b = inr cred ->
  register Live env userId profileId salt now iat b w
  = if email_taken Live env (c_email cred) w then (Conflict, w)
    else if Sql.too_long (Some (c_email cred))
            || Sql.too_long (Some (bcrypt_hash env salt (c_password cred)))
            || Sql.too_long (Some (c_name cred))
            || existsb (Sql.by_id (Some (Guid.text userId)))
                 (Sql.users (sqlDatabase w))
    then (InternalError, w)
    else if existsb (fun p => String.eqb (Sql.profile_id p)
                                (Guid.text profileId))
              (Sql.user_profiles (sqlDatabase w))
    then (InternalError,
          {| sqlDatabase :=
               {| Sql.users :=
                    Sql.users
                      (sqlDatabase
                         (after_register Live env userId profileId salt now
                            cred w));
                  Sql.user_profiles := Sql.user_profiles (sqlDatabase w) |};
             mockDatabase := mockDatabase w |})
    else
      (Created {| user_id := val (Guid.text userId);
                  user_email := val (c_email cred);
                  user_name := val (c_name cred);
                  user_age := or_null_int (match c_age cred with
                                           | Some z => val z
                                           | None => undefined
                                           end);
                  token := jwt_sign env (val (Guid.text userId))
                             (val (c_email cred)) iat |},
       after_register Live env userId profileId salt now cred w).
Proof.
  intros Hv. unfold register. rewrite Hv.
  apply registerSchema_fields in Hv.
  destruct Hv as (_ & _ & _ & _ & _ & _ & _ & _ & Hage & _).
  pose proof (bind_registered_age cred Hage) as Hbind.
  pose proof (bind_guid_text userId) as Hguid.
  set (age := or_null_int _) in *.
  destruct w as [sqldb mockdb].
  unfold pool_query.
  cbn [sqlDatabase mockDatabase Sql.query in_email in_password in_name
       in_age in_user_id Sql.param email_taken same_email].
  rewrite nonempty_filter.
  change (existsb (fun u => String.eqb (collationKey env (Sql.email u))
                              (collationKey env (c_email cred)))
            (Sql.users sqldb))
    with (existsb (Sql.by_email (collationKey env) (Some (c_email cred)))
            (Sql.users sqldb)).
  destruct (existsb (Sql.by_email (collationKey env) (Some (c_email cred)))
              (Sql.users sqldb)) eqn:Et; [reflexivity|].
  rewrite Hbind. cbn [orb].
  rewrite !orb_false_r.
  destruct (Sql.too_long (Some (c_email cred))
            || Sql.too_long (Some (bcrypt_hash env salt (c_password cred)))
            || Sql.too_long (Some (c_name cred))
            || existsb (Sql.by_id (Some (Guid.text userId)))
                 (Sql.users sqldb)) eqn:Ebad;
    [reflexivity|].
  cbn [sqlDatabase mockDatabase Sql.inserted_row col_id Sql.id].
  rewrite Hguid.
  cbn [Sql.users Sql.user_profiles].
  rewrite existsb_app. cbn [existsb Sql.by_id Sql.id].
  rewrite String.eqb_refl, orb_true_r. cbn [andb orb].
  destruct (existsb (fun p => String.eqb (Sql.profile_id p)
                                (Guid.text profileId))
              (Sql.user_profiles sqldb)); cbn [negb].
  - reflexivity.
  - cbn [col_email col_name col_age Sql.inserted_row Sql.email Sql.name
         Sql.age sqlDatabase mockDatabase].
    subst age. unfold after_register.
    now rewrite column_param_or_null.
Qed.

(** ** Registration and the uniqueness of emails *)

Lemma register_conflict m env userId profileId salt now iat b w cred :
  registerSchema_validate env b = inr cred ->
  email_taken m env (c_email cred) w = true ->
  register m env userId profileId salt now iat b w = (Conflict, w).
Proof.
  intros Hv Ht.
  destruct m; [rewrite (register_live _ _ _ _ _ _ _ _ cred Hv)
              | rewrite (register_mock _ _ _ _ _ _ _ _ cred Hv)];
    now rewrite Ht.
Qed.

Lemma email_taken_after m env userId profileId salt now cred w :
  email_taken m env (c_email cred)
    (after_register m env userId profileId salt now cred w) = true.
Proof.
  destruct m; cbn [email_taken after_register sqlDatabase mockDatabase
                   Sql.users MockPool.users].
  - rewrite existsb_app. cbn [existsb Sql.email same_email].
    now rewrite String.eqb_refl, orb_true_r.
  - apply existsb_dict_set. cbn [MockPool.email same_email].
    apply String.eqb_refl.
Qed.

Lemma register_created m env userId profileId salt now iat b w cred :
  registerSchema_validate env b = inr cred ->
  email_taken m env (c_email cred) w = false ->
  ids_fresh m userId profileId w ->
  columns_hold m env salt cred ->
  exists r,
    register m env userId profileId salt now iat b w
    = (Created r, after_register m env userId profileId salt now cred w)
    /\ user_id r = val (new_user_id m userId)
    /\ user_email r = val (c_email cred).
Proof.
  intros Hv Ht Hf Hc.
  destruct m; [rewrite (register_live _ _ _ _ _ _ _ _ cred Hv)
              | rewrite (register_mock _ _ _ _ _ _ _ _ cred Hv)];
    rewrite Ht.
  - destruct Hf as [Hu Hp]. destruct Hc as (Hce & Hch & Hcn).
    rewrite !too_long_false by trivial.
    unfold Sql.by_id. rewrite (existsb_false_notin Sql.id) by trivial.
    rewrite (existsb_false_notin Sql.profile_id) by trivial.
    cbn [orb]. eexists. split; [reflexivity|]. now split.
  - eexists. split; [reflexivity|]. now split.
Qed.

(** C7, amended.  For a registration that passes validation: if the store
    holds a user with that email (the same string in fallback mode; a
    string the collation of the database takes for the same in live mode)
    the answer is 409 Conflict and the store is what it was; if it holds
    none (and, in live mode, the ids drawn are fresh and email, hash and
    name fit their columns) the answer is 201 and the store now holds a
    user with that email, so that registering the same email again is a
    conflict. *)
Theorem register_email_unique (m : Mode) (env : UserEnv)
    (userId profileId salt : string) (now iat : Z) (b : RegisterBody)
    (w : UserWorld) (cred : Credentials) :
  registerSchema_validate env b = inr cred ->
  (email_taken m env (c_email cred) w = true ->
   register m env userId profileId salt now iat b w = (Conflict, w))
  /\ (email_taken m env (c_email cred) w = false ->
      ids_fresh m userId profileId w ->
      columns_hold m env salt cred ->
      exists r w',
        register m env userId profileId salt now iat b w = (Created r, w')
        /\ user_email r = val (c_email cred)
        /\ email_taken m env (c_email cred) w' = true
        /\ forall userId' profileId' salt' now' iat',
             register m env userId' profileId' salt' now' iat' b w'
             = (Conflict, w')).
Proof.
  intros Hv. split.
  - now apply register_conflict.
  - intros Ht Hf Hc.
    destruct (register_created m env userId profileId salt now iat b w cred
                Hv Ht Hf Hc) as (r & Hr & _ & He).
    exists r. eexists. split; [exact Hr|]. split; [exact He|].
    split; [apply email_taken_after|].
    intros. apply (register_conflict m env _ _ _ _ _ b _ cred Hv).
    apply email_taken_after.
Qed.

Lemma register_email_unique_witness :
  register Fallback sample_env "u2" "p2" "$2a$10$" 6 6 ann
    (ann_registered Fallback)
  = (Conflict, ann_registered Fallback).
Proof.
  apply (register_email_unique Fallback sample_env "u2" "p2" "$2a$10$" 6 6
           ann (ann_registered Fallback)
           {| c_email := "ann@example.org"; c_password := "secret";
              c_name := "Ann"; c_age := None |}); reflexivity.
Defined.

(** C7, as stated, fails in fallback mode for emails that differ in case
    only, which the specification takes for one email: after Ann has
    registered, a registration under the same email in capitals is answered
    201 and a second user is stored, where live mode under a
    case-insensitive collation answers 409. *)
Lemma fallback_accepts_case_variant :
  ascii_lowercase "ANN@example.org" = "ann@example.org"
  /\ stored_emails Fallback (ann_registered Fallback)
     = [val "ann@example.org"]
  /\ (exists r w',
        register Fallback sample_env "u2" "p2" "$2a$10$" 6 6 ANN
          (ann_registered Fallback) = (Created r, w')
        /\ stored_emails Fallback w'
           = [val "ann@example.org"; val "ANN@example.org"])
  /\ register Live sample_env "u2" "p2" "$2a$10$" 6 6 ANN
       (ann_registered Live)
     = (Conflict, ann_registered Live).
Proof.
  split; [reflexivity|]. split; [reflexivity|].
  split; [do 2 eexists; split; reflexivity|]. reflexivity.
Qed.

(** ** Typed parameters *)

Lemma cents_sign (q : Q) :
  inject_Z (Sql.cents q)
  == (if Qle_bool 0 q then 1 else - (1))
     * inject_Z (Qfloor (Qabs q * 100 + (1 # 2))).
Proof.
  unfold Sql.cents. rewrite inject_Z_mult.
  assert (0 <= Qabs q * 100 + (1 # 2)) as Hnn.
  { pose proof (Qabs_nonneg q). lra. }
  destruct (Qle_bool 0 q) eqn:E.
  - apply Qle_bool_iff in E.
    destruct (Qeq_dec q 0) as [Hz|Hnz].
    + assert (Qfloor (Qabs q * 100 + (1 # 2)) = 0%Z) as ->.
      { rewrite Hz. reflexivity. }
      change (inject_Z 0) with 0. ring.
    + assert (0 < q) as Hpos by lra.
      assert (Z.sgn (Qnum q) = 1%Z) as ->; [|reflexivity].
      apply Z.sgn_pos. unfold Qlt in Hpos. simpl in Hpos. lia.
  - assert (q < 0) as Hneg.
    { apply Qnot_le_lt. intros H. apply Qle_bool_iff in H. congruence. }
    assert (Z.sgn (Qnum q) = (-1)%Z) as ->; [|reflexivity].
    apply Z.sgn_neg. unfold Qlt in Hneg. simpl in Hneg. lia.
Qed.

Lemma Qfloor_half (a : Q) :
  0 <= a ->
  0 <= inject_Z (Qfloor (a + (1 # 2)))
  /\ Qabs (inject_Z (Qfloor (a + (1 # 2))) - a) <= 1 # 2.
Proof.
  intros Ha.
  pose proof (Qfloor_le (a + (1 # 2))) as Hle.
  pose proof (Qlt_floor (a + (1 # 2))) as Hlt.
  rewrite inject_Z_plus in Hlt.
  assert (0 <= Qfloor (a + (1 # 2)))%Z as Hz.
  { change 0%Z with (Qfloor 0). apply Qfloor_resp_le. lra. }
  split.
  - change 0 with (inject_Z 0). now rewrite <- Zle_Qle.
  - apply Qabs_Qle_condition. change (inject_Z 1) with 1 in Hlt.
    split; lra.
Qed.

Lemma Qmake_100 (n : Z) : n # 100 == inject_Z n * (1 # 100).
Proof. unfold Qeq, Qmult, inject_Z. simpl. lia. Qed.

Lemma cents_nearest (q : Q) : nearest_hundredth q (Sql.cents q # 100).
Proof.
  exists (Sql.cents q). split; trivial.
  rewrite Qmake_100, cents_sign.
  assert (0 <= Qabs q * 100) as Ha by (pose proof (Qabs_nonneg q); lra).
  destruct (Qfloor_half _ Ha) as [Hn Hd].
  set (n := inject_Z (Qfloor (Qabs q * 100 + (1 # 2)))) in *.
  apply Qabs_Qle_condition in Hd. destruct Hd as [Hd1 Hd2].
  apply Qabs_Qle_condition.
  destruct (Qle_bool 0 q) eqn:E.
  - apply Qle_bool_iff in E. rewrite (Qabs_pos q E) in Hd1, Hd2.
    split; lra.
  - assert (q <= 0) as Hneg.
    { apply Qlt_le_weak, Qnot_le_lt. intros H.
      apply Qle_bool_iff in H. congruence. }
    rewrite (Qabs_neg q Hneg) in Hd1, Hd2.
    split; lra.
Qed.

Lemma cents_bound (q : Q) :
  (Z.abs (Sql.cents q) <? 10000000000)%Z = true
  <-> Qabs q < 99999999995 # 1000.
Proof.
  rewrite Z.ltb_lt.
  assert (0 <= Qabs q * 100) as Ha by (pose proof (Qabs_nonneg q); lra).
  pose proof (Qfloor_le (Qabs q * 100 + (1 # 2))) as Hle.
  pose proof (Qlt_floor (Qabs q * 100 + (1 # 2))) as Hlt.
  assert (0 <= Qfloor (Qabs q * 100 + (1 # 2)))%Z as Hz.
  { change 0%Z with (Qfloor 0). apply Qfloor_resp_le. lra. }
  assert (Z.abs (Sql.cents q) = Qfloor (Qabs q * 100 + (1 # 2))
          \/ (q == 0 /\ Sql.cents q = 0%Z)) as Habs.
  { unfold Sql.cents.
    destruct (Z.sgn_spec (Qnum q)) as [[Hs ->]|[[Hs ->]|[Hs ->]]].
    - left. lia.
    - right. split; [|lia]. unfold Qeq. simpl. lia.
    - left. lia. }
  set (n := Qfloor (Qabs q * 100 + (1 # 2))) in *.
  rewrite inject_Z_plus in Hlt. change (inject_Z 1) with 1 in Hlt.
  destruct Habs as [->|[Hq ->]].
  - split.
    + intros H.
      assert (inject_Z n + 1 <= 10000000000 # 1) as Hn1.
      { change 1 with (inject_Z 1). rewrite <- inject_Z_plus.
        change (10000000000 # 1) with (inject_Z 10000000000).
        rewrite <- Zle_Qle. lia. }
      lra.
    + intros H. rewrite Zlt_Qlt.
      change (inject_Z 10000000000) with (10000000000 # 1). lra.
  - split; [|intros _; simpl; lia]. intros _. rewrite Hq. reflexivity.
Qed.

Lemma bind_decimal_fits (x : Js Q) :
  is_decimal_10_2 x ->
  exists p, Sql.bind_decimal x = Some p
            /\ forall old, given_decimal x old (Sql.COALESCE_null p old).
Proof.
  destruct x as [| |q]; simpl.
  - intros _. exists None. split; trivial.
  - intros _. exists None. split; trivial.
  - intros H. apply cents_bound in H. rewrite H.
    exists (Some (Sql.cents q # 100)). split; trivial.
    intros old. exists (Sql.cents q # 100). split; trivial.
    apply cents_nearest.
Qed.

Lemma bind_decimal_overflow (x : Js Q) :
  ~ is_decimal_10_2 x -> Sql.bind_decimal x = None.
Proof.
  destruct x as [| |q]; simpl; try tauto.
  intros H. destruct (Z.abs (Sql.cents q) <? 10000000000)%Z eqn:E; trivial.
  apply cents_bound in E. contradiction.
Qed.

Lemma bind_int_fits (x : Js Z) :
  is_int32 x -> Sql.bind_int x = Some (Sql.param x).
Proof.
  destruct x as [| |z]; simpl; trivial. intros H.
  replace ((-2147483648 <=? z)%Z && (z <=? 2147483647)%Z) with true;
    trivial.
  symmetry. apply andb_true_iff. lia.
Qed.

Lemma bind_int_overflow (x : Js Z) :
  ~ is_int32 x -> Sql.bind_int x = None /\ defined x = true.
Proof.
  destruct x as [| |z]; simpl; try tauto. intros H.
  destruct ((-2147483648 <=? z)%Z && (z <=? 2147483647)%Z) eqn:E;
    [|now split].
  apply andb_true_iff in E. lia.
Qed.

(** ** Partial updates of a user and its profile *)

Lemma Forall2_map_self {A : Type} (R : A -> A -> Prop) (f : A -> A) l :
  (forall x, R x (f x)) -> Forall2 R l (map f l).
Proof. intros H. induction l; simpl; constructor; auto. Qed.

Lemma too_long_short (x : Js string) :
  is_short x -> Sql.too_long (Sql.param x) = false.
Proof.
  destruct x as [| |s]; simpl; trivial. intros H. now apply Nat.ltb_ge.
Qed.

Lemma update_user_spec now g (b : ProfileUpdate) u :
  touches_user b = true ->
  user_updated g now b u
    (Sql.update_user now (Some g) (Sql.param (up_name b))
       (Sql.param (up_age b)) u).
Proof.
  intros Ht. unfold user_updated, Sql.update_user.
  rewrite Ht, andb_true_r. simpl.
  destruct (String.eqb (Sql.id u) g); trivial. simpl.
  repeat split; [destruct (up_name b) | destruct (up_age b)]; reflexivity.
Qed.

Lemma update_profile_spec now g (b : ProfileUpdate) pin plim p :
  touches_profile b = true ->
  (forall old, given_decimal (up_monthly_income b) old
                 (Sql.COALESCE_null pin old)) ->
  (forall old, given_decimal (up_spending_limit b) old
                 (Sql.COALESCE_null plim old)) ->
  profile_updated g now b p
    (Sql.update_profile now (Some g) pin (Sql.param (up_financial_goals b))
       plim p).
Proof.
  intros Ht Hin Hlim. unfold profile_updated, Sql.update_profile.
  rewrite Ht, andb_true_r. simpl.
  destruct (String.eqb (Sql.user_id p) g); trivial. simpl.
  repeat split; trivial.
  now destruct (up_financial_goals b).
Qed.

Lemma untouched_user id now b l :
  touches_user b = false -> Forall2 (user_updated id now b) l l.
Proof.
  intros Ht. induction l; constructor; trivial.
  unfold user_updated. now rewrite Ht, andb_false_r.
Qed.

Lemma untouched_profile id now b l :
  touches_profile b = false -> Forall2 (profile_updated id now b) l l.
Proof.
  intros Ht. induction l; constructor; trivial.
  unfold profile_updated. now rewrite Ht, andb_false_r.
Qed.

(** The two statements of PUT /profile/:id in live mode. *)
Lemma live_update_user_statement env newId now id b sqldb mockdb :
  pool_query Live env newId now UpdateUser
    {| in_email := undefined; in_password := undefined;
       in_name := up_name b; in_age := up_age b; in_id := val id;
       in_user_id := undefined; in_monthly_income := undefined;
       in_financial_goals := undefined; in_spending_limit := undefined |}
    {| sqlDatabase := sqldb; mockDatabase := mockdb |}
  = match Guid.cast id, Sql.bind_int (up_age b) with
    | Some g, Some page =>
        if Sql.too_long (Sql.param (up_name b))
           && existsb (Sql.by_id (Some g)) (Sql.users sqldb)
        then (None, {| sqlDatabase := sqldb; mockDatabase := mockdb |})
        else (Some [],
              {| sqlDatabase :=
                   {| Sql.users :=
                        map (Sql.update_user now (Some g)
                               (Sql.param (up_name b)) page)
                            (Sql.users sqldb);
                      Sql.user_profiles := Sql.user_profiles sqldb |};
                 mockDatabase := mockdb |})
    | _, _ => (None, {| sqlDatabase := sqldb; mockDatabase := mockdb |})
    end.
Proof.
  unfold pool_query.
  cbn [sqlDatabase mockDatabase Sql.query in_id in_age in_name
       Sql.bind_guid].
  destruct (Guid.cast id) as [g|]; cbn [option_map]; trivial.
  destruct (Sql.bind_int (up_age b)) as [page|]; trivial.
  now destruct (Sql.too_long _ && _).
Qed.

Lemma live_update_profile_statement env newId now id b sqldb mockdb :
  pool_query Live env newId now UpdateProfile
    {| in_email := undefined; in_password := undefined;
       in_name := undefined; in_age := undefined; in_id := undefined;
       in_user_id := val id; in_monthly_income := up_monthly_income b;
       in_financial_goals := up_financial_goals b;
       in_spending_limit := up_spending_limit b |}
    {| sqlDatabase := sqldb; mockDatabase := mockdb |}
  = match Guid.cast id, Sql.bind_decimal (up_monthly_income b),
          Sql.bind_decimal (up_spending_limit b) with
    | Some g, Some pin, Some plim =>
        (Some [],
         {| sqlDatabase :=
              {| Sql.users := Sql.users sqldb;
                 Sql.user_profiles :=
                   map (Sql.update_profile now (Some g) pin
                          (Sql.param (up_financial_goals b)) plim)
                       (Sql.user_profiles sqldb) |};
            mockDatabase := mockdb |})
    | _, _, _ => (None, {| sqlDatabase := sqldb; mockDatabase := mockdb |})
    end.
Proof.
  unfold pool_query.
  cbn [sqlDatabase mockDatabase Sql.query in_user_id in_monthly_income
       in_financial_goals in_spending_limit Sql.bind_guid].
  destruct (Guid.cast id) as [g|]; cbn [option_map]; trivial.
  destruct (Sql.bind_decimal (up_monthly_income b)) as [pin|]; trivial.
  now destruct (Sql.bind_decimal (up_spending_limit b)).
Qed.

(** PUT /profile/:id in live mode, by its two statements. *)
Lemma live_updateProfile env newId now id b sqldb mockdb :
  updateProfile Live env newId now id b
    {| sqlDatabase := sqldb; mockDatabase := mockdb |}
  = match (if touches_user b
           then pool_query Live env newId now UpdateUser
                  {| in_email := undefined; in_password := undefined;
                     in_name := up_name b; in_age := up_age b;
                     in_id := val id; in_user_id := undefined;
                     in_monthly_income := undefined;
                     in_financial_goals := undefined;
                     in_spending_limit := undefined |}
                  {| sqlDatabase := sqldb; mockDatabase := mockdb |}
           else (Some [], {| sqlDatabase := sqldb;
                             mockDatabase := mockdb |})) with
    | (None, w) => (InternalError, w)
    | (Some _, w) =>
        match (if touches_profile b
               then pool_query Live env newId now UpdateProfile
                      {| in_email := undefined; in_password := undefined;
                         in_name := undefined; in_age := undefined;
                         in_id := undefined; in_user_id := val id;
                         in_monthly_income := up_monthly_income b;
                         in_financial_goals := up_financial_goals b;
                         in_spending_limit := up_spending_limit b |} w
               else (Some [], w)) with
        | (None, w) => (InternalError, w)
        | (Some _, w) => (Ok tt, w)
        end
    end.
Proof. reflexivity. Qed.

Lemma fallback_updateProfile env newId now id b w :
  updateProfile Fallback env newId now id b w = (Ok tt, w).
Proof.
  unfold updateProfile, pool_query. destruct w as [sqldb mockdb].
  cbn [mockDatabase sqlDatabase].
  destruct (touches_user b), (touches_profile b);
    rewrite ?(mock_update newId now UpdateUser) by (now left);
    rewrite ?(mock_update newId now UpdateProfile) by (now right);
    reflexivity.
Qed.

(** C6, amended.  In live mode, for an id that is a GUID, an age that is an
    [INT], a name of at most 255 characters and amounts a [DECIMAL(10,2)]
    holds, PUT /profile/:id answers 200 and, row by row: when the user
    statement is issued (a non-empty name or any age was sent) the row of
    that id takes the name and the age that were sent with a value, keeps
    the one sent as null or left out, and gets the current time as
    [updated_at]; every other column and every other row is as before;
    likewise for the profile statement (issued when any of the three
    profile fields was sent) and the profile row of that user, an amount
    being stored as the nearest number of hundredths.  An id that is no
    GUID (when a statement is issued), an age outside [INT] or an amount
    outside [DECIMAL(10,2)] is answered 500.  In fallback mode the answer is
    200 and the store is left as it was. *)
Theorem merge_on_present (env : UserEnv) (newId : string) (now : Z)
    (id : string) (b : ProfileUpdate) (w : UserWorld) :
  (forall g,
     Guid.cast id = Some g ->
     is_int32 (up_age b) -> is_short (up_name b) ->
     is_decimal_10_2 (up_monthly_income b) ->
     is_decimal_10_2 (up_spending_limit b) ->
     exists w',
       updateProfile Live env newId now id b w = (Ok tt, w')
       /\ Forall2 (user_updated g now b)
            (Sql.users (sqlDatabase w)) (Sql.users (sqlDatabase w'))
       /\ Forall2 (profile_updated g now b)
            (Sql.user_profiles (sqlDatabase w))
            (Sql.user_profiles (sqlDatabase w'))
       /\ mockDatabase w' = mockDatabase w)
  /\ (Guid.cast id = None ->
      touches_user b || touches_profile b = true ->
      updateProfile Live env newId now id b w = (InternalError, w))
  /\ (~ is_int32 (up_age b) ->
      updateProfile Live env newId now id b w = (InternalError, w))
  /\ (~ is_decimal_10_2 (up_monthly_income b)
      \/ ~ is_decimal_10_2 (up_spending_limit b) ->
      fst (updateProfile Live env newId now id b w) = InternalError)
  /\ updateProfile Fallback env newId now id b w = (Ok tt, w).
Proof.
  destruct w as [sqldb mockdb].
  split; [|split; [|split; [|split]]].
  - intros g Hg Hage Hname Hin Hlim.
    rewrite live_updateProfile, live_update_user_statement, Hg.
    rewrite (bind_int_fits _ Hage), (too_long_short _ Hname).
    cbn [andb].
    destruct (bind_decimal_fits _ Hin) as (pin & Epin & Hpin).
    destruct (bind_decimal_fits _ Hlim) as (plim & Eplim & Hplim).
    destruct (touches_user b) eqn:Hu, (touches_profile b) eqn:Hp;
      rewrite ?live_update_profile_statement, ?Hg, ?Epin, ?Eplim;
      eexists; (split; [reflexivity|]);
      cbn [sqlDatabase mockDatabase Sql.users Sql.user_profiles];
      repeat split.
    all: try (apply Forall2_map_self; intros; now apply update_user_spec).
    all: try (apply Forall2_map_self; intros;
              now apply update_profile_spec).
    all: try (now apply untouched_user).
    all: try (now apply untouched_profile).
  - intros Hg Ht.
    rewrite live_updateProfile, live_update_user_statement, Hg.
    destruct (touches_user b); trivial.
    simpl in Ht. rewrite Ht.
    now rewrite live_update_profile_statement, Hg.
  - intros Hage. apply bind_int_overflow in Hage.
    destruct Hage as [Hage Hdef].
    rewrite live_updateProfile, live_update_user_statement, Hage.
    unfold touches_user. rewrite Hdef, orb_true_r.
    now destruct (Guid.cast id).
  - intros Hbad.
    assert (Sql.bind_decimal (up_monthly_income b) = None
            \/ Sql.bind_decimal (up_spending_limit b) = None) as Hnone.
    { destruct Hbad as [H|H]; [left | right];
        now apply bind_decimal_overflow. }
    assert (touches_profile b = true) as Hp.
    { unfold touches_profile.
      destruct Hbad as [H|H];
        [destruct (up_monthly_income b) | destruct (up_spending_limit b)];
        simpl in H; try tauto; simpl; trivial.
      all: now rewrite ?orb_true_r. }
    rewrite live_updateProfile, Hp.
    destruct (if touches_user b then _ else _) as [[r|] w1]; trivial.
    destruct w1 as [sqldb1 mockdb1].
    rewrite live_update_profile_statement.
    destruct (Guid.cast id); trivial.
    destruct Hnone as [-> | ->]; trivial.
    now destruct (Sql.bind_decimal (up_monthly_income b)).
  - apply fallback_updateProfile.
Qed.

Lemma merge_on_present_witness :
  exists w',
    updateProfile Live sample_env "x" 9 (Guid.text "u1") rename
      (ann_registered Live) = (Ok tt, w')
    /\ Forall2 (user_updated (Guid.text "u1") 9 rename)
         (Sql.users (sqlDatabase (ann_registered Live)))
         (Sql.users (sqlDatabase w'))
    /\ Forall2 (profile_updated (Guid.text "u1") 9 rename)
         (Sql.user_profiles (sqlDatabase (ann_registered Live)))
         (Sql.user_profiles (sqlDatabase w'))
    /\ mockDatabase w' = mockDatabase (ann_registered Live).
Proof.
  apply (proj1 (merge_on_present sample_env "x" 9 (Guid.text "u1") rename
                  (ann_registered Live)) (Guid.text "u1"));
    first [ exact I | reflexivity | vm_compute; lia ].
Defined.

(** C6, as stated, fails in fallback mode: after Ann registers, a request
    that sends the name Bob and a monthly income of 2500 is answered 200 and
    changes nothing, where live mode stores both. *)
Lemma fallback_update_is_dropped :
  updateProfile Fallback sample_env "x" 9 "u1" rename
    (ann_registered Fallback) = (Ok tt, ann_registered Fallback)
  /\ option_map MockPool.name
       (dict_get "u1" (MockPool.users (mockDatabase (ann_registered Fallback))))
     = Some (val "Ann")
  /\ map Sql.name
       (Sql.users (sqlDatabase
          (snd (updateProfile Live sample_env "x" 9 (Guid.text "u1") rename
                  (ann_registered Live)))))
     = ["Bob"]
  /\ map Sql.monthly_income
       (Sql.user_profiles (sqlDatabase
          (snd (updateProfile Live sample_env "x" 9 (Guid.text "u1") rename
                  (ann_registered Live)))))
     = [Some (250000 # 100)].
Proof. repeat split; reflexivity. Qed.

(** ** The profile lookup *)

Lemma find_filter_hd {A : Type} (p : A -> bool) l :
  List.find p l = match filter p l with [] => None | x :: _ => Some x end.
Proof.
  induction l as [|x r IH]; simpl; trivial.
  destruct (p x); trivial.
Qed.

Lemma filter_nil_false {A : Type} (p : A -> bool) l :
  filter p l = [] -> forall x, In x l -> p x = false.
Proof.
  induction l as [|y r IH]; simpl; [intros _ x []|].
  destruct (p y) eqn:E; [discriminate|].
  intros H x [<-|Hin]; auto.
Qed.

Lemma filter_hd_In {A : Type} (p : A -> bool) l x r :
  filter p l = x :: r -> In x l /\ p x = true.
Proof.
  intros H. apply filter_In. rewrite H. now left.
Qed.

Lemma live_getProfile env newId now id w :
  getProfile Live env newId now id w
  = match Guid.cast id with
    | None => InternalError
    | Some g =>
        match filter (fun u => Sql.by_id (Some g) u && Sql.is_active u)
                (Sql.users (sqlDatabase w)) with
        | [] => NotFound
        | u :: _ =>
            let p := List.find
                       (fun p => String.eqb (Sql.id u) (Sql.user_id p))
                       (Sql.user_profiles (sqlDatabase w)) in
            Ok {| pv_id := val (Sql.id u); pv_email := val (Sql.email u);
                  pv_name := val (Sql.name u);
                  pv_age := Sql.column (Sql.age u);
                  pv_created_at := val (Sql.created_at u);
                  pv_profile :=
                    match p with
                    | Some p =>
                        {| pf_monthly_income :=
                             Sql.column (Sql.monthly_income p);
                           pf_financial_goals :=
                             Sql.column (Sql.financial_goals p);
                           pf_spending_limit :=
                             Sql.column (Sql.spending_limit p) |}
                    | None =>
                        {| pf_monthly_income := null;
                           pf_financial_goals := null;
                           pf_spending_limit := null |}
                    end |}
        end
    end.
Proof.
  unfold getProfile, pool_query.
  cbn [Sql.query with_id in_id Sql.bind_guid].
  destruct (Guid.cast id) as [g|]; cbn [option_map]; trivial.
  unfold Sql.left_join.
  destruct (filter _ (Sql.users (sqlDatabase w))) as [|u us]; trivial.
  simpl. rewrite find_filter_hd.
  destruct (filter _ (Sql.user_profiles (sqlDatabase w))) as [|p ps];
    reflexivity.
Qed.

Lemma dict_set_values_Forall {V : Type} (P : V -> Prop) k v (d : Dict V) :
  P v -> Forall P (dict_values d) -> Forall P (dict_values (dict_set k v d)).
Proof.
  intros Hv. induction d as [|[k' v'] r IH]; simpl; intros H.
  - now constructor.
  - inversion H; subst.
    destruct (String.eqb k' k); simpl; constructor; auto.
Qed.

Lemma mock_users_stay_active newId now q i db :
  Forall (fun u => MockPool.is_active u = true)
    (dict_values (MockPool.users db)) ->
  Forall (fun u => MockPool.is_active u = true)
    (dict_values (MockPool.users (snd (MockPool.query newId now q i db)))).
Proof.
  intros H. unfold MockPool.query.
  destruct (includes "SELECT" q && includes "users" q && includes "email" q).
  { now destruct (List.find _ _). }
  destruct (includes "INSERT INTO users" q).
  { simpl. now apply dict_set_values_Forall. }
  destruct (includes "INSERT INTO user_profiles" q); trivial.
  destruct (includes "SELECT" q && includes "user_profiles" q); trivial.
  now destruct (MockPool.users_get _ _).
Qed.

(** C5, amended.  In live mode the profile lookup answers 500 for an id
    that is no GUID; for an id that is one it answers 404 exactly when no
    active user has the id, and otherwise answers with the columns of that
    user and the three profile fields of its profile row, each [null] where
    the row holds no value, and all three [null] when the user has no
    profile row.  In fallback mode the join branch of the mock pool, which
    answers the statistics statement, hands back the stored user of that id
    merged with monthly income, spending limit and financial goals, putting
    0, 0 and [null] when no profile row exists; it does not look at
    [is_active], and every user the mock pool stores is active. *)
Theorem profile_lookup (env : UserEnv) (newId : string) (now : Z)
    (id : string) (w : UserWorld) :
  let users := Sql.users (sqlDatabase w) in
  let profiles := Sql.user_profiles (sqlDatabase w) in
  let mock := mockDatabase w in
  (Guid.cast id = None -> getProfile Live env newId now id w = InternalError)
  /\ (forall g,
        Guid.cast id = Some g ->
        (getProfile Live env newId now id w = NotFound
         <-> forall u, In u users -> Sql.id u = g -> Sql.is_active u = false)
        /\ (forall v,
              getProfile Live env newId now id w = Ok v ->
              exists u,
                In u users /\ Sql.id u = g /\ Sql.is_active u = true
                /\ pv_id v = val g /\ pv_email v = val (Sql.email u)
                /\ pv_name v = val (Sql.name u)
                /\ pv_age v = Sql.column (Sql.age u)
                /\ pv_created_at v = val (Sql.created_at u)
                /\ match List.find (fun p => String.eqb g (Sql.user_id p))
                           profiles with
                   | Some p =>
                       pv_profile v
                       = {| pf_monthly_income :=
                              Sql.column (Sql.monthly_income p);
                            pf_financial_goals :=
                              Sql.column (Sql.financial_goals p);
                            pf_spending_limit :=
                              Sql.column (Sql.spending_limit p) |}
                   | None =>
                       pv_profile v
                       = {| pf_monthly_income := null;
                            pf_financial_goals := null;
                            pf_spending_limit := null |}
                   end)
        /\ getProfile Live env newId now id w <> InternalError)
  /\ (forall u,
        dict_get id (MockPool.users mock) = Some u ->
        exists row,
          MockPool.query newId now (queryString SelectStats) (with_id id)
            mock = ([row], mock)
          /\ col_id row = val (MockPool.id u)
          /\ col_email row = MockPool.email u
          /\ col_name row = MockPool.name u
          /\ col_age row = MockPool.age u
          /\ col_financial_goals row = null
          /\ match List.find
                     (fun p => strict_eq String.eqb (MockPool.user_id p)
                                 (val id))
                     (dict_values (MockPool.user_profiles mock)) with
             | Some p =>
                 col_monthly_income row
                 = val (or_zero (val (MockPool.monthly_income p)))
                 /\ col_spending_limit row
                    = val (or_zero (val (MockPool.spending_limit p)))
             | None =>
                 col_monthly_income row = val 0
                 /\ col_spending_limit row = val 0
             end)
  /\ (dict_get id (MockPool.users mock) = None ->
      MockPool.query newId now (queryString SelectStats) (with_id id) mock
      = ([], mock))
  /\ (forall q i,
        Forall (fun u => MockPool.is_active u = true)
          (dict_values (MockPool.users mock)) ->
        Forall (fun u => MockPool.is_active u = true)
          (dict_values
             (MockPool.users (snd (MockPool.query newId now q i mock))))).
Proof.
  intros users profiles mock.
  rewrite live_getProfile. fold users profiles.
  split; [now intros ->|]. split.
  - intros g ->.
    destruct (filter (fun u => Sql.by_id (Some g) u && Sql.is_active u)
                users) as [|u0 us] eqn:Ef.
    + split; [|split; discriminate].
      split; trivial. intros _ u Hin Hid.
      pose proof (filter_nil_false _ _ Ef u Hin) as Hp. simpl in Hp.
      apply String.eqb_eq in Hid. now rewrite Hid in Hp.
    + destruct (filter_hd_In _ _ _ _ Ef) as [Hin Hp]. simpl in Hp.
      apply andb_true_iff in Hp. destruct Hp as [Hid Hact].
      apply String.eqb_eq in Hid.
      split; [|split; [|discriminate]].
      * split; [discriminate|]. intros H.
        rewrite (H u0 Hin Hid) in Hact. discriminate.
      * intros v Hv. injection Hv as <-. exists u0. simpl.
        rewrite Hid. repeat split; trivial.
        now destruct (List.find _ profiles).
  - repeat split.
    + intros u Hu. rewrite mock_select_stats. simpl. rewrite Hu.
      eexists. split; [reflexivity|]. simpl. repeat split.
      now destruct (List.find _ _).
    + intros Hn. rewrite mock_select_stats. simpl. now rewrite Hn.
    + intros q i. apply mock_users_stay_active.
Qed.

(** C5, as stated, fails in live mode: for an active user with no profile
    row the lookup answers with [null] for monthly income and spending
    limit, not 0. *)
Lemma live_lookup_without_profile_row :
  getProfile Live sample_env "x" 9 (Guid.text "u1") ann_without_profile
  = Ok {| pv_id := val (Guid.text "u1"); pv_email := val "ann@example.org";
          pv_name := val "Ann"; pv_age := null; pv_created_at := val 5%Z;
          pv_profile := {| pf_monthly_income := null;
                           pf_financial_goals := null;
                           pf_spending_limit := null |} |}
  /\ (val 0 : Js Q) <> null.
Proof. split; [reflexivity | discriminate]. Qed.

(** In fallback mode the text of the profile lookup is answered by the
    lookup-by-email branch: whenever every stored user has an email, the
    handler answers 404, also for a user that is stored. *)
Lemma fallback_lookup_finds_nothing env newId now id w :
  Forall (fun u => MockPool.email u <> undefined)
    (dict_values (MockPool.users (mockDatabase w))) ->
  getProfile Fallback env newId now id w = NotFound.
Proof.
  intros H. unfold getProfile, pool_query.
  rewrite mock_select_profile, mock_select_by_email. simpl.
  replace (List.find _ (dict_values (MockPool.users (mockDatabase w))))
    with (@None MockPool.User); trivial.
  symmetry. induction H as [|u r Hu H IH]; simpl; trivial.
  destruct (MockPool.email u); simpl; trivial. congruence.
Qed.

(** * Further properties of the code *)

(** ** Looking a document up *)

Lemma adjustAmount_rest (v : Value) :
  v_userId (adjustAmount v) = v_userId v
  /\ v_description (adjustAmount v) = v_description v
  /\ v_category (adjustAmount v) = v_category v
  /\ v_date (adjustAmount v) = v_date v
  /\ v_tags (adjustAmount v) = v_tags v
  /\ v_isRecurring (adjustAmount v) = v_isRecurring v
  /\ v_recurringPeriod (adjustAmount v) = v_recurringPeriod v.
Proof.
  unfold adjustAmount.
  destruct (TxType_eqb (v_type v) expense && Qgtb (v_amount v) 0);
    [simpl; tauto|].
  destruct (TxType_eqb (v_type v) income && Qltb (v_amount v) 0);
    simpl; tauto.
Qed.

Lemma adjustAmount_nonzero (v : Value) :
  ~ v_amount v == 0 -> ~ v_amount (adjustAmount v) == 0.
Proof.
  intros Hnz. destruct (adjustAmount_sign v Hnz) as [Hi He].
  destruct (v_type (adjustAmount v)); [specialize (Hi eq_refl)
                                      | specialize (He eq_refl)]; lra.
Qed.

Lemma dict_get_None_iff {V : Type} k (d : Dict V) :
  dict_get k d = None <-> ~ In k (map fst d).
Proof.
  induction d as [|[k' v'] r IH]; simpl; [tauto|].
  destruct (String.eqb k' k) eqn:E.
  - apply String.eqb_eq in E. split; [discriminate | tauto].
  - apply String.eqb_neq in E. rewrite IH. tauto.
Qed.

Lemma dict_get_set_same {V : Type} k (v : V) (d : Dict V) :
  dict_get k (dict_set k v d) = Some v.
Proof.
  induction d as [|[k' v'] r IH]; simpl.
  - now rewrite String.eqb_refl.
  - destruct (String.eqb k' k) eqn:E; simpl; now rewrite E.
Qed.

Lemma dict_get_set_other {V : Type} k k' (v : V) (d : Dict V) :
  k' <> k -> dict_get k' (dict_set k v d) = dict_get k' d.
Proof.
  intros Hn. induction d as [|[k1 v1] r IH]; simpl.
  - apply String.eqb_neq in Hn. rewrite String.eqb_sym in Hn.
    now rewrite Hn.
  - destruct (String.eqb k1 k) eqn:E; simpl.
    + apply String.eqb_eq in E. subst k1.
      destruct (String.eqb k k') eqn:E'; trivial.
      apply String.eqb_eq in E'. congruence.
    + now rewrite IH.
Qed.

Lemma lookup_None_iff id c :
  LiveTransaction.lookup id c = None <-> ~ In id (map _id c).
Proof.
  unfold LiveTransaction.lookup.
  induction c as [|t r IH]; simpl; [tauto|].
  destruct (String.eqb (_id t) id) eqn:E.
  - apply String.eqb_eq in E. split; [discriminate | tauto].
  - apply String.eqb_neq in E. rewrite IH. tauto.
Qed.

Lemma lookup_app_new id c t :
  ~ In id (map _id c) -> _id t = id ->
  LiveTransaction.lookup id (c ++ [t]) = Some t.
Proof.
  unfold LiveTransaction.lookup. intros Hn Hid.
  induction c as [|x r IH]; simpl in *.
  - now rewrite Hid, String.eqb_refl.
  - destruct (String.eqb (_id x) id) eqn:E.
    + apply String.eqb_eq in E. tauto.
    + apply IH. tauto.
Qed.

Lemma lookup_app_other id id' c t :
  _id t = id -> id' <> id ->
  LiveTransaction.lookup id' (c ++ [t]) = LiveTransaction.lookup id' c.
Proof.
  unfold LiveTransaction.lookup. intros Hid Hn.
  apply String.eqb_neq in Hn. rewrite String.eqb_sym in Hn.
  induction c as [|x r IH]; simpl.
  - now rewrite Hid, Hn.
  - now destruct (String.eqb (_id x) id').
Qed.

Lemma lookup_id id c t :
  LiveTransaction.lookup id c = Some t -> _id t = id.
Proof.
  unfold LiveTransaction.lookup. intros H. apply find_some in H.
  now apply String.eqb_eq.
Qed.

Lemma lookup_replace_same id t' c :
  LiveTransaction.lookup id c <> None -> _id t' = id ->
  LiveTransaction.lookup id (LiveTransaction.replace id t' c) = Some t'.
Proof.
  unfold LiveTransaction.lookup. intros H Hid.
  induction c as [|x r IH]; simpl in *; [congruence|].
  destruct (String.eqb (_id x) id) eqn:E; simpl.
  - now rewrite Hid, String.eqb_refl.
  - rewrite E. now apply IH.
Qed.

Lemma lookup_replace_other id id' t' c :
  _id t' = id -> id' <> id ->
  LiveTransaction.lookup id' (LiveTransaction.replace id t' c)
  = LiveTransaction.lookup id' c.
Proof.
  unfold LiveTransaction.lookup. intros Hid Hn.
  apply String.eqb_neq in Hn. rewrite String.eqb_sym in Hn.
  induction c as [|x r IH]; simpl; trivial.
  destruct (String.eqb (_id x) id) eqn:E; simpl.
  - apply String.eqb_eq in E. now rewrite Hid, E, Hn.
  - now rewrite IH.
Qed.

Lemma replace_ids id t' c :
  _id t' = id ->
  map _id (LiveTransaction.replace id t' c) = map _id c.
Proof.
  intros Hid. induction c as [|x r IH]; simpl; trivial.
  destruct (String.eqb (_id x) id) eqn:E; simpl.
  - apply String.eqb_eq in E. congruence.
  - now rewrite IH.
Qed.

Lemma dict_set_keys {V : Type} k (v : V) (d : Dict V) :
  dict_get k d <> None -> map fst (dict_set k v d) = map fst d.
Proof.
  induction d as [|[k' v'] r IH]; simpl; [congruence|].
  destruct (String.eqb k' k) eqn:E; simpl; trivial.
  intros H. now rewrite IH.
Qed.

Lemma remove_other id id' c :
  id' <> id ->
  LiveTransaction.lookup id' (LiveTransaction.remove id c)
  = LiveTransaction.lookup id' c.
Proof.
  unfold LiveTransaction.lookup. intros Hn.
  induction c as [|x r IH]; simpl; trivial.
  destruct (String.eqb (_id x) id) eqn:E; simpl.
  - apply String.eqb_eq in E.
    destruct (String.eqb (_id x) id') eqn:E'; trivial.
    apply String.eqb_eq in E'. congruence.
  - now rewrite IH.
Qed.

Lemma remove_ids id c :
  In id (map _id c) ->
  (List.length (LiveTransaction.remove id c) + 1 = List.length c)%nat
  /\ (NoDup (map _id c) -> ~ In id (map _id (LiveTransaction.remove id c))).
Proof.
  induction c as [|x r IH]; simpl; [intros []|].
  destruct (String.eqb (_id x) id) eqn:E.
  - apply String.eqb_eq in E. intros _. split; [lia|].
    intros Hnd. inversion Hnd; subst. trivial.
  - apply String.eqb_neq in E. intros [H|H]; [contradiction|].
    destruct (IH H) as [Hl Hnd]. simpl. split; [lia|].
    intros Hn. inversion Hn; subst. intros [H'|H']; [contradiction|].
    now apply Hnd.
Qed.

Lemma dict_delete_other {V : Type} k k' (d : Dict V) :
  k' <> k -> dict_get k' (dict_delete k d) = dict_get k' d.
Proof.
  intros Hn. induction d as [|[k1 v1] r IH]; simpl; trivial.
  destruct (String.eqb k1 k) eqn:E; simpl.
  - apply String.eqb_eq in E. subst k1.
    destruct (String.eqb k k') eqn:E'; trivial.
    apply String.eqb_eq in E'. congruence.
  - now rewrite IH.
Qed.

Lemma dict_delete_keys {V : Type} k (d : Dict V) :
  In k (map fst d) ->
  (List.length (map fst (dict_delete k d)) + 1
   = List.length (map fst d))%nat
  /\ (NoDup (map fst d) -> ~ In k (map fst (dict_delete k d))).
Proof.
  induction d as [|[k1 v1] r IH]; simpl; [intros []|].
  destruct (String.eqb k1 k) eqn:E.
  - apply String.eqb_eq in E. intros _. split; [lia|].
    intros Hnd. inversion Hnd; subst. trivial.
  - apply String.eqb_neq in E. intros [H|H]; [contradiction|].
    destruct (IH H) as [Hl Hnd]. simpl. split; [lia|].
    intros Hn. inversion Hn; subst. intros [H'|H']; [contradiction|].
    now apply Hnd.
Qed.

Lemma replace_Forall (P : Transaction -> Prop) id t' c :
  P t' -> Forall P c -> Forall P (LiveTransaction.replace id t' c).
Proof.
  intros Ht H. induction H as [|x r Hx H IH]; simpl; [constructor|].
  destruct (String.eqb (_id x) id); constructor; trivial.
Qed.

Lemma remove_Forall (P : Transaction -> Prop) id c :
  Forall P c -> Forall P (LiveTransaction.remove id c).
Proof.
  intros H. induction H as [|x r Hx H IH]; simpl; [constructor|].
  destruct (String.eqb (_id x) id); [|constructor]; trivial.
Qed.

Lemma dict_delete_Forall {V : Type} (P : V -> Prop) k (d : Dict V) :
  Forall P (dict_values d) -> Forall P (dict_values (dict_delete k d)).
Proof.
  induction d as [|[k' v'] r IH]; simpl; intros H; [constructor|].
  inversion H; subst.
  destruct (String.eqb k' k); [|constructor]; auto.
Qed.

Lemma validated_sign_ok b v t :
  transactionSchema_validate b = inr v ->
  amount t = v_amount (adjustAmount v) -> type t = v_type (adjustAmount v) ->
  sign_ok t.
Proof.
  intros Hv Ha Ht. rewrite adjustAmount_type in Ht.
  now destruct (sign_ok_of_value t v Ha Ht (validate_amount_nonzero b v Hv)).
Qed.

(** ** Creating a transaction *)

Lemma live_getTransaction id w :
  getTransaction Live id w
  = match ObjectId.cast id with
    | None => InternalError
    | Some oid =>
        match LiveTransaction.lookup oid (collection w) with
        | Some t => Ok t
        | None => NotFound
        end
    end.
Proof.
  unfold getTransaction, Transaction_findById, LiveTransaction.findById.
  cbn [Transaction_export]. now destruct (ObjectId.cast id).
Qed.

Lemma mock_getTransaction id w :
  getTransaction Fallback id w
  = match dict_get id (mockTransactions w) with
    | Some t => Ok t
    | None => NotFound
    end.
Proof. reflexivity. Qed.


(** X3.  A transaction that was just created is found under its id: GET
    /:id hands back the record of the 201 answer, and so does every id that
    names it; every id that does not answers as before.  In live mode the
    id made has to be new; the map of the mock takes any id. *)
Theorem create_then_get (m : Mode) (env : LiveEnv) (drawn : string)
    (now : Z) (b : Body) (w w' : World) (t : Transaction) :
  createTransaction m env drawn now b w = (Created t, w') ->
  (m = Live -> ~ In (new_id m drawn) (stored_ids m w)) ->
  getTransaction m (new_id m drawn) w' = Ok t
  /\ (forall id, names_id m id (new_id m drawn) ->
                 getTransaction m id w' = Ok t)
  /\ (forall id, ~ names_id m id (new_id m drawn) ->
                 getTransaction m id w' = getTransaction m id w).
Proof.
  unfold createTransaction.
  destruct (transactionSchema_validate b) as [e|v]; [discriminate|].
  unfold Transaction_create, new_id.
  destruct m; cbn [shouldUseMock Transaction_export names_id].
  - unfold LiveTransaction.save.
    destruct (LiveTransaction.validateSync _); [|discriminate].
    intros H Hn. injection H as <- <-. specialize (Hn eq_refl).
    rewrite !live_getTransaction.
    unfold with_collection. cbn [collection stored_ids] in *.
    assert (forall id, ObjectId.cast id = Some (ObjectId.text drawn) ->
              getTransaction Live id
                {| collection :=
                     collection w
                     ++ [LiveTransaction.new env drawn now (adjustAmount v)];
                   mockTransactions := mockTransactions w |}
              = Ok (LiveTransaction.new env drawn now (adjustAmount v)))
      as Hnamed.
    { intros id Hc. rewrite live_getTransaction, Hc. cbn [collection].
      now rewrite lookup_app_new. }
    split; [|split].
    + rewrite <- (Hnamed (ObjectId.text drawn)
                    (ObjectId_cast_text drawn)).
      now rewrite live_getTransaction.
    + exact Hnamed.
    + intros id Hd. rewrite !live_getTransaction. cbn [collection].
      destruct (ObjectId.cast id) as [oid|]; trivial.
      rewrite (lookup_app_other (ObjectId.text drawn)); trivial.
      congruence.
  - intros H _. injection H as <- <-.
    rewrite !mock_getTransaction.
    unfold with_mock, MockTransaction.save.
    cbn [mockTransactions _id MockTransaction.new].
    split; [|split].
    + now rewrite dict_get_set_same.
    + intros id ->. rewrite mock_getTransaction. cbn [mockTransactions].
      now rewrite dict_get_set_same.
    + intros id Hd. rewrite !mock_getTransaction. cbn [mockTransactions].
      now rewrite dict_get_set_other.
Qed.

Lemma create_then_get_witness :
  getTransaction Fallback (new_id Fallback "t1")
    (snd (createTransaction Fallback sample_live "t1" 0 lunch empty_world))
  = Ok (MockTransaction.new "t1" 0
          (adjustAmount
             {| v_userId := "u1"; v_amount := 50; v_description := "lunch";
                v_category := food; v_type := expense; v_date := None;
                v_tags := None; v_isRecurring := None;
                v_recurringPeriod := None |})).
Proof.
  refine (proj1 (create_then_get Fallback sample_live "t1" 0 lunch
                   empty_world
                   (snd (createTransaction Fallback sample_live "t1" 0 lunch
                           empty_world)) _ _ _)).
  - reflexivity.
  - discriminate.
Defined.

(** ** Updating and deleting a transaction *)

Lemma live_updateTransaction env now id b w :
  updateTransaction Live env now id b w
  = match transactionSchema_validate b with
    | inl e => (BadRequest e, w)
    | inr v =>
        match ObjectId.cast id with
        | None => (InternalError, w)
        | Some oid =>
            if LiveTransaction.updateValidators (adjustAmount v) then
              match LiveTransaction.lookup oid (collection w) with
              | None => (NotFound, w)
              | Some old =>
                  let t := LiveTransaction.assign env now old
                             (adjustAmount v) in
                  (Ok t,
                   with_collection
                     (LiveTransaction.replace oid t (collection w)) w)
              end
            else (InternalError, w)
        end
    end.
Proof.
  unfold updateTransaction, Transaction_findByIdAndUpdate,
    LiveTransaction.findByIdAndUpdate.
  cbn [Transaction_export].
  destruct (transactionSchema_validate b) as [e|v]; trivial.
  destruct (ObjectId.cast id) as [oid|]; trivial.
  destruct (LiveTransaction.updateValidators _); trivial.
  now destruct (LiveTransaction.lookup oid (collection w)).
Qed.

Lemma mock_updateTransaction env now id b w :
  updateTransaction Fallback env now id b w
  = match transactionSchema_validate b with
    | inl e => (BadRequest e, w)
    | inr v =>
        match dict_get id (mockTransactions w) with
        | None => (NotFound, w)
        | Some old =>
            let t := MockTransaction.touch now
                       (MockTransaction.assign old (adjustAmount v)) in
            (Ok t, with_mock (dict_set id t (mockTransactions w)) w)
        end
    end.
Proof.
  unfold updateTransaction, Transaction_findByIdAndUpdate,
    MockTransaction.findByIdAndUpdate.
  cbn [Transaction_export].
  destruct (transactionSchema_validate b) as [e|v]; trivial.
  now destruct (dict_get id (mockTransactions w)).
Qed.

Lemma live_deleteTransaction id w :
  deleteTransaction Live id w
  = match ObjectId.cast id with
    | None => (InternalError, w)
    | Some oid =>
        match LiveTransaction.lookup oid (collection w) with
        | None => (NotFound, w)
        | Some _ =>
            (Ok tt,
             with_collection (LiveTransaction.remove oid (collection w)) w)
        end
    end.
Proof.
  unfold deleteTransaction, Transaction_findByIdAndDelete,
    LiveTransaction.findByIdAndDelete.
  cbn [Transaction_export].
  destruct (ObjectId.cast id) as [oid|]; trivial.
  now destruct (LiveTransaction.lookup oid (collection w)).
Qed.

Lemma mock_deleteTransaction id w :
  deleteTransaction Fallback id w
  = match dict_get id (mockTransactions w) with
    | None => (NotFound, w)
    | Some _ => (Ok tt, with_mock (dict_delete id (mockTransactions w)) w)
    end.
Proof.
  unfold deleteTransaction, Transaction_findByIdAndDelete,
    MockTransaction.findByIdAndDelete.
  cbn [Transaction_export].
  now destruct (dict_get id (mockTransactions w)).
Qed.

Lemma In_dec_lookup oid c :
  LiveTransaction.lookup oid c <> None -> In oid (map _id c).
Proof.
  intros H. destruct (in_dec string_dec oid (map _id c)); trivial.
  apply lookup_None_iff in n. congruence.
Qed.

Lemma In_dec_dict_get {V : Type} k (d : Dict V) :
  dict_get k d <> None -> In k (map fst d).
Proof.
  intros H. destruct (in_dec string_dec k (map fst d)); trivial.
  apply dict_get_None_iff in n. congruence.
Qed.


(** X5.  DELETE /:id answers 500 exactly in live mode for an id that is
    not one of the document store, and then leaves the store as it was.
    For an id that names a record id it answers 404, and leaves the store
    as it was, exactly when that id is not stored; otherwise it answers 200
    and the store holds one record less, and with distinct stored ids the
    id then answers 404.  Every id that does not name the same record
    answers as before. *)
Theorem delete_outcome (m : Mode) (id : string) (w : World) :
  let r := deleteTransaction m id w in
  (fst r = InternalError <-> m = Live /\ ObjectId.cast id = None)
  /\ (fst r <> Ok tt -> snd r = w)
  /\ (forall sid, names_id m id sid ->
        (fst r = NotFound <-> ~ In sid (stored_ids m w))
        /\ (fst r = Ok tt <-> In sid (stored_ids m w))
        /\ (In sid (stored_ids m w) ->
            (List.length (stored_ids m (snd r)) + 1
             = List.length (stored_ids m w))%nat
            /\ (NoDup (stored_ids m w) ->
                getTransaction m id (snd r) = NotFound)))
  /\ (forall id',
        (forall sid, names_id m id sid -> ~ names_id m id' sid) ->
        getTransaction m id' (snd r) = getTransaction m id' w).
Proof.
  destruct m; cbn zeta; cbn [stored_ids names_id].
  - rewrite live_deleteTransaction.
    destruct (ObjectId.cast id) as [oid|] eqn:Hc.
    2:{ cbn [fst snd]. repeat split; trivial; discriminate. }
    destruct (LiveTransaction.lookup oid (collection w)) as [old|] eqn:Ef;
      cbn [fst snd].
    + assert (In oid (map _id (collection w))) as Hin
        by (apply In_dec_lookup; congruence).
      split; [|split; [|split]].
      * split; [discriminate | intros [_ H]; discriminate].
      * intros H. now contradiction H.
      * intros sid Hs. injection Hs as <-. split; [|split].
        -- split; [discriminate | contradiction].
        -- tauto.
        -- intros _. unfold with_collection. cbn [collection].
           destruct (remove_ids oid (collection w) Hin) as [Hl Hnd].
           rewrite length_map in *. split; [rewrite length_map; lia|].
           intros H. rewrite live_getTransaction, Hc. cbn [collection].
           specialize (Hnd H). apply lookup_None_iff in Hnd.
           now rewrite Hnd.
      * intros id' Hn. rewrite !live_getTransaction.
        unfold with_collection. cbn [collection].
        destruct (ObjectId.cast id') as [oid'|]; trivial.
        rewrite remove_other; trivial.
        intros ->. now apply (Hn oid).
    + pose proof Ef as Hn. apply lookup_None_iff in Hn.
      split; [|split; [|split]]; trivial.
      * split; [discriminate | intros [_ H]; discriminate].
      * intros sid Hs. injection Hs as <-. split; [|split].
        -- tauto.
        -- split; [discriminate | contradiction].
        -- contradiction.
  - rewrite mock_deleteTransaction.
    destruct (dict_get id (mockTransactions w)) as [old|] eqn:Ef;
      cbn [fst snd].
    + assert (In id (map fst (mockTransactions w))) as Hin
        by (apply In_dec_dict_get; congruence).
      split; [|split; [|split]].
      * split; [discriminate | intros [H _]; discriminate].
      * intros H. now contradiction H.
      * intros sid <-. split; [|split].
        -- split; [discriminate | contradiction].
        -- tauto.
        -- intros _. unfold with_mock. cbn [mockTransactions].
           destruct (dict_delete_keys id (mockTransactions w) Hin)
             as [Hl Hnd].
           split; trivial.
           intros H. rewrite mock_getTransaction. cbn [mockTransactions].
           specialize (Hnd H). apply dict_get_None_iff in Hnd.
           now rewrite Hnd.
      * intros id' Hn. rewrite !mock_getTransaction.
        unfold with_mock. cbn [mockTransactions].
        rewrite dict_delete_other; trivial.
        intros ->. now apply (Hn id).
    + pose proof Ef as Hn. apply dict_get_None_iff in Hn.
      split; [|split; [|split]]; trivial.
      * split; [discriminate | intros [H _]; discriminate].
      * intros sid <-. split; [|split].
        -- tauto.
        -- split; [discriminate | contradiction].
        -- contradiction.
Qed.

(** ** The sign invariant over the life of a store *)

(** X6.  If every stored transaction has the sign of its type, so has every
    stored transaction after any create, update or delete request, whatever
    its answer. *)
Theorem sign_invariant_kept (m : Mode) (env : LiveEnv) (drawn : string)
    (now : Z) (id : string) (b : Body) (w : World) :
  Forall sign_ok (documents m w) ->
  Forall sign_ok (documents m (snd (createTransaction m env drawn now b w)))
  /\ Forall sign_ok (documents m (snd (updateTransaction m env now id b w)))
  /\ Forall sign_ok (documents m (snd (deleteTransaction m id w))).
Proof.
  intros H. split; [|split].
  - unfold createTransaction.
    destruct (transactionSchema_validate b) as [e|v] eqn:Hv; trivial.
    unfold Transaction_create.
    destruct m; cbn [shouldUseMock Transaction_export].
    + unfold LiveTransaction.save.
      destruct (LiveTransaction.validateSync _); trivial.
      cbn. apply Forall_app. split; trivial.
      constructor; [|constructor]. now apply (validated_sign_ok b v).
    + cbn. apply dict_set_values_Forall; trivial.
      now apply (validated_sign_ok b v).
  - destruct m.
    + rewrite live_updateTransaction.
      destruct (transactionSchema_validate b) as [e|v] eqn:Hv; trivial.
      destruct (ObjectId.cast id) as [oid|]; trivial.
      destruct (LiveTransaction.updateValidators _); trivial.
      destruct (LiveTransaction.lookup oid (collection w)); trivial.
      cbn. apply replace_Forall; trivial.
      now apply (validated_sign_ok b v).
    + rewrite mock_updateTransaction.
      destruct (transactionSchema_validate b) as [e|v] eqn:Hv; trivial.
      destruct (dict_get id (mockTransactions w)); trivial.
      cbn. apply dict_set_values_Forall; trivial.
      now apply (validated_sign_ok b v).
  - destruct m.
    + rewrite live_deleteTransaction.
      destruct (ObjectId.cast id) as [oid|]; trivial.
      destruct (LiveTransaction.lookup oid (collection w)); trivial.
      cbn. now apply remove_Forall.
    + rewrite mock_deleteTransaction.
      destruct (dict_get id (mockTransactions w)); trivial.
      cbn. now apply dict_delete_Forall.
Qed.

Lemma sign_invariant_kept_witness :
  Forall sign_ok
    (documents Fallback
       (snd (createTransaction Fallback sample_live "t1" 0 lunch seeded))).
Proof.
  refine (proj1 (sign_invariant_kept Fallback sample_live "t1" 0 "t1" lunch
                   seeded _)).
  vm_compute. repeat constructor; discriminate.
Defined.

(** ** The shape of the aggregations *)

Lemma Sorted_firstn {A : Type} (R : A -> A -> Prop) n l :
  Sorted R l -> Sorted R (firstn n l).
Proof.
  revert l. induction n as [|n IH]; intros l H; simpl; [constructor|].
  destruct H as [|x r Hs Hhd]; constructor; [now apply IH|].
  destruct Hhd; destruct n; simpl; constructor; trivial.
Qed.

Lemma NoDup_firstn {A : Type} n (l : list A) :
  NoDup l -> NoDup (firstn n l).
Proof.
  intros H. rewrite <- (firstn_skipn n l) in H.
  now apply NoDup_app_remove_r in H.
Qed.

Lemma Forall_firstn_keep {A : Type} (P : A -> Prop) n l :
  Forall P l -> Forall P (firstn n l).
Proof.
  intros H. rewrite <- (firstn_skipn n l) in H.
  now apply Forall_app in H.
Qed.

Lemma NoDup_types (l : list TxType) : NoDup l -> (List.length l <= 2)%nat.
Proof.
  intros H. destruct l as [|a [|b [|c r]]]; simpl; try lia.
  exfalso. inversion H as [|? ? Ha H']; subst.
  inversion H' as [|? ? Hb _]; subst.
  destruct a, b, c; simpl in *; tauto.
Qed.

(** Every group of a [$group] stage has a document. *)
Lemma groups_inhabited {K : Type} (eqb : K -> K -> bool)
    (key : Transaction -> K) l :
  (forall a b, eqb a b = true <-> a = b) ->
  NoDup (map fst (LiveTransaction.groups eqb key l))
  /\ Forall (fun g => (1 <= List.length (snd g))%nat
                      /\ snd g = filter (fun t => eqb (key t) (fst g)) l)
       (LiveTransaction.groups eqb key l).
Proof.
  intros Heq. split.
  - rewrite groups_keys. now apply distinct_NoDup.
  - unfold LiveTransaction.groups.
    apply Forall_forall. intros g Hg. apply in_map_iff in Hg.
    destruct Hg as (k & <- & Hk). simpl. split; trivial.
    apply (distinct_unseen eqb key Heq) in Hk.
    destruct Hk as (_ & u & Hu & Ek).
    assert (In u (filter (fun t => eqb (key t) k) l)) as Hin.
    { apply filter_In. split; trivial. now apply Heq. }
    destruct (filter _ l); [contradiction | simpl; lia].
Qed.

(** X8.  In either mode the summary by type has at most two groups, one per
    type that occurs among the user's transactions in the window and no
    type twice; each group counts at least one transaction, namely those of
    its type. *)
Theorem financial_summary_shape (m : Mode) (env : LiveEnv) (uid : string)
    (startDate endDate : Z) (w : World) :
  let docs := of_user_within uid startDate endDate (documents m w) in
  let groups := getFinancialSummary m env uid startDate endDate w in
  NoDup (map tg_id groups)
  /\ (List.length groups <= 2)%nat
  /\ (forall ty, In ty (map tg_id groups)
                 <-> exists t, In t docs /\ type t = ty)
  /\ Forall (fun g =>
       (1 <= count g)%nat
       /\ count g = List.length
                      (filter (fun t => TxType_eqb (type t) (tg_id g)) docs))
       groups.
Proof.
  intros docs groups.
  pose proof (financial_summary_groups m env uid startDate endDate w)
    as Hperm.
  rewrite in_window_within in Hperm. fold docs groups in Hperm.
  set (raw := LiveTransaction.groups TxType_eqb type docs) in Hperm.
  destruct (groups_inhabited TxType_eqb type docs TxType_eqb_eq)
    as [Hnd Hall].
  fold raw in Hnd, Hall.
  assert (map tg_id (map LiveTransaction.type_group raw) = map fst raw)
    as Hids by (rewrite map_map; reflexivity).
  pose proof (Permutation_map tg_id Hperm) as Hpid. rewrite Hids in Hpid.
  assert (NoDup (map tg_id groups)) as Hnd'
    by exact (Permutation_NoDup (Permutation_sym Hpid) Hnd).
  split; [exact Hnd'|]. split; [|split].
  - rewrite <- (length_map tg_id). now apply NoDup_types.
  - intros ty. split.
    + intros H. apply (Permutation_in _ Hpid) in H.
      unfold raw in H. rewrite groups_keys in H.
      apply (distinct_unseen TxType_eqb type TxType_eqb_eq) in H.
      destruct H as (_ & u & Hu & E). now exists u.
    + intros (t & Ht & <-).
      apply (Permutation_in _ (Permutation_sym Hpid)).
      unfold raw. rewrite groups_keys.
      apply (distinct_complete TxType_eqb type TxType_eqb_eq); trivial.
      intros [].
  - apply (Permutation_Forall (Permutation_sym Hperm)).
    apply Forall_map. eapply Forall_impl; [|exact Hall].
    intros g [Hlen Hg]. simpl. split; [exact Hlen|].
    now rewrite Hg at 1.
Qed.

(** X9.  In either mode the summary by category and type lists its groups
    from the greatest total down, no pair of category and type twice; every
    group counts at least one transaction and the counts add up to the
    number of the user's transactions in the window. *)
Theorem category_summary_shape (m : Mode) (env : LiveEnv) (uid : string)
    (startDate endDate : Z) (w : World) :
  let docs := of_user_within uid startDate endDate (documents m w) in
  let groups := getCategorySummary m env uid startDate endDate w in
  Sorted (fun a b => cg_total b <= cg_total a) groups
  /\ NoDup (map cg_id groups)
  /\ Forall (fun g => (1 <= cg_count g)%nat) groups
  /\ list_sum (map cg_count groups) = List.length docs.
Proof.
  intros docs groups.
  pose proof (category_summary_groups m env uid startDate endDate w)
    as Hperm.
  rewrite in_window_within in Hperm. fold docs groups in Hperm.
  set (key := fun t : Transaction => (category t, type t)) in Hperm.
  set (raw := LiveTransaction.groups LiveTransaction.pair_eqb key docs)
    in Hperm.
  destruct (groups_inhabited LiveTransaction.pair_eqb key docs pair_eqb_eq)
    as [Hnd Hall].
  fold raw in Hnd, Hall.
  apply Permutation_sym in Hperm.
  split; [|split; [|split]].
  - apply category_summary_sorted.
  - apply (Permutation_NoDup (Permutation_map cg_id Hperm)).
    rewrite map_map. exact Hnd.
  - apply (Permutation_Forall Hperm).
    apply Forall_map. eapply Forall_impl; [|exact Hall].
    now intros g [Hlen _].
  - rewrite <- (Permutation_list_sum (Permutation_map cg_count Hperm)).
    unfold raw, LiveTransaction.groups. rewrite !map_map. simpl.
    apply (distinct_partition LiveTransaction.pair_eqb key pair_eqb_eq).
Qed.

Lemma acc_sum_abs_nonneg (l : list Transaction) :
  0 <= LiveTransaction.acc_sum (fun t => Qabs (amount t)) l.
Proof.
  unfold LiveTransaction.acc_sum. rewrite fold_left_Qplus.
  induction l as [|t r IH]; simpl; [lra|].
  pose proof (Qabs_nonneg (amount t)). lra.
Qed.

Lemma Nat_leb_total (a b : nat) :
  (a <=? b)%nat = false -> (b <=? a)%nat = true.
Proof.
  intros H. apply Nat.leb_gt in H. apply Nat.leb_le. lia.
Qed.

(** X10.  The category ranking answers 500 when the period parameter is
    repeated.  In fallback mode it otherwise answers 200 with no entry,
    whatever the store holds.  Whenever it answers 200 it lists at most ten
    entries, from the most used category down, no category twice; every
    entry counts at least one transaction and its total amount, a sum of
    absolute values, is not negative. *)
Theorem top_categories_shape (m : Mode) (env : LiveEnv) (cal : Calendar)
    (now : Z) (uid : string) (period : option QueryParam) (w : World) :
  (forall ps, period = Some (PArray ps) ->
              getTopCategories m env cal now uid period w = InternalError)
  /\ (m = Fallback -> (forall ps, period <> Some (PArray ps)) ->
      getTopCategories m env cal now uid period w = Ok [])
  /\ (forall l,
        getTopCategories m env cal now uid period w = Ok l ->
        (List.length l <= 10)%nat
        /\ Sorted (fun a b => (tc_count b <= tc_count a)%nat) l
        /\ NoDup (map tc_id l)
        /\ Forall (fun g => (1 <= tc_count g)%nat /\ 0 <= total_amount g)
             l).
Proof.
  split; [|split].
  - intros ps ->. reflexivity.
  - intros -> Hp. unfold getTopCategories.
    destruct period as [[s|ps]|]; trivial. now contradiction (Hp ps).
  - intros l. unfold getTopCategories.
    destruct (match period with
              | Some p => p
              | None => PString "30d"
              end) as [s|ps]; [|discriminate].
    unfold Transaction_aggregate.
    destruct m; cbn [Transaction_export].
    + destruct (match categoriesStart cal s now with
                | Some d => Some d
                | None => invalidDate env
                end) as [d|]; [|discriminate].
      intros H. injection H as <-.
      unfold LiveTransaction.topCategoriesPipeline.
      set (docs := LiveTransaction.stage_match uid d now (collection w)).
      set (staged := LiveTransaction.stage_group Category_eqb category env
                       category_name docs).
      set (raw := map LiveTransaction.top_category staged).
      set (geb := fun a b => (tc_count b <=? tc_count a)%nat).
      pose proof (sort_desc_perm geb raw) as Hperm.
      destruct (groups_inhabited Category_eqb category docs
                  Category_eqb_eq) as [Hnd Hall].
      pose proof (stage_group_perm Category_eqb category env category_name
                    docs) as Hst.
      fold staged in Hst. apply Permutation_sym in Hst.
      split; [|split; [|split]].
      * apply firstn_le_length.
      * apply Sorted_firstn.
        apply Sorted_weaken with (R := fun a b => geb a b = true).
        -- intros a b H. now apply Nat.leb_le.
        -- apply sort_desc_sorted. intros a b. apply Nat_leb_total.
      * rewrite <- firstn_map. apply NoDup_firstn.
        apply (Permutation_NoDup (Permutation_map tc_id Hperm)).
        unfold raw. rewrite map_map.
        exact (Permutation_NoDup (Permutation_map fst Hst) Hnd).
      * apply Forall_firstn_keep. apply (Permutation_Forall Hperm).
        unfold raw. apply Forall_map.
        apply (Permutation_Forall Hst).
        eapply Forall_impl; [|exact Hall].
        intros g [Hlen _]. simpl. split; trivial.
        apply acc_sum_abs_nonneg.
    + intros H. injection H as <-. unfold MockTransaction.aggregate.
      simpl. repeat split; try constructor. lia.
Qed.

(** ** What a listing can hold *)

Lemma firstn_sub {A : Type} n (l : list A) x : In x (firstn n l) -> In x l.
Proof.
  revert l. induction n as [|n IH]; intros [|y r]; simpl; try tauto.
  intros [H|H]; [now left | right; now apply IH].
Qed.

Lemma skipn_sub {A : Type} n (l : list A) x : In x (skipn n l) -> In x l.
Proof.
  revert l. induction n as [|n IH]; intros [|y r]; simpl; try tauto.
  intros H. right. now apply IH.
Qed.

Lemma Sorted_skipn {A : Type} (R : A -> A -> Prop) n l :
  Sorted R l -> Sorted R (skipn n l).
Proof.
  revert l. induction n as [|n IH]; intros l H; simpl; trivial.
  destruct H as [|x r Hs Hhd]; [constructor | now apply IH].
Qed.

(** X11.  Whatever the page and the page size, a listing answered 200 in
    live mode holds only stored transactions of the user asked for that
    satisfy every predicate of the filter, most recent first, at most as
    many as the page size when that is not zero, and reports the size of
    the whole filtered set as total.  In fallback mode the handler never
    gets that far: it answers 500 whatever the store holds. *)
Theorem listing_scope (uid : string) (q : ListQuery) (w : World) :
  (forall pg,
     listTransactions Live uid q w = Ok pg ->
     (forall t, In t (transactions pg) ->
        In t (collection w) /\ userId t = uid
        /\ satisfies (build_filter uid q) t)
     /\ Sorted newer_first (transactions pg)
     /\ (forall lim, q_limit q = Some lim -> lim <> 0%Z ->
           (List.length (transactions pg) <= Z.to_nat (Z.abs lim))%nat)
     /\ total_count pg
        = List.length (filter (LiveTransaction.matches (build_filter uid q))
                         (collection w)))
  /\ listTransactions Fallback uid q w = InternalError.
Proof.
  split; [|reflexivity].
  intros pg. unfold listTransactions.
  unfold Transaction_find, Transaction_countDocuments,
    LiveTransaction.countDocuments.
  cbn [Transaction_export call_sort].
  unfold LiveTransaction.lean.
  cbn [LiveTransaction.q_skipN LiveTransaction.q_limitN
       LiveTransaction.q_filter LiveTransaction.q_sortByDateDesc
       LiveTransaction.skip LiveTransaction.limit LiveTransaction.sort
       LiveTransaction.find].
  set (page := match q_page q with Some p => p | None => 1%Z end).
  set (lim := match q_limit q with Some l => l | None => 20%Z end).
  set (ordered := LiveTransaction.by_date_desc
                    (filter (LiveTransaction.matches (build_filter uid q))
                       (collection w))).
  destruct ((page - 1) * lim <? 0)%Z; [discriminate|].
  intros H. injection H as <-. cbn [transactions total_count].
  assert (forall t, In t ordered ->
            In t (collection w) /\ userId t = uid
            /\ satisfies (build_filter uid q) t) as Hin.
  { intros t Ht. unfold ordered in Ht.
    apply (Permutation_in _ (Permutation_sym (sort_desc_perm _ _))) in Ht.
    apply filter_In in Ht. destruct Ht as [Hc Hm].
    apply matches_satisfies in Hm. split; trivial. split; trivial.
    now destruct Hm as [Hu _]. }
  pose proof (by_date_desc_sorted
                (filter (LiveTransaction.matches (build_filter uid q))
                   (collection w))) as Hsorted.
  fold ordered in Hsorted.
  split; [|split; [|split]].
  - intros t Ht. apply Hin.
    destruct (lim * 1 =? 0)%Z; [|apply firstn_sub in Ht];
      now apply skipn_sub in Ht.
  - destruct (lim * 1 =? 0)%Z; [|apply Sorted_firstn];
      now apply Sorted_skipn.
  - intros l Hl Hnz. unfold lim. rewrite Hl.
    replace (l * 1 =? 0)%Z with false by (symmetry; apply Z.eqb_neq; lia).
    replace (l * 1)%Z with l by lia. apply firstn_le_length.
  - reflexivity.
Qed.

(** ** After a registration *)

Lemma register_created_state m env userId profileId salt now iat b w r w' :
  register m env userId profileId salt now iat b w = (Created r, w') ->
  exists cred,
    registerSchema_validate env b = inr cred
    /\ email_taken m env (c_email cred) w = false
    /\ w' = after_register m env userId profileId salt now cred w
    /\ r = {| user_id := val (new_user_id m userId);
              user_email := val (c_email cred);
              user_name := val (c_name cred);
              user_age := or_null_int (match c_age cred with
                                       | Some z => val z
                                       | None => undefined
                                       end);
              token := jwt_sign env (val (new_user_id m userId))
                         (val (c_email cred)) iat |}
    /\ (m = Live ->
        existsb (Sql.by_id (Some (Guid.text userId)))
          (Sql.users (sqlDatabase w)) = false).
Proof.
  destruct (registerSchema_validate env b) as [e|cred] eqn:Hv.
  { unfold register. rewrite Hv. discriminate. }
  intros H. exists cred. split; trivial.
  destruct m.
  - rewrite (register_live _ _ _ _ _ _ _ _ _ Hv) in H.
    destruct (email_taken Live env (c_email cred) w); [discriminate|].
    destruct (Sql.too_long (Some (c_email cred))
              || Sql.too_long
                   (Some (bcrypt_hash env salt (c_password cred)))
              || Sql.too_long (Some (c_name cred))
              || existsb (Sql.by_id (Some (Guid.text userId)))
                   (Sql.users (sqlDatabase w))) eqn:E; [discriminate|].
    apply orb_false_iff in E. destruct E as [_ E].
    destruct (existsb _ (Sql.user_profiles (sqlDatabase w)));
      [discriminate|].
    injection H as <- <-. repeat split; trivial.
  - rewrite (register_mock _ _ _ _ _ _ _ _ _ Hv) in H.
    destruct (email_taken Fallback env (c_email cred) w); [discriminate|].
    injection H as <- <-. repeat split; trivial. discriminate.
Qed.

(** ** Logging in *)

Lemma mock_select_login newId now i db :
  MockPool.query newId now (queryString SelectLogin) i db
  = MockPool.query newId now (queryString SelectIdByEmail) i db.
Proof. reflexivity. Qed.

Lemma existsb_false_filter {A : Type} (p : A -> bool) l :
  existsb p l = false -> filter p l = [].
Proof.
  induction l as [|x r IH]; simpl; trivial.
  destruct (p x); simpl; [discriminate | exact IH].
Qed.

Lemma dict_set_values_In {V : Type} k (v x : V) (d : Dict V) :
  In x (dict_values (dict_set k v d)) -> x = v \/ In x (dict_values d).
Proof.
  induction d as [|[k' v'] r IH]; simpl.
  - intros [H|[]]. now left.
  - destruct (String.eqb k' k); simpl.
    + intros [H|H]; [now left | right; now right].
    + intros [H|H]; [right; now left|].
      destruct (IH H) as [H'|H']; [now left | right; now right].
Qed.

Lemma find_dict_set_new {V : Type} (p : V -> bool) k v (d : Dict V) :
  existsb p (dict_values d) = false -> p v = true ->
  List.find p (dict_values (dict_set k v d)) = Some v.
Proof.
  intros Hex Hp. induction d as [|[k' v'] r IH]; simpl in *.
  - now rewrite Hp.
  - apply orb_false_iff in Hex. destruct Hex as [Hv' Hr].
    destruct (String.eqb k' k); simpl.
    + now rewrite Hp.
    + rewrite Hv'. now apply IH.
Qed.

Lemma login_validate_of_register env b cred :
  registerSchema_validate env b = inr cred ->
  loginSchema_validate env (login_of b)
  = inr (c_email cred, c_password cred).
Proof.
  intros H. apply registerSchema_fields in H.
  destruct H as (He & Hen & Hm & Hp & Hpl & _ & _ & _ & _ & Hpn & _).
  unfold loginSchema_validate, login_of.
  cbn [login_email login_password login_unknown].
  assert (required_string "email" (reg_email b) = inr (c_email cred)) as ->
    by (apply required_string_inr; now split).
  unfold bind at 1 2. rewrite Hm.
  assert (required_string "password" (reg_password b)
          = inr (c_password cred)) as ->
    by (apply required_string_inr; now split).
  reflexivity.
Qed.

Lemma live_login env compare newId now iat b w :
  login Live env compare newId now iat b w
  = match loginSchema_validate env b with
    | inl e => LoginRejected e
    | inr (e, pw) =>
        match filter (Sql.by_email (collationKey env) (Some e))
                (Sql.users (sqlDatabase w)) with
        | [] => InvalidCredentials
        | u :: _ =>
            if Sql.is_active u then
              if compare pw (Sql.password u) then
                LoggedIn {| user_id := val (Sql.id u);
                            user_email := val (Sql.email u);
                            user_name := val (Sql.name u);
                            user_age := Sql.column (Sql.age u);
                            token := jwt_sign env (val (Sql.id u))
                                       (val (Sql.email u)) iat |}
              else InvalidCredentials
            else AccountInactive
        end
    end.
Proof.
  unfold login. destruct (loginSchema_validate env b) as [e|[e pw]]; trivial.
  unfold pool_query. cbn [Sql.query in_email Sql.param].
  destruct (filter _ (Sql.users (sqlDatabase w))) as [|u us]; trivial.
  cbn. now destruct (Sql.is_active u).
Qed.

Lemma mock_login env compare newId now iat b w :
  login Fallback env compare newId now iat b w
  = match loginSchema_validate env b with
    | inl e => LoginRejected e
    | inr (e, pw) =>
        match List.find (fun u => strict_eq String.eqb (MockPool.email u)
                                    (val e))
                (dict_values (MockPool.users (mockDatabase w))) with
        | None => InvalidCredentials
        | Some u =>
            if MockPool.is_active u then
              match MockPool.password u with
              | val h =>
                  if compare pw h then
                    LoggedIn {| user_id := val (MockPool.id u);
                                user_email := MockPool.email u;
                                user_name := MockPool.name u;
                                user_age := MockPool.age u;
                                token := jwt_sign env (val (MockPool.id u))
                                           (MockPool.email u) iat |}
                  else InvalidCredentials
              | _ => LoginFailed
              end
            else AccountInactive
        end
    end.
Proof.
  unfold login. destruct (loginSchema_validate env b) as [e|[e pw]]; trivial.
  unfold pool_query. cbn [mockDatabase sqlDatabase].
  rewrite mock_select_login, mock_select_by_email. cbn [in_email].
  destruct (List.find _ (dict_values (MockPool.users (mockDatabase w))))
    as [u|]; trivial.
  cbn. now destruct (MockPool.is_active u).
Qed.

(** X13.  Whoever registered can log in: after a registration answered 201,
    a login with the same email and password is answered 200 with the same
    user fields, and a token signed for them at the time of the login, in
    either mode, provided [bcrypt.compare] accepts a password against the
    hashes [bcrypt.hash] makes of it. *)
Theorem login_after_register (m : Mode) (env : UserEnv)
    (compare : string -> string -> bool)
    (userId profileId salt newId : string) (now iat now' iat' : Z)
    (b : RegisterBody) (w w' : UserWorld) (r : Registered) :
  (forall s pw, compare pw (bcrypt_hash env s pw) = true) ->
  register m env userId profileId salt now iat b w = (Created r, w') ->
  exists r',
    login m env compare newId now' iat' (login_of b) w' = LoggedIn r'
    /\ user_id r' = user_id r /\ user_email r' = user_email r
    /\ user_name r' = user_name r /\ user_age r' = user_age r
    /\ token r' = jwt_sign env (user_id r) (user_email r) iat'.
Proof.
  intros Hcmp Hreg.
  destruct (register_created_state _ _ _ _ _ _ _ _ _ _ _ Hreg)
    as (cred & Hv & Ht & -> & -> & _).
  destruct m.
  - rewrite live_login, (login_validate_of_register env b cred Hv).
    cbn [after_register sqlDatabase Sql.users]. rewrite filter_app.
    assert (filter (Sql.by_email (collationKey env) (Some (c_email cred)))
              (Sql.users (sqlDatabase w)) = []) as ->
      by exact (existsb_false_filter _ _ Ht).
    cbn [filter app Sql.by_email Sql.email]. rewrite String.eqb_refl.
    cbn [Sql.is_active Sql.password]. rewrite Hcmp.
    eexists. split; [reflexivity|].
    cbn. rewrite column_param_or_null. repeat split.
  - rewrite mock_login, (login_validate_of_register env b cred Hv).
    cbn [after_register mockDatabase MockPool.users].
    rewrite email_taken_mock in Ht.
    rewrite find_dict_set_new; trivial;
      [|simpl; apply String.eqb_refl].
    cbn [MockPool.is_active MockPool.password]. rewrite Hcmp.
    eexists. split; [reflexivity|]. cbn. repeat split.
Qed.

Lemma substring_all (s : string) : substring 0 (String.length s) s = s.
Proof. induction s; simpl; congruence. Qed.

Lemma sample_compare_accepts (salt pw : string) :
  sample_compare pw (bcrypt_hash sample_env salt pw) = true.
Proof.
  unfold sample_compare. cbn [bcrypt_hash sample_env].
  apply String.eqb_eq. symmetry.
  induction salt as [|c r IH]; cbn [String.append String.length].
  - rewrite Nat.sub_diag. apply substring_all.
  - replace (S (String.length (r ++ pw)) - String.length pw)%nat
      with (S (String.length (r ++ pw) - String.length pw)).
    + exact IH.
    + assert (String.length pw <= String.length (r ++ pw))%nat; [|lia].
      clear. induction r; simpl; lia.
Qed.

Lemma login_after_register_witness :
  exists r',
    login Fallback sample_env sample_compare "x" 9 9
      (login_of ann) (ann_registered Fallback) = LoggedIn r'
    /\ user_id r' = val "u1" /\ user_email r' = val "ann@example.org"
    /\ user_name r' = val "Ann" /\ user_age r' = null
    /\ token r' = jwt_sign sample_env (val "u1") (val "ann@example.org") 9.
Proof.
  refine (login_after_register Fallback sample_env sample_compare
            "u1" "p1" "$2a$10$" "x" 5 5 9 9 ann no_users
            (ann_registered Fallback)
            {| user_id := val "u1"; user_email := val "ann@example.org";
               user_name := val "Ann"; user_age := null;
               token := "token" |} _ _).
  - exact sample_compare_accepts.
  - reflexivity.
Defined.

Lemma strict_eq_val (a : Js string) (e : string) :
  strict_eq String.eqb a (val e) = true <-> a = val e.
Proof.
  destruct a as [| |x]; simpl; try (split; discriminate).
  rewrite String.eqb_eq. split; [now intros -> | intros H; now injection H].
Qed.

(** X14.  A login is answered 200 only for an email and a password that
    pass the login schema and for which a user is stored under an email the
    store takes for that one, with a hash that [bcrypt.compare] accepts for
    the password; the answer names the stored email.  For an email the
    store takes for none of the stored ones, the answer is 401. *)
Theorem login_sound (m : Mode) (env : UserEnv)
    (compare : string -> string -> bool) (newId : string) (now iat : Z)
    (b : LoginBody) (w : UserWorld) :
  (forall r,
     login m env compare newId now iat b w = LoggedIn r ->
     exists e pw stored h,
       loginSchema_validate env b = inr (e, pw)
       /\ In (val stored, val h) (stored_credentials m w)
       /\ same_email m env stored e = true
       /\ compare pw h = true
       /\ user_email r = val stored)
  /\ (forall e pw,
        loginSchema_validate env b = inr (e, pw) ->
        email_taken m env e w = false ->
        login m env compare newId now iat b w = InvalidCredentials).
Proof.
  destruct m.
  - rewrite live_login. split.
    + intros r. destruct (loginSchema_validate env b) as [err|[e pw]];
        [discriminate|].
      destruct (filter _ (Sql.users (sqlDatabase w))) as [|u us] eqn:Ef;
        [discriminate|].
      apply filter_hd_In in Ef. destruct Ef as [Hin Hp].
      destruct (Sql.is_active u); [|discriminate].
      destruct (compare pw (Sql.password u)) eqn:Ec; [|discriminate].
      intros H. injection H as <-.
      exists e, pw, (Sql.email u), (Sql.password u).
      repeat match goal with |- _ /\ _ => split end; trivial.
      apply in_map_iff. now exists u.
    + intros e pw -> Ht.
      assert (filter (Sql.by_email (collationKey env) (Some e))
                (Sql.users (sqlDatabase w)) = []) as ->
        by exact (existsb_false_filter _ _ Ht).
      reflexivity.
  - rewrite mock_login. split.
    + intros r. destruct (loginSchema_validate env b) as [err|[e pw]];
        [discriminate|].
      destruct (List.find _ (dict_values (MockPool.users (mockDatabase w))))
        as [u|] eqn:Ef; [|discriminate].
      apply find_some in Ef. destruct Ef as [Hin Hp].
      apply strict_eq_val in Hp.
      destruct (MockPool.is_active u); [|discriminate].
      destruct (MockPool.password u) as [| |h] eqn:Eh; try discriminate.
      destruct (compare pw h) eqn:Ec; [|discriminate].
      intros H. injection H as <-. exists e, pw, e, h.
      repeat match goal with |- _ /\ _ => split end; trivial.
      * apply in_map_iff. exists u. now rewrite Hp, Eh.
      * apply String.eqb_refl.
    + intros e pw -> Ht. rewrite email_taken_mock, find_existsb in Ht.
      now destruct (List.find _
                      (dict_values (MockPool.users (mockDatabase w)))).
Qed.

(** ** A new user's statistics *)

Lemma filter_none {A : Type} (p : A -> bool) l :
  Forall (fun x => p x = false) l -> filter p l = [].
Proof.
  intros H. induction H as [|x r Hx H IH]; simpl; trivial.
  now rewrite Hx.
Qed.

Lemma existsb_false_Forall {A : Type} (p : A -> bool) l :
  existsb p l = false -> Forall (fun x => p x = false) l.
Proof.
  induction l as [|x r IH]; simpl; [constructor|].
  intros H. apply orb_false_iff in H. destruct H. constructor; auto.
Qed.

Lemma live_getStats env newId now id w :
  getStats Live env newId now id w
  = match Guid.cast id with
    | None => InternalError
    | Some g =>
        match Sql.left_join
                (fun u => Sql.stats_row
                            (DATEDIFF_day env (Sql.created_at u) now) u)
                (Some g) (sqlDatabase w) with
        | [] => NotFound
        | stats :: _ =>
            Ok {| st_name := col_name stats;
                  member_since := col_created_at stats;
                  days_active := col_days_since_registration stats;
                  st_monthly_income := col_monthly_income stats;
                  st_spending_limit := col_spending_limit stats;
                  profile_completion := calculateProfileCompletion stats |}
        end
    end.
Proof.
  unfold getStats, pool_query.
  cbn [Sql.query with_id in_id Sql.bind_guid].
  destruct (Guid.cast id) as [g|]; cbn [option_map]; trivial.
Qed.

(** X15.  A user that has just registered has the statistics of an empty
    profile: in either mode the statistics request for the new id answers
    200 with the registered name, the registration time, a monthly income
    and a spending limit of 0 and a profile completion of 30, provided no
    profile row stored before refers to that id. *)
Theorem stats_after_register (m : Mode) (env : UserEnv)
    (userId profileId salt newId : string) (now iat now' : Z)
    (b : RegisterBody) (w w' : UserWorld) (r : Registered) :
  register m env userId profileId salt now iat b w = (Created r, w') ->
  no_profile_of m userId w ->
  exists s,
    getStats m env newId now' (new_user_id m userId) w' = Ok s
    /\ st_name s = user_name r
    /\ member_since s = val now
    /\ st_monthly_income s = val 0
    /\ st_spending_limit s = val 0
    /\ profile_completion s = 30%Z.
Proof.
  intros Hreg Hnp.
  destruct (register_created_state _ _ _ _ _ _ _ _ _ _ _ Hreg)
    as (cred & Hv & Ht & -> & -> & Hfresh).
  destruct w as [sqldb mockdb].
  destruct m; cbn [no_profile_of new_user_id sqlDatabase mockDatabase]
                in Hnp |- *.
  - specialize (Hfresh eq_refl). cbn [sqlDatabase] in Hfresh.
    rewrite live_getStats, Guid_cast_text.
    cbn [after_register sqlDatabase].
    unfold Sql.left_join. cbn [Sql.users Sql.user_profiles].
    rewrite filter_app.
    rewrite (filter_none _ (Sql.users sqldb)).
    2:{ apply existsb_false_Forall in Hfresh.
        eapply Forall_impl; [|exact Hfresh].
        intros u Hu. cbn [Sql.by_id] in *. now rewrite Hu. }
    cbn [filter app Sql.by_id Sql.id Sql.is_active].
    rewrite String.eqb_refl. cbn [andb flat_map app Sql.id].
    rewrite filter_app.
    rewrite (filter_none _ (Sql.user_profiles sqldb)).
    2:{ eapply Forall_impl; [|exact Hnp].
        intros p Hp. cbn beta. apply String.eqb_neq. congruence. }
    cbn [filter app Sql.user_id]. rewrite String.eqb_refl.
    eexists. split; [reflexivity|]. now cbn.
  - unfold getStats, pool_query.
    cbn [after_register mockDatabase sqlDatabase].
    rewrite mock_select_stats.
    cbn [with_id in_id MockPool.users_get MockPool.users
         MockPool.user_profiles].
    rewrite dict_get_set_same.
    rewrite find_dict_set_new.
    + eexists. split; [reflexivity|]. now cbn.
    + destruct (existsb _ (dict_values (MockPool.user_profiles mockdb)))
        eqn:E; trivial.
      apply existsb_exists in E. destruct E as (p & Hin & Hp).
      apply strict_eq_val in Hp.
      rewrite Forall_forall in Hnp. now apply Hnp in Hin.
    + simpl. apply String.eqb_refl.
Qed.

Lemma stats_after_register_witness :
  exists s,
    getStats Fallback sample_env "x" 9 (new_user_id Fallback "u1")
      (ann_registered Fallback) = Ok s
    /\ st_name s = val "Ann"
    /\ member_since s = val 5%Z
    /\ st_monthly_income s = val 0
    /\ st_spending_limit s = val 0
    /\ profile_completion s = 30%Z.
Proof.
  apply (stats_after_register Fallback sample_env "u1" "p1" "$2a$10$" "x" 5
           5 9 ann no_users (ann_registered Fallback)
           {| user_id := val "u1"; user_email := val "ann@example.org";
              user_name := val "Ann"; user_age := null;
              token := "token" |}).
  - reflexivity.
  - constructor.
Defined.

(** ** Stored emails stay pairwise distinct *)

Lemma dict_set_NoDup_image {V B : Type} (f : V -> B) k v (d : Dict V) :
  NoDup (map f (dict_values d)) ->
  ~ In (f v) (map f (dict_values d)) ->
  NoDup (map f (dict_values (dict_set k v d))).
Proof.
  induction d as [|[k' v'] r IH]; simpl; intros Hnd Hn.
  - constructor; [intros [] | constructor].
  - inversion Hnd as [|? ? Hv' Hr]; subst.
    destruct (String.eqb k' k); simpl.
    + constructor; [tauto | trivial].
    + constructor; [|apply IH; tauto].
      intros Hin. apply in_map_iff in Hin. destruct Hin as (x & Ex & Hx).
      apply dict_set_values_In in Hx. destruct Hx as [->|Hx].
      * apply Hn. now left.
      * apply Hv'. rewrite <- Ex. now apply in_map.
Qed.

Lemma email_free_live env e (l : list Sql.UserRow) :
  existsb (fun u => same_email Live env (Sql.email u) e) l = false ->
  ~ In (val e) (map (fun u => val (Sql.email u)) l).
Proof.
  intros H Hin. apply in_map_iff in Hin. destruct Hin as (u & Eu & Hu).
  injection Eu as Eu.
  assert (existsb (fun u => same_email Live env (Sql.email u) e) l = true);
    [|congruence].
  apply existsb_exists. exists u. split; trivial. rewrite Eu.
  apply String.eqb_refl.
Qed.

Lemma email_free_mock e (l : list MockPool.User) :
  existsb (fun u => strict_eq String.eqb (MockPool.email u) (val e)) l
  = false ->
  ~ In (val e) (map MockPool.email l).
Proof.
  intros H Hin. apply in_map_iff in Hin. destruct Hin as (u & Eu & Hu).
  assert (existsb (fun u => strict_eq String.eqb (MockPool.email u) (val e))
            l = true); [|congruence].
  apply existsb_exists. exists u. split; trivial.
  now apply strict_eq_val.
Qed.

Lemma map_update_user_emails now pid pname page l :
  map (fun u => val (Sql.email u))
    (map (Sql.update_user now pid pname page) l)
  = map (fun u => val (Sql.email u)) l.
Proof.
  rewrite map_map. apply map_ext. intros u. unfold Sql.update_user.
  now destruct (Sql.by_id _ u).
Qed.

(** X16.  If no two stored users share an email, none do after a
    registration request, whatever its answer, in either mode; and a
    profile update leaves the stored emails as they are. *)
Theorem emails_stay_unique (m : Mode) (env : UserEnv)
    (userId profileId salt newId : string) (now iat : Z) (b : RegisterBody)
    (id : string) (upd : ProfileUpdate) (w : UserWorld) :
  NoDup (stored_emails m w) ->
  NoDup (stored_emails m
           (snd (register m env userId profileId salt now iat b w)))
  /\ stored_emails m (snd (updateProfile m env newId now id upd w))
     = stored_emails m w.
Proof.
  intros Hnd. split.
  - destruct (registerSchema_validate env b) as [e|cred] eqn:Hv.
    { unfold register. now rewrite Hv. }
    assert (email_taken m env (c_email cred) w = false ->
            NoDup (stored_emails m
                     (after_register m env userId profileId salt now cred
                        w))) as Hnew.
    { intros Ht. destruct m; cbn [stored_emails after_register sqlDatabase
                                  mockDatabase Sql.users MockPool.users].
      - rewrite map_app. simpl. apply NoDup_app.
        + exact Hnd.
        + constructor; [intros [] | constructor].
        + intros x Hx [<-|[]]. now apply (email_free_live _ _ _ Ht).
      - apply dict_set_NoDup_image; trivial. simpl.
        apply email_free_mock. now rewrite <- (email_taken_mock env). }
    destruct m.
    + rewrite (register_live _ _ _ _ _ _ _ _ _ Hv).
      destruct (email_taken Live env (c_email cred) w); trivial.
      destruct (_ || _); trivial.
      destruct (existsb _ (Sql.user_profiles (sqlDatabase w)));
        now apply Hnew.
    + rewrite (register_mock _ _ _ _ _ _ _ _ _ Hv).
      destruct (email_taken Fallback env (c_email cred) w); trivial.
      now apply Hnew.
  - destruct m; [|now rewrite fallback_updateProfile].
    destruct w as [sqldb mockdb]. rewrite live_updateProfile.
    repeat match goal with
      | |- context [pool_query Live _ _ _ UpdateUser _ _] =>
          rewrite live_update_user_statement
      | |- context [pool_query Live _ _ _ UpdateProfile _ _] =>
          rewrite live_update_profile_statement
      | |- context [match Guid.cast id with _ => _ end] =>
          destruct (Guid.cast id) eqn:?
      | |- context [match Sql.bind_int ?x with _ => _ end] =>
          destruct (Sql.bind_int x) eqn:?
      | |- context [match Sql.bind_decimal ?x with _ => _ end] =>
          destruct (Sql.bind_decimal x) eqn:?
      | |- context [if ?c then _ else _] => destruct c eqn:?
      end; cbn; rewrite ?map_update_user_emails; reflexivity.
Qed.

Lemma emails_stay_unique_witness :
  NoDup (stored_emails Fallback
           (snd (register Fallback sample_env "u2" "p2" "$2a$10$" 6 6 ann
                   (ann_registered Fallback)))).
Proof.
  refine (proj1 (emails_stay_unique Fallback sample_env "u2" "p2" "$2a$10$"
                   "x" 6 6 ann "u1" rename (ann_registered Fallback) _)).
  constructor; [intros [] | constructor].
Defined.

(** ** Updates that match nothing, updates sent twice *)

Lemma map_fixed {A : Type} (f : A -> A) l :
  Forall (fun x => f x = x) l -> map f l = l.
Proof.
  intros H. induction H as [|x r Hx H IH]; simpl; congruence.
Qed.

Lemma update_user_twice now1 now2 pid pname page u :
  Sql.update_user now2 pid pname page
    (Sql.update_user now1 pid pname page u)
  = Sql.update_user now2 pid pname page u.
Proof.
  unfold Sql.update_user.
  destruct (Sql.by_id pid u) eqn:E; [|now rewrite E].
  assert (Sql.by_id pid
            {| Sql.id := Sql.id u; Sql.email := Sql.email u;
               Sql.password := Sql.password u;
               Sql.name := Sql.COALESCE pname (Sql.name u);
               Sql.age := Sql.COALESCE_null page (Sql.age u);
               Sql.created_at := Sql.created_at u; Sql.updated_at := now1;
               Sql.is_active := Sql.is_active u |} = true) as ->
    by exact E.
  simpl. f_equal.
  - now destruct pname.
  - now destruct page.
Qed.

Lemma update_profile_twice now1 now2 puser pin pgoals plim p :
  Sql.update_profile now2 puser pin pgoals plim
    (Sql.update_profile now1 puser pin pgoals plim p)
  = Sql.update_profile now2 puser pin pgoals plim p.
Proof.
  unfold Sql.update_profile.
  destruct (Sql.of_user puser p) eqn:E; [|now rewrite E].
  match goal with
  | |- (if Sql.of_user ?x ?q then _ else _) = _ =>
      assert (Sql.of_user x q = true) as -> by exact E
  end.
  simpl. f_equal.
  - now destruct pin.
  - now destruct pgoals.
  - now destruct plim.
Qed.

Lemma existsb_update_user now pid pid' pname page l :
  existsb (Sql.by_id pid') (map (Sql.update_user now pid pname page) l)
  = existsb (Sql.by_id pid') l.
Proof.
  induction l as [|u r IH]; simpl; trivial. rewrite IH. f_equal.
  unfold Sql.update_user. now destruct (Sql.by_id pid u), pid'.
Qed.

Lemma update_user_unmatched now g pname page l :
  Forall (fun u => Sql.id u <> g) l ->
  map (Sql.update_user now (Some g) pname page) l = l.
Proof.
  intros H. apply map_fixed. eapply Forall_impl; [|exact H].
  intros u Hn. unfold Sql.update_user. cbn [Sql.by_id].
  apply String.eqb_neq in Hn. now rewrite Hn.
Qed.

Lemma update_profile_unmatched now g pin pgoals plim l :
  Forall (fun p => Sql.user_id p <> g) l ->
  map (Sql.update_profile now (Some g) pin pgoals plim) l = l.
Proof.
  intros H. apply map_fixed. eapply Forall_impl; [|exact H].
  intros p Hn. unfold Sql.update_profile. cbn [Sql.of_user].
  apply String.eqb_neq in Hn. now rewrite Hn.
Qed.

(** X17.  In live mode a profile update for an id that no user row and no
    profile row carries leaves the tables as they were, whatever it
    answers; and sending an update a second time is answered as sending it
    once at the later time is, and leaves the tables as that does. *)
Theorem update_matches_nothing_or_repeats (env : UserEnv)
    (newId1 newId2 : string) (now1 now2 : Z) (id : string)
    (upd : ProfileUpdate) (w : UserWorld) :
  ((forall g, Guid.cast id = Some g ->
      Forall (fun u => Sql.id u <> g) (Sql.users (sqlDatabase w))
      /\ Forall (fun p => Sql.user_id p <> g)
           (Sql.user_profiles (sqlDatabase w))) ->
   snd (updateProfile Live env newId1 now1 id upd w) = w)
  /\ updateProfile Live env newId2 now2 id upd
       (snd (updateProfile Live env newId1 now1 id upd w))
     = updateProfile Live env newId2 now2 id upd w.
Proof.
  destruct w as [[users profiles] mockdb].
  cbn [sqlDatabase Sql.users Sql.user_profiles].
  destruct (Guid.cast id) as [g|] eqn:Hc;
    destruct (Sql.bind_int (up_age upd)) as [page|] eqn:Hi;
    destruct (Sql.bind_decimal (up_monthly_income upd)) as [pin|] eqn:Hd1;
    destruct (Sql.bind_decimal (up_spending_limit upd)) as [plim|] eqn:Hd2;
    destruct (touches_user upd) eqn:Hu;
    destruct (touches_profile upd) eqn:Hp;
    destruct (Sql.too_long (Sql.param (up_name upd))) eqn:Hl;
    try (destruct (existsb (Sql.by_id (Some g)) users) eqn:He).
  all: repeat (rewrite live_updateProfile;
               rewrite ?Hu, ?Hp;
               rewrite ?live_update_user_statement;
               rewrite ?Hc, ?Hi, ?Hl;
               cbn [Sql.users Sql.user_profiles];
               rewrite ?existsb_update_user, ?He;
               cbn [andb];
               rewrite ?live_update_profile_statement;
               rewrite ?Hc, ?Hd1, ?Hd2;
               cbn [snd Sql.users Sql.user_profiles]).
  all: split; [intros Hnone|].
  all: try reflexivity.
  all: try (destruct (Hnone _ eq_refl) as [Hnu Hnp];
            rewrite ?(update_user_unmatched _ _ _ _ _ Hnu);
            rewrite ?(update_profile_unmatched _ _ _ _ _ _ Hnp);
            reflexivity).
  all: rewrite ?map_map.
  all: rewrite ?(map_ext _ _ (update_user_twice now1 now2 _ _ _)).
  all: rewrite ?(map_ext _ _ (update_profile_twice now1 now2 _ _ _ _)).
  all: reflexivity.
Qed.

(** ** The profile lookup of the mock, after a registration *)

(** X18.  In fallback mode a user that has just registered cannot fetch the
    profile: the profile lookup answers 404 for every id, the new one
    included, as long as every user stored before has an email, while the
    statistics request for the new id does not answer 404. *)
Theorem fallback_profile_after_register (env : UserEnv)
    (userId profileId salt newId : string) (now iat now' : Z)
    (b : RegisterBody) (w w' : UserWorld) (r : Registered) :
  Forall (fun u => MockPool.email u <> undefined)
    (dict_values (MockPool.users (mockDatabase w))) ->
  register Fallback env userId profileId salt now iat b w
  = (Created r, w') ->
  (forall id, getProfile Fallback env newId now' id w' = NotFound)
  /\ getStats Fallback env newId now' userId w' <> NotFound.
Proof.
  intros Hem Hreg.
  destruct (register_created_state _ _ _ _ _ _ _ _ _ _ _ Hreg)
    as (cred & _ & _ & -> & _ & _).
  split.
  - intros id. apply fallback_lookup_finds_nothing.
    cbn [after_register mockDatabase MockPool.users].
    apply dict_set_values_Forall; trivial. discriminate.
  - unfold getStats, pool_query.
    cbn [after_register mockDatabase sqlDatabase].
    rewrite mock_select_stats.
    cbn [with_id in_id MockPool.users_get MockPool.users].
    rewrite dict_get_set_same. discriminate.
Qed.

Lemma fallback_profile_after_register_witness :
  getProfile Fallback sample_env "x" 9 "u1" (ann_registered Fallback)
  = NotFound.
Proof.
  refine (proj1 (fallback_profile_after_register sample_env "u1" "p1"
                   "$2a$10$" "x" 5 5 9 ann no_users
                   (ann_registered Fallback)
                   {| user_id := val "u1";
                      user_email := val "ann@example.org";
                      user_name := val "Ann"; user_age := null;
                      token := "token" |} _ _) "u1").
  - constructor.
  - reflexivity.
Defined.
